(** * tw-eval-leaderboard: the data normalization and aggregation pipeline

    A shallow embedding of the transformation functions of
    [features/transform] (getSourceIdentifier, normalizeDatasetKey,
    extractCategory, categorizeTest, flattenDatasetResults, groupByCategory,
    buildPivotTable), of the aggregation of [BenchmarkRankingTable] and of the
    per-test value map of [CategoryDashboard].

    Modelling conventions.
    - A JavaScript string is a [string] of the Standard Library, a sequence of
      8-bit units.  [toLowerCase] folds the letters A-Z only and leaves the
      units above 127 as they are.
    - A number of a document is kept as the rational its literal denotes
      where the program only copies it (the flattener, the pivot, the
      dashboard).  Where the program computes with numbers (the ranking) they
      are IEEE 754 binary64 values, [spec_float] at precision 53, and [+] and
      [/] are the rounded operations of the Standard Library.
    - [Map], [Set] and plain objects are association lists in insertion
      order, which is also their iteration order for the keys used here.
    - A thrown [TypeError] is the [Throw] result of the [result] monad. *)

From Stdlib Require Import Strings.String Strings.Ascii Lists.List Bool.Bool.
From Stdlib Require Import Arith.PeanoNat ZArith.ZArith micromega.Lia QArith.QArith.
From Stdlib Require Import Sorting.Permutation Sorting.Sorted Numbers.DecimalString.
From Stdlib Require Import Floats.SpecFloat.
Import ListNotations.

Set Warnings "-register-all".

Local Open Scope string_scope.
Local Open Scope list_scope.

(* ================================================================== *)
(** ** JavaScript string primitives *)

Module JsString.

(** [drop_prefix p s] is [Some r] when [s = p ++ r]. *)
Fixpoint drop_prefix (p s : string) : option string :=
  match p, s with
  | EmptyString, _ => Some s
  | String a p', String b s' =>
      if Ascii.eqb a b then drop_prefix p' s' else None
  | String _ _, EmptyString => None
  end.

Definition startsWith (s p : string) : bool :=
  match drop_prefix p s with Some _ => true | None => false end.

(** [String.prototype.includes]: [kw] occurs in [s] at some position. *)
Fixpoint includes (s kw : string) : bool :=
  startsWith s kw ||
  match s with
  | EmptyString => false
  | String _ r => includes r kw
  end.

(** [String.prototype.split] with a non-empty separator: occurrences of
    [sep] are found left to right and do not overlap.  [skip] counts the
    units of a matched separator that are still to be passed over.  The
    result is the first segment and the list of the segments after it. *)
Fixpoint split_go (sep s : string) (skip : nat) : string * list string :=
  match s with
  | EmptyString => (EmptyString, [])
  | String c r =>
      match skip with
      | S k => split_go sep r k
      | O =>
          if startsWith s sep
          then (EmptyString,
                let (h, t) := split_go sep r (String.length sep - 1) in h :: t)
          else let (h, t) := split_go sep r 0 in (String c h, t)
      end
  end.

Definition split (sep s : string) : list string :=
  let (h, t) := split_go sep s 0 in h :: t.

(** [Array.prototype.join]. *)
Fixpoint join (sep : string) (l : list string) : string :=
  match l with
  | [] => EmptyString
  | [x] => x
  | x :: r => x ++ sep ++ join sep r
  end.

(** [parts.pop()] on the array returned by [split], which is never empty. *)
Definition pop (l : list string) : string := last l EmptyString.

(** [a || b] on strings: the empty string is falsy. *)
Definition or_else (a b : string) : string :=
  match a with EmptyString => b | _ => a end.

Fixpoint all_slashes (s : string) : bool :=
  match s with
  | EmptyString => true
  | String c r => Ascii.eqb c "/" && all_slashes r
  end.

(** [s.replace(/\/+$/, '')]: the leftmost position from which only slashes
    (at least one) remain up to the end of the input. *)
Fixpoint strip_trailing_slashes (s : string) : string :=
  match s with
  | EmptyString => EmptyString
  | String c r => if all_slashes s then EmptyString
                  else String c (strip_trailing_slashes r)
  end.

(** [s.replace(/^\/+/, '')]. *)
Fixpoint strip_leading_slashes (s : string) : string :=
  match s with
  | String c r => if Ascii.eqb c "/" then strip_leading_slashes r else s
  | EmptyString => EmptyString
  end.

(** [s.replace(/(a1|a2|...)$/, '')] for literal alternatives: the leftmost
    position from which the rest of the input is one of the alternatives. *)
Fixpoint strip_end (alts : list string) (s : string) : string :=
  if existsb (String.eqb s) alts then EmptyString
  else match s with
       | EmptyString => EmptyString
       | String c r => String c (strip_end alts r)
       end.

Definition lower_ascii (c : ascii) : ascii :=
  let n := nat_of_ascii c in
  if (65 <=? n)%nat && (n <=? 90)%nat then ascii_of_nat (n + 32) else c.

(** [String.prototype.toLowerCase] on 8-bit units. *)
Fixpoint toLowerCase (s : string) : string :=
  match s with
  | EmptyString => EmptyString
  | String c r => String (lower_ascii c) (toLowerCase r)
  end.

End JsString.
Import JsString.

(* ================================================================== *)
(** ** Key Normalizer and Category Extractor *)

(** [normalizeDatasetKey]: trailing slashes removed, then the last path
    segment, then the last [__]-segment; an empty segment falls back to the
    name it was taken from. *)
Definition normalizeDatasetKey (key : string) : string :=
  let name := strip_trailing_slashes key in
  let name := or_else (pop (split "/" name)) name in
  let name := or_else (pop (split "__" name)) name in
  name.

Definition extensions : list string := ["jsonl"; "json"; "csv"; "parquet"].

(** The alternatives of [/_test\.(jsonl?|csv|parquet)$/]. *)
Definition test_suffixes : list string := map (append "_test.") extensions.

(** The alternatives of [/\.(jsonl?|csv|parquet)$/]. *)
Definition bare_suffixes : list string := map (append ".") extensions.

(** [extractCategory]: the two replacements are chained, the second one runs
    on the result of the first. *)
Definition extractCategory (filename : string) : string :=
  let name := or_else (pop (split "/" filename)) filename in
  strip_end bare_suffixes (strip_end test_suffixes name).

(* ================================================================== *)
(** ** Thrown exceptions and parsed JSON values *)

Inductive error : Type := TypeError.

Inductive result (A : Type) : Type :=
| OK (a : A)
| Throw (e : error).
Arguments OK {A} a.
Arguments Throw {A} e.

Definition bind {A B : Type} (m : result A) (k : A -> result B) : result B :=
  match m with
  | OK a => k a
  | Throw e => Throw e
  end.

Notation "x <- m ;; k" := (bind m (fun x => k))
  (at level 61, m at next level, right associativity).

(** A [for ... of] loop whose body may throw, over the loop state [s]. *)
Fixpoint forOf {A S : Type} (body : S -> A -> result S) (l : list A) (s : S)
  : result S :=
  match l with
  | [] => OK s
  | x :: r => s' <- body s x ;; forOf body r s'
  end.

(** The value of [rawData]: what [JSON.parse] returns, or [undefined].  The
    properties of an object are listed in the order [Object.entries]
    enumerates them; a property read takes the first binding of a key (the
    keys of a parsed object are distinct). *)
Inductive JsValue : Type :=
| JUndefined
| JNull
| JBool (b : bool)
| JNum (q : Q)
| JStr (s : string)
| JArr (items : list JsValue)
| JObj (props : list (string * JsValue)).

(** ** Insertion-ordered maps: [Map], [Set] and plain objects *)

Section Assoc.
Context {K V : Type} (eqb : K -> K -> bool).

Fixpoint lookup (k : K) (m : list (K * V)) : option V :=
  match m with
  | [] => None
  | (k', v) :: r => if eqb k k' then Some v else lookup k r
  end.

Definition has (k : K) (m : list (K * V)) : bool :=
  match lookup k m with Some _ => true | None => false end.

(** [m.set(k, v)] and [o[k] = v]: an existing key keeps its place, a new
    key goes last. *)
Fixpoint set (k : K) (v : V) (m : list (K * V)) : list (K * V) :=
  match m with
  | [] => [(k, v)]
  | (k', v') :: r => if eqb k k' then (k', v) :: r else (k', v') :: set k v r
  end.

(** [s.add(k)] on a [Set]. *)
Fixpoint add (k : K) (s : list K) : list K :=
  match s with
  | [] => [k]
  | k' :: r => if eqb k k' then s else k' :: add k r
  end.
End Assoc.

(** [v.k] for the property names read by this program ([dataset_results],
    [results], [file], [accuracy_mean], [accuracy_std], [individual_runs],
    [accuracies]): none of them is an index or a built-in property, so only
    an object can hold one; reading a property of [null] or [undefined]
    throws. *)
Definition getProp (v : JsValue) (k : string) : result JsValue :=
  match v with
  | JUndefined | JNull => Throw TypeError
  | JObj props =>
      OK (match lookup String.eqb k props with Some x => x | None => JUndefined end)
  | _ => OK JUndefined
  end.

(** [v?.k]. *)
Definition getPropOpt (v : JsValue) (k : string) : result JsValue :=
  match v with
  | JUndefined | JNull => OK JUndefined
  | _ => getProp v k
  end.

Definition truthy (v : JsValue) : bool :=
  match v with
  | JUndefined | JNull => false
  | JBool b => b
  | JNum q => negb (Qeq_bool q 0)
  | JStr s => negb (String.eqb s EmptyString)
  | JArr _ | JObj _ => true
  end.

(** [typeof v === 'object' && v !== null]. *)
Definition isObject (v : JsValue) : bool :=
  match v with
  | JArr _ | JObj _ => true
  | _ => false
  end.

Definition index_key (i : nat) : string :=
  NilEmpty.string_of_uint (Nat.to_uint i).

Fixpoint indexed (i : nat) (l : list JsValue) : list (string * JsValue) :=
  match l with
  | [] => []
  | x :: r => (index_key i, x) :: indexed (S i) r
  end.

(** [Object.entries(v)]: own enumerable properties; the indices of an array
    or of a string; nothing for a number or a boolean. *)
Definition objectEntries (v : JsValue) : result (list (string * JsValue)) :=
  match v with
  | JUndefined | JNull => Throw TypeError
  | JObj props => OK props
  | JArr items => OK (indexed 0 items)
  | JStr s =>
      OK (indexed 0 (map (fun c => JStr (String c EmptyString)) (list_ascii_of_string s)))
  | JBool _ | JNum _ => OK []
  end.

(* ================================================================== *)
(** ** Data model *)

Inductive CategoryKey : Type :=
| computerScience | mathematics | medicineHealth | science | lawGovernment
| humanitiesPhilosophy | businessEconomics | socialSciences | education
| engineeringTechnical | vocationalArts | languagesLiterature
| miscellaneous | other.

Definition CategoryKey_eqb (a b : CategoryKey) : bool :=
  match a, b with
  | computerScience, computerScience | mathematics, mathematics
  | medicineHealth, medicineHealth | science, science
  | lawGovernment, lawGovernment
  | humanitiesPhilosophy, humanitiesPhilosophy
  | businessEconomics, businessEconomics | socialSciences, socialSciences
  | education, education | engineeringTechnical, engineeringTechnical
  | vocationalArts, vocationalArts
  | languagesLiterature, languagesLiterature
  | miscellaneous, miscellaneous | other, other => true
  | _, _ => false
  end.

Record DataSource : Type := {
  id : string;
  label : string;
  provider : string;
  modelName : string;
  modelId : string;
  variance : string;
  openSource : bool;
  timestamp : string;
  isOfficial : bool;
  data : JsValue;
  rawData : JsValue
}.

(** [accuracy_std] is copied without a type test, so it holds whatever the
    entry has there. *)
Record CategoryResult : Type := {
  category : string;
  file : string;
  accuracy_mean : Q;
  accuracy_std : JsValue
}.

(** ** getSourceIdentifier *)

Definition getSourceIdentifier (source : DataSource) : string :=
  if negb (String.eqb (variance source) "default")
  then modelName source ++ "-" ++ variance source
  else modelName source.

(** ** Subject Classifier *)

Definition categorizeTest (filename : string) : CategoryKey :=
  let name := toLowerCase filename in
  if includes name "computer" || includes name "machine_learning"
     || includes name "security"
  then computerScience
  else if includes name "math" || includes name "algebra"
     || includes name "calculus" || includes name "geometry"
     || includes name "statistics" || includes name "trigonometry"
  then mathematics
  else if includes name "medicine" || includes name "nutrition"
     || includes name "anatomy" || includes name "clinical"
     || includes name "virology" || includes name "genetics"
     || includes name "pharmacology" || includes name "veterinary"
     || includes name "dentistry" || includes name "pharmacy"
     || includes name "optometry" || includes name "occupational"
     || includes name "therapy" || includes name "psychological"
     || includes name "pathology" || includes name "medical"
  then medicineHealth
  else if includes name "physics" || includes name "chemistry"
     || includes name "biology" || includes name "astronomy"
     || includes name "science" || includes name "medical"
  then science
  else if includes name "law" || includes name "legal"
     || includes name "jurisprudence" || includes name "government"
     || includes name "politics" || includes name "foreign"
     || includes name "policy" || includes name "politic"
     || includes name "national" || includes name "protection"
  then lawGovernment
  else if includes name "ttqav2" || includes name "history"
     || includes name "geography" || includes name "philosophy"
     || includes name "logic" || includes name "logical"
     || includes name "reasoning" || includes name "religions"
     || includes name "principles" || includes name "moral"
  then humanitiesPhilosophy
  else if includes name "business" || includes name "economics"
     || includes name "marketing" || includes name "accounting"
     || includes name "management" || includes name "finance"
     || includes name "financial" || includes name "analysis"
     || includes name "auditing" || includes name "taxation"
     || includes name "insurance" || includes name "trade"
     || includes name "real" || includes name "estate"
     || includes name "trust" || includes name "public"
     || includes name "relations" || includes name "money"
     || includes name "laundering" || includes name "econometrics"
     || includes name "humanities"
  then businessEconomics
  else if includes name "psychology" || includes name "sociology"
     || includes name "behavior" || includes name "sexuality"
     || includes name "aging" || includes name "social"
     || includes name "studies"
  then socialSciences
  else if includes name "education" || includes name "profession"
  then education
  else if includes name "mechanical" || includes name "technical"
     || includes name "electrical" || includes name "engineering"
  then engineeringTechnical
  else if includes name "music" || includes name "culinary"
     || includes name "physical" || includes name "nautical"
     || includes name "agriculture" || includes name "fire"
  then vocationalArts
  else if includes name "chinese" || includes name "language"
     || includes name "literature" || includes name "taiwanese"
     || includes name "hokkien"
  then languagesLiterature
  else if includes name "miscellaneous" || includes name "design"
     || includes name "global" || includes name "facts"
  then miscellaneous
  else other.

(* ================================================================== *)
(** ** Result Flattener *)

(** The legacy override for the default test of tw-legal-benchmark-v1. *)
Definition legacyOverride (normalizedDataset category : string) : string :=
  if String.eqb normalizedDataset "tw-legal-benchmark-v1"
     && String.eqb category "default"
  then "benchmark"
  else category.

(** The body of the inner loop: the three property reads come first and
    throw on [null] and [undefined]; the shape test follows. *)
Definition flattenEntry (normalizedDataset : string)
  (results : list CategoryResult) (entry : JsValue)
  : result (list CategoryResult) :=
  file <- getProp entry "file" ;;
  accuracy_mean <- getProp entry "accuracy_mean" ;;
  accuracy_std <- getProp entry "accuracy_std" ;;
  match file, accuracy_mean with
  | JStr file, JNum accuracy_mean =>
      let category := extractCategory file in
      let category := legacyOverride normalizedDataset category in
      OK (results ++
          [{| category := normalizedDataset ++ "/" ++ category;
              file := file;
              accuracy_mean := accuracy_mean;
              accuracy_std := accuracy_std |}])
  | _, _ => OK results
  end.

(** The body of the outer loop, over the entries of [dataset_results]. *)
Definition flattenDataset (results : list CategoryResult)
  (kv : string * JsValue) : result (list CategoryResult) :=
  let (datasetKey, datasetValue) := kv in
  let normalizedDataset := normalizeDatasetKey datasetKey in
  if negb (isObject datasetValue) then OK results
  else
    resultsList <- getProp datasetValue "results" ;;
    match resultsList with
    | JArr items => forOf (flattenEntry normalizedDataset) items results
    | _ => OK results
    end.

Definition flattenDatasetResults (rawData : JsValue)
  : result (list CategoryResult) :=
  let results := [] in
  if negb (isObject rawData) then OK results
  else
    datasetResults <- getProp rawData "dataset_results" ;;
    if negb (truthy datasetResults) then OK results
    else
      entries <- objectEntries datasetResults ;;
      forOf flattenDataset entries results.

(* ================================================================== *)
(** ** Category Grouper *)

(** One turn of the loop: the bucket is created empty when it is missing,
    then the result is pushed onto it. *)
Definition groupStep (grouped : list (CategoryKey * list CategoryResult))
  (r : CategoryResult) : list (CategoryKey * list CategoryResult) :=
  let c := categorizeTest (category r) in
  let grouped :=
    if has CategoryKey_eqb c grouped then grouped
    else set CategoryKey_eqb c [] grouped in
  match lookup CategoryKey_eqb c grouped with
  | Some bucket => set CategoryKey_eqb c (bucket ++ [r]) grouped
  | None => grouped
  end.

Definition groupByCategory (results : list CategoryResult)
  : list (CategoryKey * list CategoryResult) :=
  fold_left groupStep results [].

(* ================================================================== *)
(** ** Pivot Builder *)

Inductive PivotVal : Type :=
| PStr (s : string)
| PNum (q : Q).

(** A [PivotRow] is a plain object: [category] and one key per label. *)
Definition PivotRow : Type := list (string * PivotVal).

Definition varianceLabel (source : DataSource) : string :=
  if negb (String.eqb (variance source) "default")
  then " (" ++ variance source ++ ")"
  else EmptyString.

Definition sourceLabel (source : DataSource) : string :=
  modelName source ++ varianceLabel source ++ " @ " ++ timestamp source
  ++ (if isOfficial source then " (Official)" else EmptyString).

(** One turn of the inner loop.  The row is shared between the map and the
    local variable, so the assignment to the row is a write into the map. *)
Definition pivotStep (lbl : string) (categoryMap : list (string * PivotRow))
  (r : CategoryResult) : list (string * PivotRow) :=
  let (row, categoryMap) :=
    match lookup String.eqb (category r) categoryMap with
    | Some row => (row, categoryMap)
    | None =>
        let row := [("category", PStr (category r))] in
        (row, set String.eqb (category r) row categoryMap)
    end in
  set String.eqb (category r)
      (set String.eqb lbl (PNum (accuracy_mean r)) row) categoryMap.

Definition pivotSource (categoryMap : list (string * PivotRow))
  (source : DataSource) : result (list (string * PivotRow)) :=
  results <- flattenDatasetResults (rawData source) ;;
  OK (fold_left (pivotStep (sourceLabel source)) results categoryMap).

Definition buildPivotTable (sources : list DataSource)
  : result (list PivotRow) :=
  categoryMap <- forOf pivotSource sources [] ;;
  OK (map snd categoryMap).

(** Reading a cell of the table: the row of a category, then a key in it. *)
Definition pivotRowOf (rows : list PivotRow) (c : string) : option PivotRow :=
  find (fun row => match lookup String.eqb "category" row with
                   | Some (PStr c') => String.eqb c c'
                   | _ => false
                   end) rows.

Definition pivotCell (rows : list PivotRow) (c lbl : string) : option PivotVal :=
  match pivotRowOf rows c with
  | Some row => lookup String.eqb lbl row
  | None => None
  end.

(* ================================================================== *)
(** ** Ranking Aggregator (the [benchmarkData] memo of BenchmarkRankingTable) *)

Definition extractBenchmarkName (category : string) : string :=
  let parts := split "/" category in
  or_else (hd EmptyString parts) category.

Definition extractTestName (category : string) : string :=
  let parts := split "/" category in
  if (1 <? List.length parts)%nat
  then strip_leading_slashes (join "/" (tl parts))
  else category.

Record ModelEntry : Type := {
  source : DataSource;
  scores : list (string * Q)
}.

Record BenchmarkEntry : Type := {
  testNames : list string;
  modelData : list (string * ModelEntry)
}.

(** The binary64 number the engine holds for a number literal that denotes
    [q]: the nearest one, ties to even; a literal too large in magnitude
    gives an infinity.  The division of the numerator by the denominator is
    rounded once.  (The sign of a zero literal is not kept.) *)
Definition toNumber (q : Q) : spec_float :=
  match Qnum q with
  | Z0 => S754_zero false
  | Zpos n =>
      SFdiv 53 1024 (S754_finite false n 0) (S754_finite false (Qden q) 0)
  | Zneg n =>
      SFdiv 53 1024 (S754_finite true n 0) (S754_finite false (Qden q) 0)
  end.

(** [a + b] and [a / b] on numbers. *)
Definition numAdd (a b : spec_float) : spec_float := SFadd 53 1024 a b.

Definition numDiv (a b : spec_float) : spec_float := SFdiv 53 1024 a b.

(** A count of visited array elements as a number.  An array holds fewer
    than 2^32 elements, and binary64 counts exactly up to 2^53, so [count++]
    is kept as a [nat] and turned into a number where it is divided by. *)
Definition numOfNat (n : nat) : spec_float :=
  binary_normalize 53 1024 (Z.of_nat n) 0 false.

Inductive RowVal : Type :=
| RStr (s : string)
| RNum (x : spec_float)
| RBool (b : bool).

(** A [ModelRankingRow] is a plain object: the fixed fields and one key per
    test name. *)
Definition ModelRankingRow : Type := list (string * RowVal).

Record BenchmarkData : Type := {
  benchmarkName : string;
  models : list ModelRankingRow;
  allTests : list string
}.

(** A stable sort by insertion, for [Array.prototype.sort]. *)
Fixpoint insertSorted {A : Type} (le : A -> A -> bool) (x : A) (l : list A)
  : list A :=
  match l with
  | [] => [x]
  | y :: r => if le x y then x :: l else y :: insertSorted le x r
  end.

Definition sortBy {A : Type} (le : A -> A -> bool) (l : list A) : list A :=
  fold_right (insertSorted le) [] l.

(** The first pass, one flattened result of one source. *)
Definition rankStep (src : DataSource)
  (benchmarkMap : list (string * BenchmarkEntry)) (r : CategoryResult)
  : list (string * BenchmarkEntry) :=
  let bname := extractBenchmarkName (category r) in
  let testName := extractTestName (category r) in
  let benchmarkMap :=
    if has String.eqb bname benchmarkMap then benchmarkMap
    else set String.eqb bname {| testNames := []; modelData := [] |} benchmarkMap in
  match lookup String.eqb bname benchmarkMap with
  | None => benchmarkMap
  | Some benchmarkEntry =>
      let names := add String.eqb testName (testNames benchmarkEntry) in
      let modelKey := id src in
      let md := modelData benchmarkEntry in
      let md :=
        if has String.eqb modelKey md then md
        else set String.eqb modelKey {| source := src; scores := [] |} md in
      match lookup String.eqb modelKey md with
      | None => benchmarkMap
      | Some modelEntry =>
          let modelEntry :=
            {| source := source modelEntry;
               scores := set String.eqb testName (accuracy_mean r)
                             (scores modelEntry) |} in
          set String.eqb bname
              {| testNames := names;
                 modelData := set String.eqb modelKey modelEntry md |}
              benchmarkMap
      end
  end.

Definition rankSource (benchmarkMap : list (string * BenchmarkEntry))
  (src : DataSource) : result (list (string * BenchmarkEntry)) :=
  results <- flattenDatasetResults (rawData src) ;;
  OK (fold_left (rankStep src) results benchmarkMap).

(** [row[k] = v] for a number [v]: as [set], except that without an own
    property of that name the assignment to [__proto__] reaches the accessor
    of [Object.prototype], which ignores a primitive. *)
Definition assignCell (k : string) (v : RowVal) (row : ModelRankingRow)
  : ModelRankingRow :=
  if String.eqb k "__proto__" && negb (has String.eqb k row) then row
  else set String.eqb k v row.

(** The accumulation over the sorted test names of one model entry. *)
Definition scoreStep (scores : list (string * Q))
  (acc : ModelRankingRow * spec_float * nat) (testName : string)
  : ModelRankingRow * spec_float * nat :=
  let '(row, totalScore, count) := acc in
  match lookup String.eqb testName scores with
  | Some score =>
      (assignCell testName (RNum (toNumber score)) row,
       numAdd totalScore (toNumber score), S count)
  | None => acc
  end.

Definition rankRow (bname : string) (tests : list string)
  (modelEntry : ModelEntry) : ModelRankingRow :=
  let src := source modelEntry in
  let displayName :=
    (modelName src ++
     (if negb (String.eqb (variance src) "default")
      then " (" ++ variance src ++ ")" else EmptyString))%string in
  let row : ModelRankingRow :=
    [("key", RStr (bname ++ "-" ++ id src)%string);
     ("provider", RStr (provider src));
     ("modelName", RStr (modelName src));
     ("modelId", RStr (modelId src));
     ("displayName", RStr displayName);
     ("openSource", RBool (openSource src));
     ("isOfficial", RBool (isOfficial src));
     ("timestamp", RStr (timestamp src));
     ("average", RNum (S754_zero false))] in
  let '(row, totalScore, count) :=
    fold_left (scoreStep (scores modelEntry)) tests
              (row, S754_zero false, 0%nat) in
  set String.eqb "average"
      (RNum (if (0 <? count)%nat then numDiv totalScore (numOfNat count)
             else S754_zero false))
      row.

Definition rankBenchmark (kv : string * BenchmarkEntry) : BenchmarkData :=
  let (bname, benchmarkEntry) := kv in
  let tests := sortBy String.leb (testNames benchmarkEntry) in
  {| benchmarkName := bname;
     models := map (fun me => rankRow bname tests (snd me))
                   (modelData benchmarkEntry);
     allTests := tests |}.

Section Ranking.
(** [String.prototype.localeCompare] depends on the locale of the browser. *)
Variable localeCompare : string -> string -> Z.

Definition benchmarkData (sources : list DataSource)
  : result (list BenchmarkData) :=
  benchmarkMap <- forOf rankSource sources [] ;;
  let benchmarks := map rankBenchmark benchmarkMap in
  OK (sortBy (fun a b =>
                (localeCompare (benchmarkName a) (benchmarkName b) <=? 0)%Z)
             benchmarks).

End Ranking.


(* ================================================================== *)
(** ** Category dashboard: the per-test value maps of [categoryStats]

    Only the first pass is modelled, the one that fills [tests] and their
    [values]; the statistics pass after it reads the value maps and writes
    other fields. *)

Record Stats : Type := {
  avg : Q;
  min : Q;
  max : Q
}.

Record TestEntry : Type := {
  testName : string;
  fullPath : string;
  dataset : string;
  values : list (string * Stats)
}.

(** [results.find(r => r.file === file)], [undefined] when nothing matches;
    the callback reads [r.file] and throws on [null] and [undefined]. *)
Fixpoint findByFile (f : string) (items : list JsValue) : result JsValue :=
  match items with
  | [] => OK JUndefined
  | r :: rest =>
      rf <- getProp r "file" ;;
      match rf with
      | JStr s => if String.eqb s f then OK r else findByFile f rest
      | _ => findByFile f rest
      end
  end.

(** The first test of [tests] that satisfies [p] is replaced by its image. *)
Fixpoint updateFirst {A : Type} (p : A -> bool) (f : A -> A) (l : list A)
  : list A :=
  match l with
  | [] => []
  | x :: r => if p x then f x :: r else x :: updateFirst p f r
  end.

Section Dashboard.
(** [Math.min(...xs)] and [Math.max(...xs)] coerce their arguments to
    numbers; the coercion is left to the JavaScript runtime.  They stand for
    the calls that return a number: a [RangeError] of the spread over a very
    long array and a [NaN] result have no counterpart here, so what is
    proved of [runRange] is proved of the passes that return. *)
Variables mathMin mathMax : list JsValue -> Q.

(** The search for the individual runs of a result, with its [break]:
    [range] is the pair (min, max) to keep when no dataset has them. *)
Fixpoint runRange (datasets : list (string * JsValue)) (r : CategoryResult)
  (range : Q * Q) : result (Q * Q) :=
  match datasets with
  | [] => OK range
  | (_, ds) :: rest =>
      rs <- getPropOpt ds "results" ;;
      match rs with
      | JArr items =>
          testResult <- findByFile (file r) items ;;
          individualRuns <- getPropOpt testResult "individual_runs" ;;
          if truthy individualRuns then
            accuracies <- getProp individualRuns "accuracies" ;;
            match accuracies with
            | JArr (a :: l) => OK (mathMin (a :: l), mathMax (a :: l))
            | _ => runRange rest r range
            end
          else runRange rest r range
      | _ => runRange rest r range
      end
  end.

(** One flattened result of one source, inside one category. *)
Definition testStep (sourceId : string) (datasets : list (string * JsValue))
  (tests : list TestEntry) (r : CategoryResult) : result (list TestEntry) :=
  let name := or_else (pop (split "/" (category r))) (category r) in
  let datasetName := or_else (hd EmptyString (split "/" (category r))) "unknown" in
  let tests :=
    match find (fun t => String.eqb (testName t) name) tests with
    | Some _ => tests
    | None =>
        tests ++ [{| testName := name; fullPath := category r;
                     dataset := datasetName; values := [] |}]
    end in
  range <- runRange datasets r (accuracy_mean r, accuracy_mean r) ;;
  OK (updateFirst (fun t => String.eqb (testName t) name)
        (fun t =>
           {| testName := testName t; fullPath := fullPath t;
              dataset := dataset t;
              values := set String.eqb sourceId
                          {| avg := accuracy_mean r;
                             min := fst range; max := snd range |}
                          (values t) |})
        tests).

(** One bucket of [groupByCategory] for one source. *)
Definition categoryStep (sourceId : string) (datasets : list (string * JsValue))
  (categories : list (CategoryKey * list TestEntry))
  (bucket : CategoryKey * list CategoryResult)
  : result (list (CategoryKey * list TestEntry)) :=
  let (categoryName, categoryResults) := bucket in
  let categories :=
    if has CategoryKey_eqb categoryName categories then categories
    else set CategoryKey_eqb categoryName [] categories in
  match lookup CategoryKey_eqb categoryName categories with
  | None => OK categories
  | Some tests =>
      tests <- forOf (testStep sourceId datasets) categoryResults tests ;;
      OK (set CategoryKey_eqb categoryName tests categories)
  end.

Definition dashboardSource (categories : list (CategoryKey * list TestEntry))
  (src : DataSource) : result (list (CategoryKey * list TestEntry)) :=
  let sourceId := getSourceIdentifier src in
  results <- flattenDatasetResults (rawData src) ;;
  let grouped := groupByCategory results in
  dr <- getPropOpt (rawData src) "dataset_results" ;;
  let datasetResults := if truthy dr then dr else JObj [] in
  datasets <- objectEntries datasetResults ;;
  forOf (categoryStep sourceId datasets) grouped categories.

Definition categoryTests (sources : list DataSource)
  : result (list (CategoryKey * list TestEntry)) :=
  forOf dashboardSource sources [].

End Dashboard.

(** Reading the value map: category, then test name, then source key. *)
Definition testValue (categories : list (CategoryKey * list TestEntry))
  (c : CategoryKey) (name sourceId : string) : option Stats :=
  match lookup CategoryKey_eqb c categories with
  | None => None
  | Some tests =>
      match find (fun t => String.eqb (testName t) name) tests with
      | None => None
      | Some t => lookup String.eqb sourceId (values t)
      end
  end.

(* ================================================================== *)
(** ** Auxiliary notions used in the statements *)

(** The input ends with a slash. *)
Fixpoint ends_slash (s : string) : bool :=
  match s with
  | EmptyString => false
  | String c EmptyString => Ascii.eqb c "/"
  | String _ r => ends_slash r
  end.

(** [String.prototype.endsWith]: some tail of [s] is [a]. *)
Fixpoint endsWith (s a : string) : bool :=
  String.eqb s a ||
  match s with
  | EmptyString => false
  | String _ r => endsWith r a
  end.

(** [s] without its last [n] units. *)
Definition dropLast (n : nat) (s : string) : string :=
  substring 0 (String.length s - n) s.

(** The first alternative that ends [s] is cut off; [s] is kept when there
    is none. *)
Definition chop (alts : list string) (s : string) : string :=
  match find (endsWith s) alts with
  | Some a => dropLast (String.length a) s
  | None => s
  end.

(** The Category Extractor as the specification words it: only the final
    path segment is kept; a trailing [_test] with an extension is removed,
    or else, when there is none, a bare trailing extension. *)
Definition extractCategory_spec (filename : string) : string :=
  let name := pop (split "/" filename) in
  if existsb (endsWith name) test_suffixes
  then chop test_suffixes name
  else chop bare_suffixes name.

(** No alternative is a proper tail of another one. *)
Definition tail_free (alts : list string) : bool :=
  forallb (fun a =>
    forallb (fun b => implb (endsWith a b) (String.eqb a b)) alts) alts.

(** What one entry of a [results] array contributes to the output: one
    record when it is an object with a string [file] and a number
    [accuracy_mean], nothing otherwise. *)
Definition entryEmits (normalizedDataset : string) (entry : JsValue)
  : list CategoryResult :=
  match entry with
  | JObj props =>
      match lookup String.eqb "file" props,
            lookup String.eqb "accuracy_mean" props with
      | Some (JStr f), Some (JNum a) =>
          [{| category :=
                normalizedDataset ++ "/"
                ++ legacyOverride normalizedDataset (extractCategory f);
              file := f;
              accuracy_mean := a;
              accuracy_std :=
                match lookup String.eqb "accuracy_std" props with
                | Some x => x
                | None => JUndefined
                end |}]
      | _, _ => []
      end
  | _ => []
  end.

(** What one entry of [dataset_results] contributes. *)
Definition datasetEmits (kv : string * JsValue) : list CategoryResult :=
  match snd kv with
  | JObj props =>
      match lookup String.eqb "results" props with
      | Some (JArr items) =>
          flat_map (entryEmits (normalizeDatasetKey (fst kv))) items
      | _ => []
      end
  | _ => []
  end.

(** [null] and [undefined], on which a property read throws. *)
Definition nullish (v : JsValue) : bool :=
  match v with
  | JUndefined | JNull => true
  | _ => false
  end.

(** The [results] array of a dataset value, when it has one. *)
Definition resultsArray (v : JsValue) : option (list JsValue) :=
  match v with
  | JObj props =>
      match lookup String.eqb "results" props with
      | Some (JArr items) => Some items
      | _ => None
      end
  | _ => None
  end.

(** The entries of [dataset_results] the flattener iterates over; none when
    the document is not an object or the field is missing or falsy. *)
Definition datasetEntries (rawData : JsValue) : list (string * JsValue) :=
  match rawData with
  | JObj props =>
      match lookup String.eqb "dataset_results" props with
      | Some dr =>
          if truthy dr then
            match objectEntries dr with
            | OK entries => entries
            | Throw _ => []
            end
          else []
      | None => []
      end
  | _ => []
  end.

(** The object has an own property [k]. *)
Definition hasOwn (v : JsValue) (k : string) : bool :=
  match v with
  | JObj props => has String.eqb k props
  | _ => false
  end.

(** No [results] array among the datasets holds [null] or [undefined]. *)
Definition entriesReadable (rawData : JsValue) : Prop :=
  Forall (fun kv => forall items,
            resultsArray (snd kv) = Some items -> existsb nullish items = false)
         (datasetEntries rawData).

(** The smallest document with a [null] entry in a [results] array:
    [{"dataset_results": {"d": {"results": [null]}}}]. *)
Definition nullEntryDocument : JsValue :=
  JObj [("dataset_results", JObj [("d", JObj [("results", JArr [JNull])])])].

(** Builders for the documents of the examples: an entry
    [{"file": f, "accuracy_mean": a}] and a document
    [{"dataset_results": {k: {"results": [...]}, ...}}]. *)
Definition entryOf (f : string) (a : Q) : JsValue :=
  JObj [("file", JStr f); ("accuracy_mean", JNum a)].

Definition documentOf (datasets : list (string * list JsValue)) : JsValue :=
  JObj [("dataset_results",
         JObj (map (fun d => (fst d, JObj [("results", JArr (snd d))])) datasets))].

(** The rule table of the Subject Classifier as the specification words it:
    the keyword groups in evaluation order, each with its tag. *)
Definition ruleTable : list (list string * CategoryKey) :=
  [ (["computer"; "machine_learning"; "security"], computerScience);
    (["math"; "algebra"; "calculus"; "geometry"; "statistics"; "trigonometry"],
     mathematics);
    (["medicine"; "nutrition"; "anatomy"; "clinical"; "virology"; "genetics";
      "pharmacology"; "veterinary"; "dentistry"; "pharmacy"; "optometry";
      "occupational"; "therapy"; "psychological"; "pathology"; "medical"],
     medicineHealth);
    (["physics"; "chemistry"; "biology"; "astronomy"; "science"; "medical"],
     science);
    (["law"; "legal"; "jurisprudence"; "government"; "politics"; "foreign";
      "policy"; "politic"; "national"; "protection"], lawGovernment);
    (["ttqav2"; "history"; "geography"; "philosophy"; "logic"; "logical";
      "reasoning"; "religions"; "principles"; "moral"], humanitiesPhilosophy);
    (["business"; "economics"; "marketing"; "accounting"; "management";
      "finance"; "financial"; "analysis"; "auditing"; "taxation"; "insurance";
      "trade"; "real"; "estate"; "trust"; "public"; "relations"; "money";
      "laundering"; "econometrics"; "humanities"], businessEconomics);
    (["psychology"; "sociology"; "behavior"; "sexuality"; "aging"; "social";
      "studies"], socialSciences);
    (["education"; "profession"], education);
    (["mechanical"; "technical"; "electrical"; "engineering"],
     engineeringTechnical);
    (["music"; "culinary"; "physical"; "nautical"; "agriculture"; "fire"],
     vocationalArts);
    (["chinese"; "language"; "literature"; "taiwanese"; "hokkien"],
     languagesLiterature);
    (["miscellaneous"; "design"; "global"; "facts"], miscellaneous) ].

(** A group matches when one of its keywords occurs in the name. *)
Definition groupMatches (name : string) (g : list string * CategoryKey) : bool :=
  existsb (includes name) (fst g).

(** First matching group wins; [other] when no group matches. *)
Definition classify (rules : list (list string * CategoryKey)) (name : string)
  : CategoryKey :=
  match find (groupMatches name) rules with
  | Some g => snd g
  | None => other
  end.

(** The results the classifier sends to bucket [k]. *)
Definition inBucket (k : CategoryKey) (r : CategoryResult) : bool :=
  CategoryKey_eqb (categorizeTest (category r)) k.

(** A bucket after more results have been pushed onto it. *)
Definition pushed {A : Type} (bucket : option (list A)) (l : list A)
  : option (list A) :=
  match l with
  | [] => bucket
  | _ => Some (match bucket with Some b => b | None => [] end ++ l)
  end.

(** The writes of the Pivot Builder in the order they happen: the label of
    the source with each of its flattened results, source after source. *)
Definition pivotEvents (sources : list DataSource)
  (flattened : list (list CategoryResult)) : list (string * CategoryResult) :=
  concat (map (fun sr => map (pair (sourceLabel (fst sr))) (snd sr))
              (combine sources flattened)).

(** The value of the last write at the coordinate (category [c], label
    [lbl]), if any. *)
Fixpoint lastWrite (c lbl : string) (events : list (string * CategoryResult))
  : option Q :=
  match events with
  | [] => None
  | (l, r) :: rest =>
      match lastWrite c lbl rest with
      | Some v => Some v
      | None =>
          if String.eqb (category r) c && String.eqb l lbl
          then Some (accuracy_mean r)
          else None
      end
  end.

(** A cell of the map under construction. *)
Definition cellOf (categoryMap : list (string * PivotRow)) (c lbl : string)
  : option PivotVal :=
  match lookup String.eqb c categoryMap with
  | Some row => lookup String.eqb lbl row
  | None => None
  end.

(** Every row carries its key in its [category] field. *)
Definition rowsKeyed (categoryMap : list (string * PivotRow)) : Prop :=
  forall k row, In (k, row) categoryMap ->
                lookup String.eqb "category" row = Some (PStr k).

(** The flattened results of the sources, one list per source. *)
Definition flattensTo (sources : list DataSource)
  (flattened : list (list CategoryResult)) : Prop :=
  Forall2 (fun s rs => flattenDatasetResults (rawData s) = OK rs)
          sources flattened.

(** One write of the Pivot Builder. *)
Definition pivotEvent (categoryMap : list (string * PivotRow))
  (e : string * CategoryResult) : list (string * PivotRow) :=
  pivotStep (fst e) categoryMap (snd e).

(** A source for the examples; the fields left out of the arguments play no
    part in the functions modelled here. *)
Definition sourceOf (i name var ts : string) (official : bool) (raw : JsValue)
  : DataSource :=
  {| id := i; label := name; provider := "provider"; modelName := name;
     modelId := EmptyString; variance := var; openSource := false; timestamp := ts;
     isOfficial := official; data := JNull; rawData := raw |}.



(** The steps of the first pass of the Ranking Aggregator in the order they
    happen: each source with each of its flattened results. *)
Definition rankEvents (sources : list DataSource)
  (flattened : list (list CategoryResult)) : list (DataSource * CategoryResult) :=
  concat (map (fun sr => map (pair (fst sr)) (snd sr))
              (combine sources flattened)).

Definition rankEvent (benchmarkMap : list (string * BenchmarkEntry))
  (e : DataSource * CategoryResult) : list (string * BenchmarkEntry) :=
  rankStep (fst e) benchmarkMap (snd e).

(** The event is a result of the source with id [i] in benchmark [b]. *)
Definition rankHits (b i : string) (e : DataSource * CategoryResult) : bool :=
  String.eqb (extractBenchmarkName (category (snd e))) b
  && String.eqb (id (fst e)) i.

Definition orEmpty {A : Type} (o : option (list A)) : list A :=
  match o with Some l => l | None => [] end.

(** The test scores present for the source with id [i] in benchmark [b]:
    [None] when the source has no result there, otherwise its scores by test
    name, a later result of the same test name replacing an earlier one. *)
Definition presentScores (events : list (DataSource * CategoryResult))
  (b i : string) : option (list (string * Q)) :=
  fold_left
    (fun sc e =>
       if rankHits b i e
       then Some (set String.eqb (extractTestName (category (snd e)))
                      (accuracy_mean (snd e)) (orEmpty sc))
       else sc)
    events None.

(** The scores held by the map under construction. *)
Definition scoresAt (benchmarkMap : list (string * BenchmarkEntry))
  (b i : string) : option (list (string * Q)) :=
  match lookup String.eqb b benchmarkMap with
  | Some be =>
      match lookup String.eqb i (modelData be) with
      | Some me => Some (scores me)
      | None => None
      end
  | None => None
  end.


Definition goodModel (names : list string) (me : ModelEntry) : Prop :=
  scores me <> [] /\ NoDup (map fst (scores me))
  /\ incl (map fst (scores me)) names.

Definition goodBench (be : BenchmarkEntry) : Prop :=
  NoDup (testNames be) /\ NoDup (map fst (modelData be))
  /\ forall i me, In (i, me) (modelData be) -> goodModel (testNames be) me.

Definition goodMap (m : list (string * BenchmarkEntry)) : Prop :=
  NoDup (map fst m) /\ forall b be, In (b, be) m -> goodBench be.

(** One step of the first pass, written as two nested writes. *)
Definition rankStepWrites (src : DataSource)
  (m : list (string * BenchmarkEntry)) (r : CategoryResult)
  : list (string * BenchmarkEntry) :=
  let b := extractBenchmarkName (category r) in
  let be := match lookup String.eqb b m with
            | Some be => be
            | None => {| testNames := []; modelData := [] |}
            end in
  let me := match lookup String.eqb (id src) (modelData be) with
            | Some me => me
            | None => {| source := src; scores := [] |}
            end in
  set String.eqb b
      {| testNames := add String.eqb (extractTestName (category r)) (testNames be);
         modelData :=
           set String.eqb (id src)
               {| source := source me;
                  scores := set String.eqb (extractTestName (category r))
                                (accuracy_mean r) (scores me) |}
               (modelData be) |}
      m.

(** The sources of the ranking example: A has t1 = 0.8 and t2 = 0.6 in
    benchmark "bench", B has only t1 = 0.4 there, and C has no test. *)
Definition rankingA : DataSource :=
  sourceOf "a" "A" "default" "2024" false
    (documentOf [("bench", [entryOf "t1.json" (8 # 10); entryOf "t2.json" (6 # 10)])]).

Definition rankingB : DataSource :=
  sourceOf "b" "B" "default" "2024" false
    (documentOf [("bench", [entryOf "t1.json" (4 # 10)])]).


(** The key under which the dashboard files a result within its category:
    the last path segment of its category path. *)
Definition testNameOf (r : CategoryResult) : string :=
  or_else (pop (split "/" (category r))) (category r).

(** The entry of source key [sourceId] in the value map of test [name]. *)
Definition valueAt (tests : list TestEntry) (name sourceId : string)
  : option Stats :=
  match find (fun t => String.eqb (testName t) name) tests with
  | Some t => lookup String.eqb sourceId (values t)
  | None => None
  end.

(** The datasets the dashboard searches for individual runs. *)
Definition runDatasets (rawData : JsValue) : result (list (string * JsValue)) :=
  dr <- getPropOpt rawData "dataset_results" ;;
  objectEntries (if truthy dr then dr else JObj []).

(** The documents of the dashboard example: two sources with different ids
    and timestamps that share model name and variance; the second one has
    individual runs for its test. *)
Definition dashboardFirst : DataSource :=
  sourceOf "run-1" "gpt" "default" "2024-01" false
    (documentOf [("cais__mmlu", [entryOf "algebra_test.json" (1 # 4)])]).

Definition dashboardRuns : list JsValue := [JNum (7 # 10); JNum (8 # 10)].

Definition dashboardSecond : DataSource :=
  sourceOf "run-2" "gpt" "default" "2024-02" true
    (documentOf
       [("cais__mmlu",
         [JObj [("file", JStr "algebra_test.json");
                ("accuracy_mean", JNum (3 # 4));
                ("individual_runs", JObj [("accuracies", JArr dashboardRuns)])]])]).

(** The last unit of a string, if any. *)
Fixpoint lastUnit (s : string) : option ascii :=
  match s with
  | EmptyString => None
  | String c EmptyString => Some c
  | String _ r => lastUnit r
  end.

(** The rule table without the keywords that can never decide: "medical" in
    the science group (the medicine group is tried first), "politics" (every
    occurrence holds "politic") and "logical" (every occurrence holds
    "logic"). *)
Definition ruleTableLean : list (list string * CategoryKey) :=
  [ (["computer"; "machine_learning"; "security"], computerScience);
    (["math"; "algebra"; "calculus"; "geometry"; "statistics"; "trigonometry"],
     mathematics);
    (["medicine"; "nutrition"; "anatomy"; "clinical"; "virology"; "genetics";
      "pharmacology"; "veterinary"; "dentistry"; "pharmacy"; "optometry";
      "occupational"; "therapy"; "psychological"; "pathology"; "medical"],
     medicineHealth);
    (["physics"; "chemistry"; "biology"; "astronomy"; "science"], science);
    (["law"; "legal"; "jurisprudence"; "government"; "foreign";
      "policy"; "politic"; "national"; "protection"], lawGovernment);
    (["ttqav2"; "history"; "geography"; "philosophy"; "logic";
      "reasoning"; "religions"; "principles"; "moral"], humanitiesPhilosophy);
    (["business"; "economics"; "marketing"; "accounting"; "management";
      "finance"; "financial"; "analysis"; "auditing"; "taxation"; "insurance";
      "trade"; "real"; "estate"; "trust"; "public"; "relations"; "money";
      "laundering"; "econometrics"; "humanities"], businessEconomics);
    (["psychology"; "sociology"; "behavior"; "sexuality"; "aging"; "social";
      "studies"], socialSciences);
    (["education"; "profession"], education);
    (["mechanical"; "technical"; "electrical"; "engineering"],
     engineeringTechnical);
    (["music"; "culinary"; "physical"; "nautical"; "agriculture"; "fire"],
     vocationalArts);
    (["chinese"; "language"; "literature"; "taiwanese"; "hokkien"],
     languagesLiterature);
    (["miscellaneous"; "design"; "global"; "facts"], miscellaneous) ].

(** The distinct elements of a list in the order of their first occurrence. *)
Definition firstSeen {A : Type} (dec : forall x y : A, {x = y} + {x <> y})
  (l : list A) : list A :=
  rev (nodup dec (rev l)).

Definition CategoryKey_dec (a b : CategoryKey) : {a = b} + {a <> b}.
Proof. decide equality. Defined.

(** The test names held for benchmark [b] by the map under construction. *)
Definition namesAt (benchmarkMap : list (string * BenchmarkEntry)) (b : string)
  : list string :=
  match lookup String.eqb b benchmarkMap with
  | Some be => testNames be
  | None => []
  end.

(** The test names of the results filed under benchmark [b], in the order of
    the steps. *)
Definition benchmarkTests (events : list (DataSource * CategoryResult))
  (b : string) : list string :=
  map (fun e => extractTestName (category (snd e)))
      (filter (fun e => String.eqb (extractBenchmarkName (category (snd e))) b)
              events).

(** The keys every ranking row starts with. *)
Definition fixedFields : list string :=
  ["key"; "provider"; "modelName"; "modelId"; "displayName"; "openSource";
   "isOfficial"; "timestamp"; "average"].

(** The map built by the first pass of the Ranking Aggregator. *)
Definition rankMap (events : list (DataSource * CategoryResult))
  : list (string * BenchmarkEntry) :=
  fold_left rankEvent events [].

(** The test entry filed under [name]. *)
Definition testNamed (name : string) (t : TestEntry) : bool :=
  String.eqb (testName t) name.

(** The tests of the later state keep what the earlier state says of each
    test: its name, its full path and its dataset. *)
Definition testsKept (tests tests' : list TestEntry) : Prop :=
  forall name t,
    find (testNamed name) tests = Some t ->
    exists t',
      find (testNamed name) tests' = Some t'
      /\ fullPath t' = fullPath t /\ dataset t' = dataset t.

Definition categoriesKept (cats cats' : list (CategoryKey * list TestEntry))
  : Prop :=
  forall c tests,
    lookup CategoryKey_eqb c cats = Some tests ->
    exists tests',
      lookup CategoryKey_eqb c cats' = Some tests' /\ testsKept tests tests'.

(** In every category the test names are pairwise distinct. *)
Definition testsDistinct (cats : list (CategoryKey * list TestEntry)) : Prop :=
  forall c tests,
    lookup CategoryKey_eqb c cats = Some tests -> NoDup (map testName tests).

(** A third source for the dashboard examples: another dataset with a test
    of the same last path segment. *)
Definition dashboardOther : DataSource :=
  sourceOf "run-3" "llama" "default" "2024-03" false
    (documentOf [("tmmluplus", [entryOf "algebra_test.json" (1 # 5)])]).

(** The value maps after [dashboardFirst], and after [dashboardOther] as
    well, with the constant functions 0 and 1 for the minimum and maximum
    of individual runs (there are none in these documents). *)
Definition dashboardAfterFirst : list (CategoryKey * list TestEntry) :=
  [(mathematics,
    [{| testName := "algebra"; fullPath := "mmlu/algebra"; dataset := "mmlu";
        values := [("gpt", {| avg := 1 # 4; min := 1 # 4; max := 1 # 4 |})] |}])].

Definition dashboardAfterOther : list (CategoryKey * list TestEntry) :=
  [(mathematics,
    [{| testName := "algebra"; fullPath := "mmlu/algebra"; dataset := "mmlu";
        values := [("gpt", {| avg := 1 # 4; min := 1 # 4; max := 1 # 4 |});
                   ("llama", {| avg := 1 # 5; min := 1 # 5; max := 1 # 5 |})] |}])].

(* ------------------------------------------------------------------ *)
(** ** CompactDashboard: the benchmark filter *)

(** [s.has(k)] and [s.delete(k)] on a [Set] of strings. *)
Definition setHas (k : string) (s : list string) : bool :=
  existsb (String.eqb k) s.

Definition setDelete (k : string) (s : list string) : list string :=
  filter (fun x => negb (String.eqb k x)) s.

(** [r.category.split('/')[0]]. *)
Definition firstSegment (r : CategoryResult) : string :=
  hd EmptyString (split "/" (category r)).

Definition availableSource (benchmarks : list string) (src : DataSource)
  : result (list string) :=
  results <- flattenDatasetResults (rawData src) ;;
  OK (fold_left (fun bs r => add String.eqb (firstSegment r) bs) results benchmarks).

(** [availableBenchmarks]: the first path segments of all flattened
    results, collected in a [Set] and sorted. *)
Definition availableBenchmarks (sources : list DataSource)
  : result (list string) :=
  benchmarks <- forOf availableSource sources [] ;;
  OK (sortBy String.leb benchmarks).

Definition activeBenchmarks (available unselected : list string) : list string :=
  filter (fun b => negb (setHas b unselected)) available.

(** The updater of [toggleBenchmark], on a copy of the previous set. *)
Definition toggleBenchmark (benchmark : string) (prev : list string)
  : list string :=
  let newSet := prev in
  if setHas benchmark newSet then setDelete benchmark newSet
  else add String.eqb benchmark newSet.

(* ------------------------------------------------------------------ *)
(** ** Home: the list of loaded sources and the selection *)

(** [new Set(xs)]. *)
Definition setOf (xs : list string) : list string :=
  fold_left (fun s x => add String.eqb x s) xs [].

(** The updater passed to [setSources] after the official results are
    loaded: sources whose id is already present are left out. *)
Definition addNewSources (validSources prev : list DataSource)
  : list DataSource :=
  let existingIds := setOf (map id prev) in
  let newSources :=
    filter (fun s => negb (setHas (id s) existingIds)) validSources in
  prev ++ newSources.

(** [selectedSourceIds.includes(s.id)] and the sources it keeps. *)
Definition selectedSources (sources : list DataSource)
  (selectedSourceIds : list string) : list DataSource :=
  filter (fun s => existsb (String.eqb (id s)) selectedSourceIds) sources.

(** [pivotData]: nothing for an empty selection. *)
Definition pivotData (sources : list DataSource)
  (selectedSourceIds : list string) : result (list PivotRow) :=
  match selectedSourceIds with
  | [] => OK []
  | _ => buildPivotTable (selectedSources sources selectedSourceIds)
  end.

(** ControlsPanel: the new selection each handler hands to
    [onSourceSelectionChange]. *)
Definition handleSelectAll (sources : list DataSource) : list string :=
  map id sources.

Definition handleClearAll : list string := [].

Definition handleToggleSource (selectedSourceIds : list string)
  (i : string) (checked : bool) : list string :=
  if checked then selectedSourceIds ++ [i]
  else filter (fun sid => negb (String.eqb sid i)) selectedSourceIds.

(** The entries of [items] whose [file] is exactly [f] and that carry a
    non-empty [individual_runs.accuracies] array [accs]. *)
Definition hasRuns (f : string) (accs : list JsValue) (entry : JsValue) : Prop :=
  getProp entry "file" = OK (JStr f)
  /\ exists runs,
       getPropOpt entry "individual_runs" = OK runs
       /\ truthy runs = true
       /\ getProp runs "accuracies" = OK (JArr accs)
       /\ accs <> [].

(** ** Column visibility (BenchmarkRankingTable)

    [visibleColumns] is a plain object from column names to booleans.  Only
    reads by key and spreads are made of it, so its own properties are kept
    as an association list. *)

(** [o[k] = v] for a boolean [v]: as [set], except that without an own
    property of that name the assignment to [__proto__] reaches the accessor
    of [Object.prototype], which ignores a primitive. *)
Definition assign (k : string) (v : bool) (o : list (string * bool))
  : list (string * bool) :=
  if String.eqb k "__proto__" && negb (has String.eqb k o) then o
  else set String.eqb k v o.

(** [{...prev, ...updates}]: the own properties of [updates] are defined over
    those of [prev]. *)
Definition spread (prev updates : list (string * bool)) : list (string * bool) :=
  fold_left (fun o kv => set String.eqb (fst kv) (snd kv) o) updates prev.

(** [visibleColumns[test] !== false]: only an own [false] hides a column;
    what is absent or inherited is not [false]. *)
Definition isVisible (visibleColumns : list (string * bool)) (test : string)
  : bool :=
  match lookup String.eqb test visibleColumns with
  | Some false => false
  | _ => true
  end.

Definition initialColumns (benchmarkData : list BenchmarkData)
  : list (string * bool) :=
  fold_left
    (fun allColumns benchmark =>
       fold_left (fun allColumns test => assign test true allColumns)
                 (allTests benchmark) allColumns)
    benchmarkData
    [("provider", true); ("displayName", true); ("average", true)].

Definition initVisibleColumns (benchmarkData : list BenchmarkData)
  (prev : list (string * bool)) : list (string * bool) :=
  match prev with
  | [] => initialColumns benchmarkData
  | _ => prev
  end.

Definition handleBatchVisibilityChange (updates prev : list (string * bool))
  : list (string * bool) :=
  spread prev updates.

Definition handleShowAll (allTests : list string) (prev : list (string * bool))
  : list (string * bool) :=
  let updates := fold_left (fun updates test => assign test true updates)
                           allTests [] in
  spread prev updates.

Definition handleHideAll (allTests : list string) (prev : list (string * bool))
  : list (string * bool) :=
  let updates := fold_left (fun updates test => assign test false updates)
                           allTests [] in
  spread prev updates.

Definition checkedKeys (allTests : list string)
  (visibleColumns : list (string * bool)) : list string :=
  filter (fun test => isVisible visibleColumns test) allTests.

(** The updates [handleCheck] hands to [onVisibilityChange]. *)
Definition handleCheck (allTests keys : list string) : list (string * bool) :=
  let checkedSet := setOf keys in
  fold_left (fun updates test => assign test (setHas test checkedSet) updates)
            allTests [].

(** The test columns of [generateColumns]. *)
Definition testColumns (allTests : list string)
  (visibleColumns : list (string * bool)) : list string :=
  filter (fun testName => isVisible visibleColumns testName) allTests.

(** ** The column tree (ColumnVisibilityDropdown) *)





Section ColumnTree.
Variable localeCompare : string -> string -> Z.


End ColumnTree.




(** ** The results behind the radar chart (CompactDashboard) *)

(** One element of [allResults]: a flattened result of a source, under the
    subject tag of its bucket.  The fields [category] and [source] are
    [pointCategory] and [sourceName] here. *)
Record RadarPoint : Type := {
  pointCategory : CategoryKey;
  accuracy : Q;
  sourceName : string;
  testId : string
}.

(** The flattened results of a source whose benchmark is active. *)
Definition activeResults (activeBenchmarksSet : list string) (src : DataSource)
  : result (list CategoryResult) :=
  results <- flattenDatasetResults (rawData src) ;;
  OK (filter (fun r => setHas (firstSegment r) activeBenchmarksSet) results).

(** The body of the loop over the sources. *)
Definition pointsOfSource (activeBenchmarksSet : list string)
  (allResults : list RadarPoint) (src : DataSource) : result (list RadarPoint) :=
  results <- activeResults activeBenchmarksSet src ;;
  let grouped := groupByCategory results in
  OK (fold_left
        (fun allResults entry =>
           fold_left
             (fun allResults result =>
                allResults ++ [{| pointCategory := fst entry;
                                  accuracy := accuracy_mean result;
                                  sourceName := modelName src;
                                  testId := category result |}])
             (snd entry) allResults)
        grouped allResults).

Definition allResults (sources : list DataSource) (activeBenchmarks : list string)
  : result (list RadarPoint) :=
  let activeBenchmarksSet := setOf activeBenchmarks in
  forOf (pointsOfSource activeBenchmarksSet) sources [].

(** The point of a result of a source. *)
Definition pointOf (src : DataSource) (r : CategoryResult) : RadarPoint :=
  {| pointCategory := categorizeTest (category r);
     accuracy := accuracy_mean r;
     sourceName := modelName src;
     testId := category r |}.

(** The points of the sources, source after source, for the results that
    pass [keep]. *)
Definition pointsKept (keep : CategoryResult -> bool)
  (sources : list DataSource) (flattened : list (list CategoryResult))
  : list RadarPoint :=
  flat_map (fun sr => map (pointOf (fst sr)) (filter keep (snd sr)))
           (combine sources flattened).

(** ** The ranking's arithmetic *)




(** Every model entry is filed under the id of the source it holds. *)
Definition ownedMap (m : list (string * BenchmarkEntry)) : Prop :=
  forall b be i me,
    In (b, be) m -> In (i, me) (modelData be) -> id (source me) = i.

(** The fixed fields of the row of a source, as the object literal sets
    them. *)
Definition rowFields (bname : string) (src : DataSource) : ModelRankingRow :=
  [("key", RStr (bname ++ "-" ++ id src)%string);
   ("provider", RStr (provider src));
   ("modelName", RStr (modelName src));
   ("modelId", RStr (modelId src));
   ("displayName",
    RStr (modelName src ++
          (if negb (String.eqb (variance src) "default")
           then " (" ++ variance src ++ ")" else EmptyString))%string);
   ("openSource", RBool (openSource src));
   ("isOfficial", RBool (isOfficial src));
   ("timestamp", RStr (timestamp src));
   ("average", RNum (S754_zero false))].



(* ================================================================== *)
(** * Properties *)

(** ** Strings *)

Section SplitFacts.
Variable sep : string.
Hypothesis sep_nonempty : sep <> EmptyString.

Lemma startsWith_empty_input : startsWith EmptyString sep = false.
Proof. unfold startsWith. destruct sep; [congruence | reflexivity]. Qed.

Lemma includes_cons (c : ascii) (r : string) :
  includes (String c r) sep = startsWith (String c r) sep || includes r sep.
Proof. reflexivity. Qed.

(** An input without the separator is its own single segment. *)
Lemma split_go_absent (s : string) :
  includes s sep = false -> split_go sep s 0 = (s, []).
Proof.
  induction s as [|c r IH]; intro H; [reflexivity|].
  rewrite includes_cons in H. apply orb_false_iff in H as [Hp Hr].
  cbn [split_go]. rewrite Hp, (IH Hr). reflexivity.
Qed.

Lemma split_absent (s : string) : includes s sep = false -> split sep s = [s].
Proof. intro H. unfold split. now rewrite split_go_absent. Qed.

(** A single segment means that the separator does not occur. *)
Lemma split_go_single (s h : string) :
  split_go sep s 0 = (h, []) -> h = s /\ includes s sep = false.
Proof.
  revert h. induction s as [|c r IH]; intros h H.
  - cbn in H. inversion H. split; [reflexivity|].
    cbn. now rewrite startsWith_empty_input.
  - cbn [split_go] in H. destruct (startsWith (String c r) sep) eqn:Hp.
    + destruct (split_go sep r (String.length sep - 1)); discriminate.
    + destruct (split_go sep r 0) as [h' t'] eqn:E. inversion H; subst.
      destruct (IH h' eq_refl) as [-> Hr]. split; [reflexivity|].
      rewrite includes_cons, Hp, Hr. reflexivity.
Qed.

(** The separator does not occur in the last segment. *)
Lemma split_go_last (s : string) : forall skip h t,
  split_go sep s skip = (h, t) -> includes (last (h :: t) EmptyString) sep = false.
Proof.
  induction s as [|c r IH]; intros skip h t H.
  - cbn in H. inversion H. cbn. now rewrite startsWith_empty_input.
  - cbn [split_go] in H. destruct skip as [|k].
    + destruct (startsWith (String c r) sep) eqn:Hp.
      * destruct (split_go sep r (String.length sep - 1)) as [h' t'] eqn:E.
        inversion H; subst. apply (IH _ _ _ E).
      * destruct (split_go sep r 0) as [h' t'] eqn:E. inversion H; subst.
        destruct t as [|x t''].
        -- destruct (split_go_single _ _ E) as [-> Hr].
           cbn [last]. rewrite includes_cons, Hp, Hr. reflexivity.
        -- apply (IH _ _ _ E).
    + apply (IH _ _ _ H).
Qed.

Lemma pop_split_clean (s : string) : includes (pop (split sep s)) sep = false.
Proof.
  unfold pop, split. destruct (split_go sep s 0) as [h t] eqn:E.
  apply (split_go_last _ _ _ _ E).
Qed.

End SplitFacts.

Lemma includes_slash_cons (c : ascii) (r : string) :
  includes (String c r) "/" = Ascii.eqb "/" c || includes r "/".
Proof.
  cbn [includes]. unfold startsWith. cbn [drop_prefix].
  destruct (Ascii.eqb "/" c); reflexivity.
Qed.

(** The segments of an input without slash have no slash. *)
Lemma split_go_noslash (sep s : string) : forall skip h t,
  includes s "/" = false -> split_go sep s skip = (h, t) ->
  Forall (fun x => includes x "/" = false) (h :: t).
Proof.
  induction s as [|c r IH]; intros skip h t Hs H.
  - cbn in H. inversion H. constructor; [reflexivity | constructor].
  - rewrite includes_slash_cons in Hs. apply orb_false_iff in Hs as [Hc Hr].
    cbn [split_go] in H. destruct skip as [|k].
    + destruct (startsWith (String c r) sep).
      * destruct (split_go sep r (String.length sep - 1)) as [h' t'] eqn:E.
        inversion H; subst. constructor; [reflexivity|]. apply (IH _ _ _ Hr E).
      * destruct (split_go sep r 0) as [h' t'] eqn:E. inversion H; subst.
        pose proof (IH _ _ _ Hr E) as F. inversion F; subst.
        constructor; [|assumption].
        rewrite includes_slash_cons, Hc. assumption.
    + apply (IH _ _ _ Hr H).
Qed.

Lemma last_cons_In {A : Type} (l : list A) (x d : A) : In (last (x :: l) d) (x :: l).
Proof.
  revert x. induction l as [|y l IH]; intro x; [left; reflexivity|].
  right. apply (IH y).
Qed.

Lemma pop_split_noslash (sep s : string) :
  includes s "/" = false -> includes (pop (split sep s)) "/" = false.
Proof.
  intro Hs. unfold pop, split. destruct (split_go sep s 0) as [h t] eqn:E.
  pose proof (split_go_noslash _ _ _ _ _ Hs E) as F.
  rewrite Forall_forall in F. apply F. apply last_cons_In.
Qed.

Lemma strip_trailing_empty (s : string) :
  strip_trailing_slashes s = EmptyString -> all_slashes s = true.
Proof.
  destruct s as [|c r]; [reflexivity|]. cbn [strip_trailing_slashes].
  destruct (all_slashes (String c r)); [reflexivity | discriminate].
Qed.

Lemma strip_trailing_no_end (s : string) :
  ends_slash (strip_trailing_slashes s) = false.
Proof.
  induction s as [|c r IH]; [reflexivity|].
  cbn [strip_trailing_slashes].
  destruct (all_slashes (String c r)) eqn:E; [reflexivity|].
  cbn [ends_slash]. destruct (strip_trailing_slashes r) eqn:Er; [|exact IH].
  apply strip_trailing_empty in Er. cbn [all_slashes] in E.
  rewrite Er, andb_true_r in E. exact E.
Qed.

Lemma strip_trailing_noslash (s : string) :
  includes s "/" = false -> strip_trailing_slashes s = s.
Proof.
  induction s as [|c r IH]; intro H; [reflexivity|].
  rewrite includes_slash_cons in H. apply orb_false_iff in H as [Hc Hr].
  cbn [strip_trailing_slashes all_slashes].
  rewrite Ascii.eqb_sym, Hc. cbn. now rewrite (IH Hr).
Qed.

(** An empty last path segment: the input is empty or ends with a slash. *)
Lemma split_go_slash_last_empty (s : string) : forall h t,
  split_go "/" s 0 = (h, t) -> last (h :: t) EmptyString = EmptyString ->
  s = EmptyString \/ ends_slash s = true.
Proof.
  induction s as [|c r IH]; intros h t H L; [left; reflexivity|]. right.
  cbn [split_go] in H. unfold startsWith in H. cbn [drop_prefix] in H.
  cbn [String.length Nat.sub] in H.
  destruct (split_go "/" r 0) as [h' t'] eqn:E.
  destruct (Ascii.eqb "/" c) eqn:Hc.
  - inversion H; subst. cbn [last] in L.
    apply Ascii.eqb_eq in Hc. subst c.
    destruct r as [|a r']; [reflexivity|].
    destruct (IH _ _ eq_refl L) as [D|D]; [discriminate|].
    exact D.
  - inversion H; subst. destruct t as [|x t'']; [discriminate L|].
    cbn [last] in L. destruct r as [|a r']; [discriminate E|].
    destruct (IH _ _ eq_refl L) as [D|D]; [discriminate|]. exact D.
Qed.

(** ** Key Normalizer *)

Lemma or_else_pop_noslash (sep s : string) :
  includes s "/" = false ->
  includes (or_else (pop (split sep s)) s) "/" = false.
Proof.
  intro H. destruct (pop (split sep s)) eqn:E; cbn [or_else]; [exact H|].
  rewrite <- E. now apply pop_split_noslash.
Qed.

(** The result of the normalizer has no slash. *)
Lemma normalizeDatasetKey_noslash (k : string) :
  includes (normalizeDatasetKey k) "/" = false.
Proof.
  unfold normalizeDatasetKey. apply or_else_pop_noslash.
  set (n1 := strip_trailing_slashes k).
  destruct (pop (split "/" n1)) eqn:E; cbn [or_else].
  - unfold pop, split in E. destruct (split_go "/" n1 0) as [h t] eqn:G.
    destruct (split_go_slash_last_empty _ _ _ G E) as [D|D].
    + rewrite D. reflexivity.
    + unfold n1 in D. rewrite strip_trailing_no_end in D. discriminate.
  - rewrite <- E. apply pop_split_clean. discriminate.
Qed.

(** A name without slash whose last [__]-segment is itself or is empty is
    left unchanged. *)
Lemma normalizeDatasetKey_fixed (n : string) :
  includes n "/" = false ->
  includes n "__" = false \/ pop (split "__" n) = EmptyString ->
  normalizeDatasetKey n = n.
Proof.
  intros Hs Hu. unfold normalizeDatasetKey.
  rewrite (strip_trailing_noslash _ Hs).
  rewrite (split_absent "/" n Hs). cbn [pop last].
  assert (E : or_else n n = n) by (destruct n; reflexivity). rewrite E.
  destruct Hu as [Hu|Hu].
  - rewrite (split_absent "__" n Hu). cbn [pop last]. exact E.
  - rewrite Hu. reflexivity.
Qed.

(** C7: normalizeDatasetKey is idempotent on every string, sends
    "datasets/cais__mmlu/" to "mmlu" and leaves "mmlu" unchanged. *)
Theorem normalizeDatasetKey_idempotent :
  (forall k : string,
     normalizeDatasetKey (normalizeDatasetKey k) = normalizeDatasetKey k)
  /\ normalizeDatasetKey "datasets/cais__mmlu/" = "mmlu"
  /\ normalizeDatasetKey "mmlu" = "mmlu".
Proof.
  split; [|split; reflexivity].
  intro k. apply normalizeDatasetKey_fixed.
  - apply normalizeDatasetKey_noslash.
  - unfold normalizeDatasetKey.
    set (n2 := or_else (pop (split "/" (strip_trailing_slashes k)))
                       (strip_trailing_slashes k)).
    destruct (pop (split "__" n2)) eqn:E; cbn [or_else].
    + right. exact E.
    + left. rewrite <- E. apply pop_split_clean. discriminate.
Qed.

(** ** Category Extractor *)

Lemma endsWith_length (s a : string) :
  endsWith s a = true -> (String.length a <= String.length s)%nat.
Proof.
  induction s as [|c r IH]; cbn [endsWith]; intro H.
  - rewrite orb_false_r in H. apply String.eqb_eq in H. subst. cbn. lia.
  - apply orb_true_iff in H as [H|H].
    + apply String.eqb_eq in H. subst. lia.
    + specialize (IH H). cbn [String.length]. lia.
Qed.

Lemma dropLast_all (s : string) : dropLast (String.length s) s = EmptyString.
Proof.
  unfold dropLast. rewrite Nat.sub_diag. destruct s; reflexivity.
Qed.

Lemma dropLast_cons (n : nat) (c : ascii) (r : string) :
  (n <= String.length r)%nat ->
  dropLast n (String c r) = String c (dropLast n r).
Proof.
  intro H. unfold dropLast. cbn [String.length].
  replace (S (String.length r) - n)%nat with (S (String.length r - n)) by lia.
  reflexivity.
Qed.

Lemma existsb_eqb_In (s : string) (alts : list string) :
  existsb (String.eqb s) alts = true <-> In s alts.
Proof.
  rewrite existsb_exists. split.
  - intros [a [Ha E]]. apply String.eqb_eq in E. now subst.
  - intro H. exists s. split; [assumption | apply String.eqb_refl].
Qed.

(** The regular-expression replacement agrees with cutting the matching
    tail, for alternatives of which none is a proper tail of another. *)
Lemma strip_end_chop (alts : list string) (s : string) :
  tail_free alts = true -> strip_end alts s = chop alts s.
Proof.
  intro TF. unfold tail_free in TF. rewrite forallb_forall in TF.
  induction s as [|c r IH].
  - cbn [strip_end]. unfold chop.
    assert (E : forall a, dropLast (String.length a) EmptyString = EmptyString)
      by (intro a; unfold dropLast; reflexivity).
    destruct (find (endsWith EmptyString) alts); [rewrite E|];
      destruct (existsb _ alts); reflexivity.
  - cbn [strip_end]. destruct (existsb (String.eqb (String c r)) alts) eqn:X.
    + apply existsb_eqb_In in X. unfold chop.
      destruct (find (endsWith (String c r)) alts) as [a|] eqn:F.
      * apply find_some in F as [Ha Ea].
        specialize (TF _ X). rewrite forallb_forall in TF.
        specialize (TF _ Ha). rewrite Ea in TF. cbn [implb] in TF.
        apply String.eqb_eq in TF. subst a. symmetry. apply dropLast_all.
      * exfalso. apply (find_none _ _ F) in X. cbn [endsWith] in X.
        rewrite String.eqb_refl in X. discriminate.
    + assert (N : forall a, In a alts ->
                endsWith (String c r) a = endsWith r a).
      { intros a Ha. cbn [endsWith].
        destruct (String.eqb (String c r) a) eqn:E; [|reflexivity].
        apply String.eqb_eq in E. subst a.
        apply existsb_eqb_In in Ha. congruence. }
      rewrite IH. unfold chop.
      assert (FE : find (endsWith (String c r)) alts = find (endsWith r) alts).
      { clear - N. induction alts as [|a l IHl]; [reflexivity|].
        cbn [find]. rewrite (N a (or_introl eq_refl)).
        destruct (endsWith r a); [reflexivity|].
        apply IHl. intros b Hb. apply N. now right. }
      rewrite FE. destruct (find (endsWith r) alts) as [a|] eqn:F; [|reflexivity].
      apply find_some in F as [_ Ea]. apply endsWith_length in Ea.
      symmetry. now apply dropLast_cons.
Qed.

(** The extractor cuts a trailing [_test] with its extension and then,
    from what is left, a bare trailing extension. *)
Lemma extractCategory_chop (f : string) :
  extractCategory f =
  chop bare_suffixes (chop test_suffixes (or_else (pop (split "/" f)) f)).
Proof.
  unfold extractCategory.
  rewrite (strip_end_chop test_suffixes) by reflexivity.
  apply strip_end_chop. reflexivity.
Qed.

(** ** Result Flattener *)

Lemma bind_OK {A B : Type} (m : result A) (k : A -> result B) (b : B) :
  bind m k = OK b -> exists a, m = OK a /\ k a = OK b.
Proof. destruct m as [a|e]; cbn; [eauto | discriminate]. Qed.

(** A loop whose body only appends appends the contributions in order. *)
Lemma forOf_appends {A B : Type} (body : list B -> A -> result (list B))
  (emit : A -> list B) :
  (forall s x s', body s x = OK s' -> s' = s ++ emit x) ->
  forall l s s', forOf body l s = OK s' -> s' = s ++ flat_map emit l.
Proof.
  intros Hb. induction l as [|x l IH]; intros s s' H; cbn in H.
  - inversion H. now rewrite app_nil_r.
  - apply bind_OK in H as [s1 [H1 H2]]. apply Hb in H1. subst s1.
    apply IH in H2. subst s'. cbn. now rewrite app_assoc.
Qed.

(** A loop whose body returns on the elements it meets returns. *)
Lemma forOf_returns {A S : Type} (body : S -> A -> result S) (ok : A -> Prop) :
  (forall s x, ok x -> exists s', body s x = OK s') ->
  forall l s, Forall ok l -> exists s', forOf body l s = OK s'.
Proof.
  intros Hb. induction l as [|x l IH]; intros s F; cbn.
  - eauto.
  - inversion F; subst. destruct (Hb s x H1) as [s1 E]. rewrite E. cbn.
    now apply IH.
Qed.

Lemma flattenEntry_nullish (nd : string) (rs : list CategoryResult) (e : JsValue) :
  nullish e = true -> flattenEntry nd rs e = Throw TypeError.
Proof. destruct e; cbn; intro H; try discriminate; reflexivity. Qed.

Lemma flattenEntry_emits (nd : string) (rs : list CategoryResult) (e : JsValue) :
  nullish e = false -> flattenEntry nd rs e = OK (rs ++ entryEmits nd e).
Proof.
  destruct e; cbn; intro H; try discriminate; try (now rewrite app_nil_r).
  unfold flattenEntry, entryEmits. cbn.
  destruct (lookup String.eqb "file" props) as [[]|];
    try (now rewrite app_nil_r);
    destruct (lookup String.eqb "accuracy_mean" props) as [[]|];
    try (now rewrite app_nil_r); reflexivity.
Qed.

Lemma flattenEntry_appends (nd : string) (rs rs' : list CategoryResult)
  (e : JsValue) :
  flattenEntry nd rs e = OK rs' -> rs' = rs ++ entryEmits nd e.
Proof.
  destruct (nullish e) eqn:N.
  - rewrite (flattenEntry_nullish _ _ _ N). discriminate.
  - rewrite (flattenEntry_emits _ _ _ N). now inversion 1.
Qed.

Lemma flattenDataset_appends (rs rs' : list CategoryResult)
  (kv : string * JsValue) :
  flattenDataset rs kv = OK rs' -> rs' = rs ++ datasetEmits kv.
Proof.
  destruct kv as [k v]. unfold flattenDataset, datasetEmits. cbn [fst snd].
  destruct v; cbn; try (inversion 1; now rewrite app_nil_r).
  destruct (lookup String.eqb "results" props) as [[]|];
    try (inversion 1; now rewrite app_nil_r).
  apply forOf_appends. intros. now apply flattenEntry_appends.
Qed.

(** What the flattener iterates over when it gets past its two guards. *)
Lemma flatten_unfold (raw : JsValue) :
  flattenDatasetResults raw = forOf flattenDataset (datasetEntries raw) [].
Proof.
  unfold flattenDatasetResults, datasetEntries.
  destruct raw; cbn; try reflexivity.
  destruct (lookup String.eqb "dataset_results" props) as [dr|]; [|reflexivity].
  destruct dr as [| |b|q|s|items|ps]; cbn; try reflexivity.
  - destruct b; reflexivity.
  - destruct (Qeq_bool q 0); reflexivity.
  - destruct (String.eqb s EmptyString); reflexivity.
Qed.

(** A returned list is the contributions of the datasets, in order. *)
Lemma flatten_emits (raw : JsValue) (rs : list CategoryResult) :
  flattenDatasetResults raw = OK rs ->
  rs = flat_map datasetEmits (datasetEntries raw).
Proof.
  rewrite flatten_unfold. intro H.
  apply (forOf_appends _ datasetEmits) in H; [exact H|].
  intros. now apply flattenDataset_appends.
Qed.

Lemma forOf_each_returns {A S : Type} (body : S -> A -> result S) :
  forall l s s', forOf body l s = OK s' ->
  Forall (fun x => exists s1 s2, body s1 x = OK s2) l.
Proof.
  induction l as [|x l IH]; intros s s' H; [constructor|].
  cbn in H. apply bind_OK in H as [s1 [H1 H2]].
  constructor; [eauto | eapply IH; eassumption].
Qed.

Lemma flattenEntries_returns (nd : string) (items : list JsValue)
  (rs : list CategoryResult) :
  (exists rs', forOf (flattenEntry nd) items rs = OK rs')
  <-> existsb nullish items = false.
Proof.
  split.
  - intros [rs' H]. apply forOf_each_returns in H.
    induction H as [|e l [s1 [s2 He]] _ IH]; [reflexivity|].
    cbn. rewrite IH, orb_false_r.
    destruct (nullish e) eqn:N; [|reflexivity].
    rewrite (flattenEntry_nullish _ _ _ N) in He. discriminate.
  - intro H. apply (forOf_returns _ (fun e => nullish e = false)).
    + intros s e N. rewrite (flattenEntry_emits _ _ _ N). eauto.
    + clear rs. induction items as [|e l IH]; [constructor|].
      cbn in H. apply orb_false_iff in H as [H1 H2]. constructor; auto.
Qed.

Lemma flattenDataset_returns (rs : list CategoryResult) (kv : string * JsValue) :
  (exists rs', flattenDataset rs kv = OK rs')
  <-> (forall items, resultsArray (snd kv) = Some items ->
                     existsb nullish items = false).
Proof.
  destruct kv as [k v]. unfold flattenDataset, resultsArray. cbn [snd].
  destruct v as [| |b|q|s|items|props]; cbn;
    try (split; [discriminate | eauto]).
  destruct (lookup String.eqb "results" props) as [[| |b|q|s|items|ps]|];
    try (split; [discriminate | eauto]).
  rewrite flattenEntries_returns. split.
  - intros H items' E. now inversion E; subst.
  - intro H. now apply H.
Qed.

(** The flattener returns exactly on the documents whose [results] arrays
    hold neither [null] nor [undefined]. *)
Lemma flatten_returns_iff (raw : JsValue) :
  (exists rs, flattenDatasetResults raw = OK rs) <-> entriesReadable raw.
Proof.
  rewrite flatten_unfold. unfold entriesReadable. split.
  - intros [rs H]. apply forOf_each_returns in H.
    eapply Forall_impl; [|exact H]. cbn beta.
    intros kv [s1 [s2 E]]. apply (flattenDataset_returns s1). eauto.
  - intro F. apply (forOf_returns _ _ (fun s kv => proj2 (flattenDataset_returns s kv))).
    exact F.
Qed.

(** C1: the flattener throws a TypeError on the document
    [{"dataset_results": {"d": {"results": [null]}}}], whose [null] entry is
    not skipped; it returns exactly when no [results] array it walks holds
    [null] or [undefined]. *)
Theorem flatten_null_entry_throws :
  flattenDatasetResults nullEntryDocument = Throw TypeError
  /\ forall raw : JsValue,
       (exists rs, flattenDatasetResults raw = OK rs) <-> entriesReadable raw.
Proof. split; [reflexivity | exact flatten_returns_iff]. Qed.

(** C6: a document that is not an object, or that has no [dataset_results]
    property, is flattened to the empty list, without an exception. *)
Theorem flatten_without_dataset_results (raw : JsValue) :
  isObject raw = false \/ hasOwn raw "dataset_results" = false ->
  flattenDatasetResults raw = OK [].
Proof.
  intros [H|H].
  - unfold flattenDatasetResults. rewrite H. reflexivity.
  - destruct raw; try reflexivity.
    unfold flattenDatasetResults, hasOwn, has in *. cbn.
    destruct (lookup String.eqb "dataset_results" props); [discriminate|].
    reflexivity.
Qed.

Lemma flatten_without_dataset_results_witness :
  flattenDatasetResults (JStr "mmlu") = OK []
  /\ flattenDatasetResults (JObj [("config", JNum 1)]) = OK [].
Proof.
  split.
  - apply flatten_without_dataset_results. left. reflexivity.
  - apply flatten_without_dataset_results. right. reflexivity.
Defined.

Lemma datasetEntries_In (raw : JsValue) (kv : string * JsValue) :
  In kv (datasetEntries raw) ->
  exists dr entries,
    getProp raw "dataset_results" = OK dr /\ truthy dr = true
    /\ objectEntries dr = OK entries /\ In kv entries.
Proof.
  unfold datasetEntries. destruct raw as [| |b|q|s|items|props]; try contradiction.
  cbn [getProp].
  destruct (lookup String.eqb "dataset_results" props) as [dr|]; [|contradiction].
  destruct (truthy dr) eqn:T; [|contradiction].
  destruct (objectEntries dr) as [entries|] eqn:E; [|contradiction].
  intro H. exists dr, entries. auto.
Qed.

Lemma entryEmits_In (nd : string) (entry : JsValue) (r : CategoryResult) :
  In r (entryEmits nd entry) ->
  exists f,
    getProp entry "file" = OK (JStr f)
    /\ getProp entry "accuracy_mean" = OK (JNum (accuracy_mean r))
    /\ getProp entry "accuracy_std" = OK (accuracy_std r)
    /\ category r = (nd ++ "/" ++ legacyOverride nd (extractCategory f))%string
    /\ file r = f.
Proof.
  unfold entryEmits. destruct entry as [| |b|q|s|items|props]; try contradiction.
  cbn [getProp].
  destruct (lookup String.eqb "file" props) as [[| |b|q|f|items|ps]|];
    try contradiction.
  destruct (lookup String.eqb "accuracy_mean" props) as [[| |b|a|s|items|ps]|];
    try contradiction.
  intros [<-|[]]. exists f. cbn. auto.
Qed.

Lemma datasetEmits_In (kv : string * JsValue) (r : CategoryResult) :
  In r (datasetEmits kv) ->
  exists items entry,
    getProp (snd kv) "results" = OK (JArr items) /\ In entry items
    /\ In r (entryEmits (normalizeDatasetKey (fst kv)) entry).
Proof.
  unfold datasetEmits. destruct (snd kv) as [| |b|q|s|items|props]; try contradiction.
  cbn [getProp].
  destruct (lookup String.eqb "results" props) as [[| |b|q|s|items|ps]|];
    try contradiction.
  intro H. apply in_flat_map in H as [entry [H1 H2]]. eauto.
Qed.

(** C5: every record the flattener emits comes from an entry of a [results]
    array with a string [file] and a number [accuracy_mean]; its [category]
    is the normalized dataset key, a slash and the extracted category after
    the legacy override, and its [accuracy_mean] is the number of the entry,
    whatever its value. *)
Theorem flatten_category_and_mean (raw : JsValue) (rs : list CategoryResult)
  (r : CategoryResult) :
  flattenDatasetResults raw = OK rs -> In r rs ->
  exists dr entries datasetKey datasetValue items entry f,
    getProp raw "dataset_results" = OK dr
    /\ objectEntries dr = OK entries
    /\ In (datasetKey, datasetValue) entries
    /\ getProp datasetValue "results" = OK (JArr items)
    /\ In entry items
    /\ getProp entry "file" = OK (JStr f)
    /\ getProp entry "accuracy_mean" = OK (JNum (accuracy_mean r))
    /\ category r =
       (normalizeDatasetKey datasetKey ++ "/"
        ++ legacyOverride (normalizeDatasetKey datasetKey) (extractCategory f))%string
    /\ file r = f.
Proof.
  intros H Hr. apply flatten_emits in H. subst rs.
  apply in_flat_map in Hr as [[k v] [Hkv Hr]].
  apply datasetEntries_In in Hkv as [dr [entries [Hdr [_ [He Hin]]]]].
  apply datasetEmits_In in Hr as [items [entry [Hi [Hen Hr]]]].
  apply entryEmits_In in Hr as [f [Hf [Ha [_ [Hc Hfile]]]]].
  exists dr, entries, k, v, items, entry, f. cbn [fst snd] in *.
  repeat split; assumption.
Qed.

Lemma flatten_category_and_mean_witness :
  let r := {| category := "mmlu/abstract_algebra";
              file := "data/abstract_algebra_test.jsonl";
              accuracy_mean := 3 # 2;
              accuracy_std := JUndefined |} in
  exists dr entries datasetKey datasetValue items entry f,
    getProp (documentOf [("datasets/cais__mmlu/",
                          [entryOf "data/abstract_algebra_test.jsonl" (3 # 2)])])
            "dataset_results" = OK dr
    /\ objectEntries dr = OK entries
    /\ In (datasetKey, datasetValue) entries
    /\ getProp datasetValue "results" = OK (JArr items)
    /\ In entry items
    /\ getProp entry "file" = OK (JStr f)
    /\ getProp entry "accuracy_mean" = OK (JNum (accuracy_mean r))
    /\ category r =
       (normalizeDatasetKey datasetKey ++ "/"
        ++ legacyOverride (normalizeDatasetKey datasetKey) (extractCategory f))%string
    /\ file r = f.
Proof.
  intro r.
  apply (flatten_category_and_mean
           (documentOf [("datasets/cais__mmlu/",
                         [entryOf "data/abstract_algebra_test.jsonl" (3 # 2)])])
           [r] r).
  - reflexivity.
  - left. reflexivity.
Defined.

Lemma datasetEntries_intro (raw dr : JsValue) (entries : list (string * JsValue))
  (kv : string * JsValue) :
  getProp raw "dataset_results" = OK dr -> objectEntries dr = OK entries ->
  In kv entries -> In kv (datasetEntries raw).
Proof.
  intros Hdr He Hin. unfold datasetEntries.
  destruct raw as [| |b|q|s|items|props]; cbn in Hdr; try discriminate;
    try (inversion Hdr; subst dr; discriminate He).
  destruct (lookup String.eqb "dataset_results" props) as [x|];
    inversion Hdr; subst dr; [|discriminate He].
  rewrite He.
  destruct x as [| |b|q|s|items|ps]; cbn in He |- *; try discriminate He;
    try (inversion He; subst entries; contradiction); try assumption.
  destruct s; [inversion He; subst entries; contradiction | assumption].
Qed.

(** Every entry with a string [file] and a number [accuracy_mean] yields a
    record, when the flattener returns. *)
Lemma flatten_emits_entry (raw dr : JsValue) (entries : list (string * JsValue))
  (rs : list CategoryResult) (datasetKey : string)
  (datasetValue : JsValue) (items : list JsValue) (entry : JsValue)
  (f : string) (a : Q) :
  flattenDatasetResults raw = OK rs ->
  getProp raw "dataset_results" = OK dr -> objectEntries dr = OK entries ->
  In (datasetKey, datasetValue) entries ->
  getProp datasetValue "results" = OK (JArr items) -> In entry items ->
  getProp entry "file" = OK (JStr f) ->
  getProp entry "accuracy_mean" = OK (JNum a) ->
  exists r, In r rs
    /\ category r =
       (normalizeDatasetKey datasetKey ++ "/"
        ++ legacyOverride (normalizeDatasetKey datasetKey) (extractCategory f))%string
    /\ file r = f /\ accuracy_mean r = a.
Proof.
  intros H Hdr He Hkv Hres Hen Hf Ha.
  apply flatten_emits in H. subst rs.
  pose proof (datasetEntries_intro _ _ _ _ Hdr He Hkv) as Hin.
  destruct datasetValue as [| |b|q|s|its|props]; cbn in Hres; try discriminate.
  destruct (lookup String.eqb "results" props) as [x|] eqn:Lr;
    inversion Hres; subst.
  destruct entry as [| |b|q|s|its|eprops]; cbn in Hf; try discriminate.
  destruct (lookup String.eqb "file" eprops) as [x|] eqn:Lf;
    inversion Hf; subst.
  cbn in Ha.
  destruct (lookup String.eqb "accuracy_mean" eprops) as [x|] eqn:La;
    inversion Ha; subst.
  eexists. split.
  - apply in_flat_map. exists (datasetKey, JObj props). split; [exact Hin|].
    unfold datasetEmits. cbn [fst snd]. rewrite Lr.
    apply in_flat_map. exists (JObj eprops). split; [exact Hen|].
    unfold entryEmits. rewrite Lf, La. left. reflexivity.
  - cbn. auto.
Qed.

(** C8 as stated fails: on "a.csv_test.json" the code removes "_test.json"
    and then ".csv" as well, where the rule with "or else" stops at
    "a.csv". *)
Lemma extractCategory_or_else_fails :
  extractCategory "a.csv_test.json" = "a"
  /\ extractCategory_spec "a.csv_test.json" = "a.csv"
  /\ extractCategory "a.csv_test.json" <> extractCategory_spec "a.csv_test.json".
Proof. repeat split; try reflexivity. discriminate. Qed.

(** C8, amended: extractCategory keeps the final path segment (the whole
    filename when that segment is empty), cuts a trailing [_test] with an
    extension of jsonl, json, csv, parquet when there is one, and then cuts
    a bare trailing extension from what is left when there is one;
    "abstract_algebra_test.jsonl" gives "abstract_algebra" and "foo.csv"
    gives "foo"; and an entry whose file extracts to "default" under a
    dataset key that normalizes to "tw-legal-benchmark-v1" is emitted by the
    flattener with category "tw-legal-benchmark-v1/benchmark". *)
Theorem extractCategory_chained :
  (forall f : string,
     extractCategory f =
     chop bare_suffixes (chop test_suffixes (or_else (pop (split "/" f)) f)))
  /\ extractCategory "abstract_algebra_test.jsonl" = "abstract_algebra"
  /\ extractCategory "foo.csv" = "foo"
  /\ (forall raw dr entries rs datasetKey datasetValue items entry f a,
        flattenDatasetResults raw = OK rs ->
        getProp raw "dataset_results" = OK dr ->
        objectEntries dr = OK entries ->
        In (datasetKey, datasetValue) entries ->
        getProp datasetValue "results" = OK (JArr items) -> In entry items ->
        getProp entry "file" = OK (JStr f) ->
        getProp entry "accuracy_mean" = OK (JNum a) ->
        normalizeDatasetKey datasetKey = "tw-legal-benchmark-v1" ->
        extractCategory f = "default" ->
        exists r, In r rs
          /\ category r = "tw-legal-benchmark-v1/benchmark"
          /\ file r = f /\ accuracy_mean r = a).
Proof.
  split; [exact extractCategory_chop|].
  split; [reflexivity|]. split; [reflexivity|].
  intros raw dr entries rs datasetKey datasetValue items entry f a
    H Hdr He Hkv Hres Hen Hf Ha Hn Hc.
  destruct (flatten_emits_entry _ _ _ _ _ _ _ _ _ _ H Hdr He Hkv Hres Hen Hf Ha)
    as [r [Hin [Hcat [Hfile Hacc]]]].
  exists r. rewrite Hn, Hc in Hcat. auto.
Qed.

Lemma extractCategory_chained_witness :
  exists r,
    In r [{| category := "tw-legal-benchmark-v1/benchmark";
             file := "runs/default.jsonl";
             accuracy_mean := 1 # 2;
             accuracy_std := JUndefined |}]
    /\ category r = "tw-legal-benchmark-v1/benchmark"
    /\ file r = "runs/default.jsonl" /\ accuracy_mean r = 1 # 2.
Proof.
  apply (proj2 (proj2 (proj2 extractCategory_chained))
           (documentOf [("datasets/lianghsun__tw-legal-benchmark-v1/",
                         [entryOf "runs/default.jsonl" (1 # 2)])])
           (JObj [("datasets/lianghsun__tw-legal-benchmark-v1/",
                   JObj [("results", JArr [entryOf "runs/default.jsonl" (1 # 2)])])])
           [("datasets/lianghsun__tw-legal-benchmark-v1/",
             JObj [("results", JArr [entryOf "runs/default.jsonl" (1 # 2)])])]
           _
           "datasets/lianghsun__tw-legal-benchmark-v1/"
           (JObj [("results", JArr [entryOf "runs/default.jsonl" (1 # 2)])])
           [entryOf "runs/default.jsonl" (1 # 2)]
           (entryOf "runs/default.jsonl" (1 # 2))
           "runs/default.jsonl" (1 # 2));
    try reflexivity; left; reflexivity.
Defined.

(** ** Subject Classifier *)

(** The cascade of the code is the first-match dispatch over the table. *)
Lemma categorizeTest_classify (s : string) :
  categorizeTest s = classify ruleTable (toLowerCase s).
Proof.
  unfold categorizeTest, classify, ruleTable, groupMatches.
  cbn [find existsb fst snd].
  rewrite ?orb_false_r, ?orb_assoc.
  repeat match goal with
         | |- (if ?b then _ else _) = _ => destruct b; [reflexivity|]
         end.
  reflexivity.
Qed.

Lemma classify_first (rules : list (list string * CategoryKey)) (name : string)
  (before after : list (list string * CategoryKey))
  (g : list string * CategoryKey) :
  rules = before ++ g :: after ->
  forallb (fun h => negb (groupMatches name h)) before = true ->
  groupMatches name g = true ->
  classify rules name = snd g.
Proof.
  intros -> Hb Hg. unfold classify.
  induction before as [|h l IH]; cbn [app find].
  - now rewrite Hg.
  - cbn in Hb. apply andb_true_iff in Hb as [Hh Hl].
    apply negb_true_iff in Hh. rewrite Hh. now apply IH.
Qed.

Lemma classify_none (rules : list (list string * CategoryKey)) (name : string) :
  (forall g kw, In g rules -> In kw (fst g) -> includes name kw = false) ->
  classify rules name = other.
Proof.
  intro H. unfold classify.
  replace (find (groupMatches name) rules) with (@None (list string * CategoryKey));
    [reflexivity|].
  symmetry. induction rules as [|g l IH]; [reflexivity|]. cbn [find].
  assert (E : groupMatches name g = false).
  { unfold groupMatches. apply not_true_is_false. intro X.
    apply existsb_exists in X as [kw [Hk Hi]].
    rewrite (H g kw (or_introl eq_refl) Hk) in Hi. discriminate. }
  rewrite E. apply IH. intros g' kw Hg. apply H. now right.
Qed.

(** No keyword of any group occurs in the input "MATH" as it is written, and
    yet its tag is mathematics, not other: the keywords are looked for in the
    lower-cased input. *)
Lemma categorizeTest_other_fails :
  (forall g kw, In g ruleTable -> In kw (fst g) -> includes "MATH" kw = false)
  /\ categorizeTest "MATH" = mathematics
  /\ categorizeTest "MATH" <> other.
Proof.
  split; [|split; [reflexivity | discriminate]].
  intros g kw Hg Hk.
  assert (A : forallb (fun g => forallb (fun kw => negb (includes "MATH" kw)) (fst g))
                      ruleTable = true) by reflexivity.
  pose proof (proj1 (forallb_forall _ _) A g Hg) as B. cbn beta in B.
  pose proof (proj1 (forallb_forall _ _) B kw Hk) as C.
  now apply negb_true_iff in C.
Qed.

(** C4: categorizeTest is a total function into the fourteen tags; it is
    the first-match dispatch over the ordered rule table applied to the
    lower-cased input: the tag of the first group with a keyword occurring
    in it, whatever later groups match; "medical_ethics" is medicineHealth
    although "medical" is also a science keyword; and when no keyword of any
    group occurs in the lower-cased input (the input itself, when it is in
    lower case already) the result is other. *)
Theorem categorizeTest_first_match :
  (forall s : string, categorizeTest s = classify ruleTable (toLowerCase s))
  /\ (forall s before g after,
        ruleTable = before ++ g :: after ->
        forallb (fun h => negb (groupMatches (toLowerCase s) h)) before = true ->
        groupMatches (toLowerCase s) g = true ->
        categorizeTest s = snd g)
  /\ map snd ruleTable =
       [computerScience; mathematics; medicineHealth; science; lawGovernment;
        humanitiesPhilosophy; businessEconomics; socialSciences; education;
        engineeringTechnical; vocationalArts; languagesLiterature;
        miscellaneous]
  /\ categorizeTest "medical_ethics" = medicineHealth
  /\ In (["physics"; "chemistry"; "biology"; "astronomy"; "science"; "medical"],
         science) ruleTable
  /\ (forall s : string,
        (forall g kw, In g ruleTable -> In kw (fst g) ->
                      includes (toLowerCase s) kw = false) ->
        categorizeTest s = other)
  /\ (forall s : string,
        toLowerCase s = s ->
        (forall g kw, In g ruleTable -> In kw (fst g) -> includes s kw = false) ->
        categorizeTest s = other).
Proof.
  split; [exact categorizeTest_classify|].
  split.
  { intros s before g after E Hb Hg. rewrite categorizeTest_classify.
    now apply (classify_first _ _ before after). }
  split; [reflexivity|]. split; [reflexivity|].
  split; [cbn; tauto|].
  split.
  - intros s H. rewrite categorizeTest_classify. now apply classify_none.
  - intros s L H. rewrite categorizeTest_classify, L. now apply classify_none.
Qed.

Lemma categorizeTest_first_match_witness :
  categorizeTest "my_benchmark_v2" = other
  /\ categorizeTest "Medical_Science" = medicineHealth.
Proof.
  split.
  - apply (proj2 (proj2 (proj2 (proj2 (proj2 (proj2 categorizeTest_first_match))))));
      [reflexivity|].
    intros g kw Hg Hk. cbn in Hg.
    repeat (destruct Hg as [<-|Hg];
            [cbn in Hk; repeat (destruct Hk as [<-|Hk]; [reflexivity|]);
             contradiction |]).
    contradiction.
  - eapply (proj1 (proj2 categorizeTest_first_match) "Medical_Science"
             [ (["computer"; "machine_learning"; "security"], computerScience);
               (["math"; "algebra"; "calculus"; "geometry"; "statistics";
                 "trigonometry"], mathematics) ]
             (["medicine"; "nutrition"; "anatomy"; "clinical"; "virology";
               "genetics"; "pharmacology"; "veterinary"; "dentistry";
               "pharmacy"; "optometry"; "occupational"; "therapy";
               "psychological"; "pathology"; "medical"], medicineHealth));
      reflexivity.
Defined.

(** ** Insertion-ordered maps *)

Section AssocFacts.
Context {K V : Type} (eqb : K -> K -> bool).
Hypothesis eqb_eq : forall a b, eqb a b = true <-> a = b.

Lemma eqb_refl' (a : K) : eqb a a = true.
Proof. now apply eqb_eq. Qed.

Lemma eqb_neq (a b : K) : a <> b -> eqb a b = false.
Proof.
  intro H. destruct (eqb a b) eqn:E; [|reflexivity].
  apply eqb_eq in E. contradiction.
Qed.

Lemma lookup_set_same (k : K) (v : V) (m : list (K * V)) :
  lookup eqb k (set eqb k v m) = Some v.
Proof.
  induction m as [|[k' v'] m IH]; cbn.
  - now rewrite eqb_refl'.
  - destruct (eqb k k') eqn:E; cbn; rewrite E; [reflexivity | exact IH].
Qed.

Lemma lookup_set_other (k k' : K) (v : V) (m : list (K * V)) :
  k <> k' -> lookup eqb k' (set eqb k v m) = lookup eqb k' m.
Proof.
  intro N. induction m as [|[k0 v0] m IH]; cbn.
  - rewrite eqb_neq; [reflexivity | congruence].
  - destruct (eqb k k0) eqn:E; cbn.
    + apply eqb_eq in E. subst k0. rewrite eqb_neq; [reflexivity | congruence].
    + now rewrite IH.
Qed.

Lemma lookup_set (k k' : K) (v : V) (m : list (K * V)) :
  lookup eqb k' (set eqb k v m) = if eqb k k' then Some v else lookup eqb k' m.
Proof.
  destruct (eqb k k') eqn:E.
  - apply eqb_eq in E. subst. apply lookup_set_same.
  - apply lookup_set_other. intro X. subst. rewrite eqb_refl' in E. discriminate.
Qed.

Lemma keys_set (k : K) (v : V) (m : list (K * V)) :
  map fst (set eqb k v m) =
  if has eqb k m then map fst m else map fst m ++ [k].
Proof.
  unfold has. induction m as [|[k' v'] m IH]; cbn; [reflexivity|].
  destruct (eqb k k') eqn:E; cbn; [reflexivity|].
  rewrite IH. destruct (lookup eqb k m); reflexivity.
Qed.

Lemma has_In (k : K) (m : list (K * V)) :
  has eqb k m = true <-> In k (map fst m).
Proof.
  unfold has. induction m as [|[k' v'] m IH]; cbn.
  - split; [discriminate | contradiction].
  - destruct (eqb k k') eqn:E.
    + apply eqb_eq in E. subst. split; auto.
    + rewrite IH. split; [auto|]. intros [X|X]; [|exact X].
      subst. rewrite eqb_refl' in E. discriminate.
Qed.

Lemma keys_set_NoDup (k : K) (v : V) (m : list (K * V)) :
  NoDup (map fst m) -> NoDup (map fst (set eqb k v m)).
Proof.
  intro H. rewrite keys_set. destruct (has eqb k m) eqn:E; [exact H|].
  apply Permutation_NoDup with (l := k :: map fst m).
  - apply Permutation_cons_append.
  - constructor; [|exact H]. intro X. apply has_In in X. congruence.
Qed.

Lemma lookup_In (k : K) (v : V) (m : list (K * V)) :
  NoDup (map fst m) -> In (k, v) m -> lookup eqb k m = Some v.
Proof.
  induction m as [|[k' v'] m IH]; cbn; intros ND H; [contradiction|].
  inversion ND; subst. destruct H as [H|H].
  - inversion H; subst. now rewrite eqb_refl'.
  - destruct (eqb k k') eqn:E; [|now apply IH].
    apply eqb_eq in E. subst. exfalso. apply H2.
    change k' with (fst (k', v)). now apply in_map.
Qed.

Lemma In_lookup (k : K) (v : V) (m : list (K * V)) :
  lookup eqb k m = Some v -> In (k, v) m.
Proof.
  induction m as [|[k' v'] m IH]; cbn; [discriminate|].
  destruct (eqb k k') eqn:E; [|auto].
  apply eqb_eq in E. subst. inversion 1. now left.
Qed.

End AssocFacts.

Lemma CategoryKey_eqb_eq (a b : CategoryKey) : CategoryKey_eqb a b = true <-> a = b.
Proof. destruct a, b; cbn; split; congruence. Qed.

(** ** Category Grouper *)

Lemma groupStep_lookup (g : list (CategoryKey * list CategoryResult))
  (r : CategoryResult) (k : CategoryKey) :
  lookup CategoryKey_eqb k (groupStep g r) =
  if inBucket k r then pushed (lookup CategoryKey_eqb k g) [r]
  else lookup CategoryKey_eqb k g.
Proof.
  unfold groupStep, inBucket, pushed, has.
  set (c := categorizeTest (category r)).
  destruct (lookup CategoryKey_eqb c g) as [b|] eqn:L.
  - rewrite L, (lookup_set _ CategoryKey_eqb_eq).
    destruct (CategoryKey_eqb c k) eqn:E; [|reflexivity].
    apply CategoryKey_eqb_eq in E. subst k. now rewrite L.
  - rewrite (lookup_set_same _ CategoryKey_eqb_eq).
    rewrite !(lookup_set _ CategoryKey_eqb_eq).
    destruct (CategoryKey_eqb c k) eqn:E; [|reflexivity].
    apply CategoryKey_eqb_eq in E. subst k. now rewrite L.
Qed.

Lemma groupStep_NoDup (g : list (CategoryKey * list CategoryResult))
  (r : CategoryResult) :
  NoDup (map fst g) -> NoDup (map fst (groupStep g r)).
Proof.
  intro H. unfold groupStep.
  set (c := categorizeTest (category r)).
  set (g' := if has CategoryKey_eqb c g then g else set CategoryKey_eqb c [] g).
  assert (H' : NoDup (map fst g')).
  { unfold g'. destruct (has CategoryKey_eqb c g); [exact H|].
    now apply (keys_set_NoDup _ CategoryKey_eqb_eq). }
  destruct (lookup CategoryKey_eqb c g'); [|exact H'].
  now apply (keys_set_NoDup _ CategoryKey_eqb_eq).
Qed.

Lemma concat_set_absent {A : Type} (k : CategoryKey) (m : list (CategoryKey * list A)) :
  concat (map snd (set CategoryKey_eqb k [] m)) = concat (map snd m)
  \/ has CategoryKey_eqb k m = true.
Proof.
  unfold has. induction m as [|[k' v'] m IH]; cbn; [now left|].
  destruct (CategoryKey_eqb k k'); [now right|].
  destruct IH as [IH|IH]; [left | right; exact IH].
  cbn. now rewrite IH.
Qed.

Lemma concat_set_push {A : Type} (k : CategoryKey) (b : list A) (x : A)
  (m : list (CategoryKey * list A)) :
  lookup CategoryKey_eqb k m = Some b ->
  Permutation (concat (map snd (set CategoryKey_eqb k (b ++ [x]) m)))
              (concat (map snd m) ++ [x]).
Proof.
  induction m as [|[k' v'] m IH]; cbn; [discriminate|].
  destruct (CategoryKey_eqb k k'); cbn.
  - inversion 1; subst. rewrite <- !app_assoc.
    apply Permutation_app_head, Permutation_app_comm.
  - intro H. rewrite <- app_assoc. apply Permutation_app_head. now apply IH.
Qed.

Lemma groupStep_perm (g : list (CategoryKey * list CategoryResult))
  (r : CategoryResult) :
  Permutation (concat (map snd (groupStep g r))) (concat (map snd g) ++ [r]).
Proof.
  unfold groupStep. set (c := categorizeTest (category r)).
  destruct (has CategoryKey_eqb c g) eqn:Hh.
  - unfold has in Hh. destruct (lookup CategoryKey_eqb c g) as [b|] eqn:L;
      [|discriminate].
    now apply concat_set_push.
  - rewrite (lookup_set_same _ CategoryKey_eqb_eq).
    destruct (concat_set_absent (A := CategoryResult) c g) as [E|E]; [|congruence].
    rewrite <- E. apply (concat_set_push c [] r).
    apply (lookup_set_same _ CategoryKey_eqb_eq).
Qed.

Lemma group_fold_lookup (rs : list CategoryResult) :
  forall g k,
    lookup CategoryKey_eqb k (fold_left groupStep rs g) =
    pushed (lookup CategoryKey_eqb k g) (filter (inBucket k) rs).
Proof.
  induction rs as [|r rs IH]; intros g k; [reflexivity|].
  cbn [fold_left filter]. rewrite IH, groupStep_lookup.
  destruct (inBucket k r); [|reflexivity].
  unfold pushed. destruct (filter (inBucket k) rs); [reflexivity|].
  now rewrite <- app_assoc.
Qed.

Lemma group_fold_NoDup (rs : list CategoryResult) :
  forall g, NoDup (map fst g) -> NoDup (map fst (fold_left groupStep rs g)).
Proof.
  induction rs as [|r rs IH]; intros g H; [exact H|].
  cbn. apply IH. now apply groupStep_NoDup.
Qed.

Lemma group_fold_perm (rs : list CategoryResult) :
  forall g, Permutation (concat (map snd (fold_left groupStep rs g)))
                        (concat (map snd g) ++ rs).
Proof.
  induction rs as [|r rs IH]; intro g; cbn [fold_left].
  - now rewrite app_nil_r.
  - rewrite IH. rewrite groupStep_perm. now rewrite <- app_assoc.
Qed.

(** C9: groupByCategory partitions its input.  The bucket keys are pairwise
    distinct; the bucket of key [k] is the sublist of the inputs that
    categorizeTest sends to [k], in input order and with repetitions, and is
    not empty; every input is in the bucket of its own key; and the buckets
    put end to end are a permutation of the input. *)
Theorem groupByCategory_partition (rs : list CategoryResult) :
  NoDup (map fst (groupByCategory rs))
  /\ (forall k b, In (k, b) (groupByCategory rs) ->
        b = filter (inBucket k) rs /\ b <> [])
  /\ (forall r, In r rs ->
        exists b, In (categorizeTest (category r), b) (groupByCategory rs)
                  /\ In r b)
  /\ Permutation (concat (map snd (groupByCategory rs))) rs.
Proof.
  assert (ND : NoDup (map fst (groupByCategory rs)))
    by (apply group_fold_NoDup; constructor).
  assert (L : forall k, lookup CategoryKey_eqb k (groupByCategory rs)
                        = pushed None (filter (inBucket k) rs))
    by (intro k; apply (group_fold_lookup rs [] k)).
  split; [exact ND|]. split; [|split].
  - intros k b H. apply (lookup_In _ CategoryKey_eqb_eq) in H; [|exact ND].
    rewrite L in H. unfold pushed in H.
    destruct (filter (inBucket k) rs) eqn:F; [discriminate|].
    inversion H. split; [reflexivity | discriminate].
  - intros r Hr. set (k := categorizeTest (category r)).
    assert (Hf : In r (filter (inBucket k) rs)).
    { apply filter_In. split; [exact Hr|]. unfold inBucket.
      now apply CategoryKey_eqb_eq. }
    exists (filter (inBucket k) rs). split; [|exact Hf].
    apply (In_lookup _ CategoryKey_eqb_eq). rewrite L. unfold pushed.
    destruct (filter (inBucket k) rs); [contradiction | reflexivity].
  - apply (group_fold_perm rs []).
Qed.

Lemma groupByCategory_partition_witness :
  let rs := [ {| category := "mmlu/college_physics"; file := "a.json";
                 accuracy_mean := 1 # 2; accuracy_std := JUndefined |};
              {| category := "mmlu/world_facts"; file := "b.json";
                 accuracy_mean := 1 # 4; accuracy_std := JUndefined |};
              {| category := "mmlu/college_physics"; file := "a.json";
                 accuracy_mean := 1 # 2; accuracy_std := JUndefined |} ] in
  Permutation (concat (map snd (groupByCategory rs))) rs.
Proof.
  intro rs. apply (proj2 (proj2 (proj2 (groupByCategory_partition rs)))).
Defined.

(** ** Pivot Builder *)

Lemma In_set (k k0 : string) {V : Type} (v v' : V) (m : list (string * V)) :
  In (k, v') (set String.eqb k0 v m) -> (k = k0 /\ v' = v) \/ In (k, v') m.
Proof.
  induction m as [|[k1 v1] m IH]; cbn.
  - intros [H|[]]. inversion H. now left.
  - destruct (String.eqb k0 k1) eqn:E; cbn.
    + apply String.eqb_eq in E. subst k1.
      intros [H|H]; [inversion H; now left | right; now right].
    + intros [H|H]; [right; now left|].
      destruct (IH H) as [X|X]; [now left | right; now right].
Qed.

Lemma includes_append_r (p t kw : string) :
  includes t kw = true -> includes (p ++ t) kw = true.
Proof.
  intro H. induction p as [|c p IH]; cbn [append]; [exact H|].
  cbn [includes]. rewrite IH. apply orb_true_r.
Qed.

(** A source label is never the key [category]: it holds [" @ "]. *)
Lemma sourceLabel_not_category (s : DataSource) : sourceLabel s <> "category".
Proof.
  unfold sourceLabel. intro H.
  assert (I : includes (modelName s ++ varianceLabel s ++ " @ " ++ timestamp s
                        ++ (if isOfficial s then " (Official)" else EmptyString)) " @ "
              = true) by (do 2 apply includes_append_r; reflexivity).
  rewrite H in I. discriminate.
Qed.

Lemma string_eqb_eq (a b : string) : String.eqb a b = true <-> a = b.
Proof. apply String.eqb_eq. Qed.

Lemma pivotStep_cell (lbl : string) (m : list (string * PivotRow))
  (r : CategoryResult) (c l : string) :
  l <> "category" ->
  cellOf (pivotStep lbl m r) c l =
  if String.eqb (category r) c && String.eqb lbl l
  then Some (PNum (accuracy_mean r))
  else cellOf m c l.
Proof.
  intro Hl. unfold pivotStep, cellOf.
  destruct (lookup String.eqb (category r) m) as [row|] eqn:L.
  - rewrite (lookup_set _ string_eqb_eq).
    destruct (String.eqb (category r) c) eqn:E; cbn [andb]; [|reflexivity].
    apply String.eqb_eq in E. subst c. rewrite L.
    now rewrite (lookup_set _ string_eqb_eq).
  - rewrite !(lookup_set _ string_eqb_eq).
    destruct (String.eqb (category r) c) eqn:E; cbn [andb]; [|reflexivity].
    apply String.eqb_eq in E. subst c. rewrite L.
    rewrite (lookup_set _ string_eqb_eq).
    destruct (String.eqb lbl l); [reflexivity|]. cbn.
    destruct (String.eqb l "category") eqn:X; [|reflexivity].
    apply String.eqb_eq in X. contradiction.
Qed.

Lemma pivotStep_keyed (lbl : string) (m : list (string * PivotRow))
  (r : CategoryResult) :
  lbl <> "category" -> rowsKeyed m -> rowsKeyed (pivotStep lbl m r).
Proof.
  intros Hl Hk. unfold pivotStep.
  destruct (lookup String.eqb (category r) m) as [row|] eqn:L;
    intros k row' H; apply In_set in H as [[-> ->]|H].
  - rewrite (lookup_set_other _ string_eqb_eq); [|exact Hl].
    apply Hk. now apply (In_lookup _ string_eqb_eq).
  - now apply Hk.
  - rewrite (lookup_set_other _ string_eqb_eq); [|exact Hl]. reflexivity.
  - apply In_set in H as [[-> ->]|H]; [reflexivity | now apply Hk].
Qed.

Lemma pivot_fold_cell (evs : list (string * CategoryResult)) (c l : string) :
  l <> "category" ->
  forall m,
    cellOf (fold_left pivotEvent evs m) c l =
    match lastWrite c l evs with
    | Some v => Some (PNum v)
    | None => cellOf m c l
    end.
Proof.
  intro Hl. induction evs as [|[lbl r] evs IH]; intro m; [reflexivity|].
  cbn [fold_left lastWrite]. rewrite IH.
  destruct (lastWrite c l evs); [reflexivity|].
  unfold pivotEvent. cbn [fst snd]. rewrite pivotStep_cell by exact Hl.
  destruct (String.eqb (category r) c && String.eqb lbl l); reflexivity.
Qed.

Lemma pivot_fold_keyed (evs : list (string * CategoryResult)) :
  Forall (fun e => fst e <> "category") evs ->
  forall m, rowsKeyed m -> rowsKeyed (fold_left pivotEvent evs m).
Proof.
  induction 1 as [|e evs He _ IH]; intros m Hm; [exact Hm|].
  cbn. apply IH. now apply pivotStep_keyed.
Qed.

Lemma fold_left_labelled (lbl : string) (rs : list CategoryResult) :
  forall m, fold_left pivotEvent (map (pair lbl) rs) m
            = fold_left (pivotStep lbl) rs m.
Proof. induction rs as [|r rs IH]; intro m; [reflexivity | apply IH]. Qed.

(** The loop over the sources is the sequence of its writes. *)
Lemma pivot_loop_events (ss : list DataSource) (rss : list (list CategoryResult)) :
  flattensTo ss rss ->
  forall m, forOf pivotSource ss m
            = OK (fold_left pivotEvent (pivotEvents ss rss) m).
Proof.
  induction 1 as [|s rs ss rss Hs _ IH]; intro m; [reflexivity|].
  cbn [forOf]. unfold pivotSource at 1. rewrite Hs. cbn [bind].
  rewrite IH. unfold pivotEvents. cbn [combine map concat fst snd].
  now rewrite fold_left_app, fold_left_labelled.
Qed.

Lemma pivotEvents_labels (ss : list DataSource) (rss : list (list CategoryResult)) :
  Forall (fun e => fst e <> "category") (pivotEvents ss rss).
Proof.
  unfold pivotEvents. revert rss.
  induction ss as [|s ss IH]; intros [|rs rss]; cbn; try constructor.
  apply Forall_app. split; [|apply IH].
  apply Forall_forall. intros e H. apply in_map_iff in H as [r [<- _]].
  apply sourceLabel_not_category.
Qed.

Lemma pivotRowOf_lookup (m : list (string * PivotRow)) (c : string) :
  rowsKeyed m -> pivotRowOf (map snd m) c = lookup String.eqb c m.
Proof.
  unfold pivotRowOf. induction m as [|[k row] m IH]; intro Hk; [reflexivity|].
  cbn [map snd find lookup].
  rewrite (Hk k row (or_introl eq_refl)).
  destruct (String.eqb c k); [reflexivity|].
  apply IH. intros k' row' H. apply Hk. now right.
Qed.

(** The table returns when every source flattens, and each of its cells is
    the last write at its coordinate. *)
Lemma pivot_last_write (ss : list DataSource) (rss : list (list CategoryResult)) :
  flattensTo ss rss ->
  exists rows, buildPivotTable ss = OK rows
    /\ forall c l, l <> "category" ->
         pivotCell rows c l =
         option_map PNum (lastWrite c l (pivotEvents ss rss)).
Proof.
  intro F. unfold buildPivotTable. rewrite (pivot_loop_events _ _ F). cbn [bind].
  eexists. split; [reflexivity|]. intros c l Hl.
  assert (K : rowsKeyed (fold_left pivotEvent (pivotEvents ss rss) []))
    by (apply pivot_fold_keyed; [apply pivotEvents_labels | intros ? ? []]).
  unfold pivotCell. rewrite (pivotRowOf_lookup _ _ K).
  pose proof (pivot_fold_cell (pivotEvents ss rss) c l Hl []) as P.
  unfold cellOf in P at 1. rewrite P. cbn.
  destruct (lastWrite c l (pivotEvents ss rss)); reflexivity.
Qed.

Lemma lastWrite_app (c l : string) (e1 e2 : list (string * CategoryResult)) :
  lastWrite c l (e1 ++ e2) =
  match lastWrite c l e2 with
  | Some v => Some v
  | None => lastWrite c l e1
  end.
Proof.
  induction e1 as [|[l1 r1] e1 IH]; cbn [app lastWrite].
  - destruct (lastWrite c l e2); reflexivity.
  - rewrite IH. destruct (lastWrite c l e2); reflexivity.
Qed.

Lemma lastWrite_absent (c l lbl : string) (rs : list CategoryResult) :
  (forall r, In r rs -> category r <> c) ->
  lastWrite c l (map (pair lbl) rs) = None.
Proof.
  induction rs as [|r rs IH]; intro H; [reflexivity|].
  cbn [map lastWrite]. rewrite IH by (intros; apply H; now right).
  rewrite (eqb_neq _ string_eqb_eq); [reflexivity|]. apply H. now left.
Qed.

(** C3: the label of a source is its model name, " (variance)" unless the
    variance is "default", " @ ", the timestamp and " (Official)" for an
    official source; for every list of sources that flatten, the table is
    returned and each of its cells holds the value of the last write at its
    (category, label) coordinate; in particular, when two sources have the
    same label and the later one has a result of category [c], that cell
    holds the later source's accuracy_mean. *)
Theorem buildPivotTable_last_write_wins :
  (forall s : DataSource,
     sourceLabel s =
     (modelName s
      ++ (if String.eqb (variance s) "default" then EmptyString
          else " (" ++ variance s ++ ")")
      ++ " @ " ++ timestamp s
      ++ (if isOfficial s then " (Official)" else EmptyString))%string)
  /\ sourceLabel (sourceOf "1" "gpt" "default" "2024" false JNull) = "gpt @ 2024"
  /\ sourceLabel (sourceOf "2" "gpt" "low" "2024" true JNull)
     = "gpt (low) @ 2024 (Official)"
  /\ (forall ss rss,
        flattensTo ss rss ->
        exists rows, buildPivotTable ss = OK rows
          /\ forall c l, l <> "category" ->
               pivotCell rows c l =
               option_map PNum (lastWrite c l (pivotEvents ss rss)))
  /\ (forall s1 s2 rs1 pre r2 post,
        flattenDatasetResults (rawData s1) = OK rs1 ->
        flattenDatasetResults (rawData s2) = OK (pre ++ r2 :: post) ->
        sourceLabel s1 = sourceLabel s2 ->
        (forall r, In r post -> category r <> category r2) ->
        exists rows, buildPivotTable [s1; s2] = OK rows
          /\ pivotCell rows (category r2) (sourceLabel s1)
             = Some (PNum (accuracy_mean r2))).
Proof.
  split.
  { intro s. unfold sourceLabel, varianceLabel.
    destruct (String.eqb (variance s) "default"); reflexivity. }
  split; [reflexivity|]. split; [reflexivity|].
  split; [exact pivot_last_write|].
  intros s1 s2 rs1 pre r2 post H1 H2 HL Hpost.
  assert (F : flattensTo [s1; s2] [rs1; pre ++ r2 :: post])
    by (repeat constructor; assumption).
  destruct (pivot_last_write _ _ F) as [rows [Hrows Hcell]].
  exists rows. split; [exact Hrows|].
  rewrite Hcell by apply sourceLabel_not_category.
  unfold pivotEvents. cbn [combine map concat fst snd].
  rewrite app_nil_r, lastWrite_app, map_app, lastWrite_app. cbn [map].
  change (pair (sourceLabel s2) r2 :: map (pair (sourceLabel s2)) post)
    with ([pair (sourceLabel s2) r2] ++ map (pair (sourceLabel s2)) post).
  rewrite lastWrite_app, (lastWrite_absent _ _ _ _ Hpost).
  cbn [lastWrite]. rewrite String.eqb_refl, HL, String.eqb_refl. reflexivity.
Qed.

Lemma buildPivotTable_last_write_wins_witness :
  exists rows,
    buildPivotTable
      [ sourceOf "1" "gpt" "default" "2024" false
          (documentOf [("cais__mmlu", [entryOf "algebra_test.json" (1 # 4)])]);
        sourceOf "2" "gpt" "default" "2024" false
          (documentOf [("cais__mmlu", [entryOf "algebra_test.json" (3 # 4)])]) ]
    = OK rows
    /\ pivotCell rows "mmlu/algebra" "gpt @ 2024" = Some (PNum (3 # 4)).
Proof.
  apply (proj2 (proj2 (proj2 (proj2 buildPivotTable_last_write_wins)))
           (sourceOf "1" "gpt" "default" "2024" false
              (documentOf [("cais__mmlu", [entryOf "algebra_test.json" (1 # 4)])]))
           (sourceOf "2" "gpt" "default" "2024" false
              (documentOf [("cais__mmlu", [entryOf "algebra_test.json" (3 # 4)])]))
           [ {| category := "mmlu/algebra"; file := "algebra_test.json";
                accuracy_mean := 1 # 4; accuracy_std := JUndefined |} ]
           []
           {| category := "mmlu/algebra"; file := "algebra_test.json";
              accuracy_mean := 3 # 4; accuracy_std := JUndefined |}
           []).
  - reflexivity.
  - reflexivity.
  - reflexivity.
  - intros r [].
Defined.

(** ** Ranking Aggregator *)

Lemma set_set {V : Type} (k : string) (v v' : V) (m : list (string * V)) :
  has String.eqb k m = false ->
  set String.eqb k v' (set String.eqb k v m) = set String.eqb k v' m.
Proof.
  unfold has. induction m as [|[k0 v0] m IH]; cbn.
  - now rewrite String.eqb_refl.
  - destruct (String.eqb k k0) eqn:E; [discriminate|].
    intro H. cbn. rewrite E. now rewrite IH.
Qed.

Lemma rankStep_writes (src : DataSource) (m : list (string * BenchmarkEntry))
  (r : CategoryResult) :
  rankStep src m r = rankStepWrites src m r.
Proof.
  unfold rankStep, rankStepWrites.
  set (b := extractBenchmarkName (category r)).
  set (t := extractTestName (category r)).
  assert (X : forall be m1,
    lookup String.eqb b m1 = Some be ->
    match lookup String.eqb b m1 with
    | None => m1
    | Some benchmarkEntry =>
        match
          lookup String.eqb (id src)
            (if has String.eqb (id src) (modelData benchmarkEntry)
             then modelData benchmarkEntry
             else set String.eqb (id src) {| source := src; scores := [] |}
                      (modelData benchmarkEntry))
        with
        | None => m1
        | Some modelEntry =>
            set String.eqb b
              {| testNames := add String.eqb t (testNames benchmarkEntry);
                 modelData :=
                   set String.eqb (id src)
                     {| source := source modelEntry;
                        scores := set String.eqb t (accuracy_mean r)
                                      (scores modelEntry) |}
                     (if has String.eqb (id src) (modelData benchmarkEntry)
                      then modelData benchmarkEntry
                      else set String.eqb (id src)
                               {| source := src; scores := [] |}
                               (modelData benchmarkEntry)) |}
              m1
        end
    end =
    set String.eqb b
      {| testNames := add String.eqb t (testNames be);
         modelData :=
           set String.eqb (id src)
             {| source := source
                  match lookup String.eqb (id src) (modelData be) with
                  | Some me => me
                  | None => {| source := src; scores := [] |}
                  end;
                scores := set String.eqb t (accuracy_mean r)
                  (scores
                     match lookup String.eqb (id src) (modelData be) with
                     | Some me => me
                     | None => {| source := src; scores := [] |}
                     end) |}
             (modelData be) |}
      m1).
  { intros be m1 L. rewrite L. unfold has.
    destruct (lookup String.eqb (id src) (modelData be)) as [me|] eqn:Lm.
    - rewrite Lm. reflexivity.
    - rewrite (lookup_set_same _ string_eqb_eq).
      rewrite set_set by (unfold has; now rewrite Lm). reflexivity. }
  unfold has. destruct (lookup String.eqb b m) as [be|] eqn:L.
  - now apply X.
  - rewrite (X {| testNames := []; modelData := [] |}).
    + apply set_set. unfold has. now rewrite L.
    + apply (lookup_set_same _ string_eqb_eq).
Qed.

Lemma In_add (k x : string) (s : list string) :
  In x (add String.eqb k s) <-> x = k \/ In x s.
Proof.
  induction s as [|y s IH]; cbn.
  - intuition.
  - destruct (String.eqb k y) eqn:E; cbn.
    + apply String.eqb_eq in E. subst. intuition.
    + rewrite IH. intuition.
Qed.

Lemma add_NoDup (k : string) (s : list string) :
  NoDup s -> NoDup (add String.eqb k s).
Proof.
  induction s as [|y s IH]; cbn; intro H.
  - constructor; [intros [] | constructor].
  - destruct (String.eqb k y) eqn:E; [exact H|].
    inversion H; subst. constructor; [|now apply IH].
    rewrite In_add. intros [X|X]; [|contradiction].
    subst. rewrite String.eqb_refl in E. discriminate.
Qed.

Lemma set_nonempty {V : Type} (k : string) (v : V) (m : list (string * V)) :
  set String.eqb k v m <> [].
Proof. destruct m as [|[k0 v0] m]; cbn; [|destruct (String.eqb k k0)]; discriminate. Qed.

Lemma keys_set_incl {V : Type} (k : string) (v : V) (m : list (string * V))
  (names : list string) :
  incl (map fst m) names ->
  incl (map fst (set String.eqb k v m)) (add String.eqb k names).
Proof.
  intros H x Hx. rewrite keys_set in Hx. apply In_add.
  destruct (has String.eqb k m).
  - right. now apply H.
  - apply in_app_or in Hx as [Hx|[Hx|[]]]; [right; now apply H | now left].
Qed.

Lemma goodBench_empty : goodBench {| testNames := []; modelData := [] |}.
Proof.
  unfold goodBench. cbn.
  split; [constructor | split; [constructor | intros ? ? []]].
Qed.

Lemma rankStep_good (src : DataSource) (m : list (string * BenchmarkEntry))
  (r : CategoryResult) :
  goodMap m -> goodMap (rankStep src m r).
Proof.
  intros [ND G]. rewrite rankStep_writes. unfold rankStepWrites.
  set (b := extractBenchmarkName (category r)).
  set (t := extractTestName (category r)).
  set (be := match lookup String.eqb b m with
             | Some be => be
             | None => {| testNames := []; modelData := [] |}
             end).
  set (me := match lookup String.eqb (id src) (modelData be) with
             | Some me => me
             | None => {| source := src; scores := [] |}
             end).
  assert (Gbe : goodBench be).
  { unfold be. destruct (lookup String.eqb b m) as [x|] eqn:L.
    - apply (G b). now apply (In_lookup _ string_eqb_eq).
    - apply goodBench_empty. }
  destruct Gbe as [Nn [Nk Gm]].
  assert (Gme : NoDup (map fst (scores me)) /\ incl (map fst (scores me)) (testNames be)).
  { unfold me. destruct (lookup String.eqb (id src) (modelData be)) as [x|] eqn:L.
    - apply (In_lookup _ string_eqb_eq) in L. destruct (Gm _ _ L) as [_ [A B]].
      now split.
    - cbn. split; [constructor | intros ? []]. }
  destruct Gme as [Ns Is].
  split; [now apply (keys_set_NoDup _ string_eqb_eq)|].
  intros b0 be0 H. apply In_set in H as [[-> ->]|H]; [|now apply (G b0)].
  split; [now apply add_NoDup|]. cbn [testNames modelData].
  split; [now apply (keys_set_NoDup _ string_eqb_eq)|].
  intros i me0 H. apply In_set in H as [[-> ->]|H].
  - split; [apply set_nonempty|]. cbn [scores].
    split; [now apply (keys_set_NoDup _ string_eqb_eq) | now apply keys_set_incl].
  - destruct (Gm _ _ H) as [A [B C]]. split; [exact A|]. split; [exact B|].
    intros x Hx. apply In_add. right. now apply C.
Qed.

Lemma rankStep_scoresAt (src : DataSource) (m : list (string * BenchmarkEntry))
  (r : CategoryResult) (b i : string) :
  scoresAt (rankStep src m r) b i =
  if rankHits b i (src, r)
  then Some (set String.eqb (extractTestName (category r)) (accuracy_mean r)
                 (orEmpty (scoresAt m b i)))
  else scoresAt m b i.
Proof.
  rewrite rankStep_writes. unfold rankStepWrites, scoresAt, rankHits.
  cbn [fst snd]. rewrite (lookup_set _ string_eqb_eq).
  destruct (String.eqb (extractBenchmarkName (category r)) b) eqn:E;
    cbn [andb]; [|reflexivity].
  apply String.eqb_eq in E. subst b. cbn [modelData].
  rewrite (lookup_set _ string_eqb_eq).
  destruct (lookup String.eqb (extractBenchmarkName (category r)) m) as [be|];
    cbn [modelData].
  - destruct (String.eqb (id src) i) eqn:E; [|reflexivity].
    apply String.eqb_eq in E. subst i.
    destruct (lookup String.eqb (id src) (modelData be)); reflexivity.
  - destruct (String.eqb (id src) i); reflexivity.
Qed.

Lemma rank_fold_good (evs : list (DataSource * CategoryResult)) :
  forall m, goodMap m -> goodMap (fold_left rankEvent evs m).
Proof.
  induction evs as [|e evs IH]; intros m G; [exact G|].
  cbn. apply IH. now apply rankStep_good.
Qed.

Lemma rank_fold_scoresAt (evs : list (DataSource * CategoryResult)) (b i : string) :
  forall m,
    scoresAt (fold_left rankEvent evs m) b i =
    fold_left
      (fun sc e =>
         if rankHits b i e
         then Some (set String.eqb (extractTestName (category (snd e)))
                        (accuracy_mean (snd e)) (orEmpty sc))
         else sc)
      evs (scoresAt m b i).
Proof.
  induction evs as [|[src r] evs IH]; intro m; [reflexivity|].
  cbn [fold_left]. rewrite IH. unfold rankEvent at 1. cbn [fst snd].
  now rewrite rankStep_scoresAt.
Qed.

Lemma fold_left_sourced (src : DataSource) (rs : list CategoryResult) :
  forall m, fold_left rankEvent (map (pair src) rs) m
            = fold_left (rankStep src) rs m.
Proof. induction rs as [|r rs IH]; intro m; [reflexivity | apply IH]. Qed.

(** The first pass over the sources is the sequence of its steps. *)
Lemma rank_loop_events (ss : list DataSource) (rss : list (list CategoryResult)) :
  flattensTo ss rss ->
  forall m, forOf rankSource ss m
            = OK (fold_left rankEvent (rankEvents ss rss) m).
Proof.
  induction 1 as [|s rs ss rss Hs _ IH]; intro m; [reflexivity|].
  cbn [forOf]. unfold rankSource at 1. rewrite Hs. cbn [bind].
  rewrite IH. unfold rankEvents. cbn [combine map concat fst snd].
  now rewrite fold_left_app, fold_left_sourced.
Qed.

Lemma insertSorted_perm {A : Type} (le : A -> A -> bool) (x : A) (l : list A) :
  Permutation (insertSorted le x l) (x :: l).
Proof.
  induction l as [|y l IH]; cbn; [reflexivity|].
  destruct (le x y); [reflexivity|].
  rewrite IH. apply perm_swap.
Qed.

(** Sorting rearranges and nothing else. *)
Lemma sortBy_perm {A : Type} (le : A -> A -> bool) (l : list A) :
  Permutation (sortBy le l) l.
Proof.
  induction l as [|x l IH]; cbn; [reflexivity|].
  rewrite insertSorted_perm. now constructor.
Qed.







(** A field of a row other than [average]: the score of the test of that
    name when the source has one, otherwise what the object literal set;
    [__proto__] is never an own property. *)
Lemma score_fold_cells (sc : list (string * Q)) (tests : list string) :
  forall row tot cnt row' tot' cnt' k,
    lookup String.eqb "__proto__" row = None ->
    fold_left (scoreStep sc) tests (row, tot, cnt) = (row', tot', cnt') ->
    lookup String.eqb k row' =
    if String.eqb k "__proto__" then None
    else if existsb (String.eqb k) tests && has String.eqb k sc
         then option_map (fun q => RNum (toNumber q)) (lookup String.eqb k sc)
         else lookup String.eqb k row.
Proof.
  induction tests as [|t tests IH]; intros row tot cnt row' tot' cnt' k Np H.
  - cbn in H. inversion H; subst row'. cbn [existsb andb].
    destruct (String.eqb k "__proto__") eqn:E; [|reflexivity].
    apply String.eqb_eq in E. now subst k.
  - cbn [fold_left] in H. unfold scoreStep at 2 in H. cbn [existsb].
    destruct (lookup String.eqb t sc) as [v|] eqn:L.
    + unfold assignCell in H. unfold has in H at 1.
      destruct (String.eqb t "__proto__") eqn:Et.
      * apply String.eqb_eq in Et. subst t. rewrite Np in H. cbn [negb andb] in H.
        rewrite (IH _ _ _ _ _ _ k Np H).
        destruct (String.eqb k "__proto__") eqn:Ek; reflexivity.
      * cbn [andb] in H.
        assert (Np' : lookup String.eqb "__proto__"
                        (set String.eqb t (RNum (toNumber v)) row) = None).
        { rewrite (lookup_set_other _ string_eqb_eq); [exact Np|].
          intro X. subst t. discriminate Et. }
        rewrite (IH _ _ _ _ _ _ k Np' H).
        destruct (String.eqb k "__proto__"); [reflexivity|].
        rewrite (lookup_set _ string_eqb_eq), (String.eqb_sym t k).
        destruct (String.eqb k t) eqn:E.
        -- apply String.eqb_eq in E. subst k. unfold has. rewrite L.
           cbn [orb andb option_map]. rewrite andb_true_r.
           destruct (existsb (String.eqb t) tests); reflexivity.
        -- reflexivity.
    + rewrite (IH _ _ _ _ _ _ k Np H).
      destruct (String.eqb k "__proto__"); [reflexivity|].
      destruct (String.eqb k t) eqn:E; [|reflexivity].
      apply String.eqb_eq in E. subst k. unfold has. rewrite L.
      now rewrite !andb_false_r.
Qed.

Lemma existsb_eqb_true (k : string) (l : list string) :
  In k l -> existsb (String.eqb k) l = true.
Proof. intro H. apply existsb_exists. exists k. now rewrite String.eqb_refl. Qed.

Lemma rankRow_field (b : string) (names tests : list string) (me : ModelEntry)
  (k : string) :
  goodModel names me -> Permutation tests names -> k <> "average" ->
  lookup String.eqb k (rankRow b tests me)
  = if String.eqb k "__proto__" then None
    else match lookup String.eqb k (scores me) with
         | Some q => Some (RNum (toNumber q))
         | None => lookup String.eqb k (rowFields b (source me))
         end.
Proof.
  intros [_ [_ I]] P Hk. unfold rankRow.
  match goal with
  | |- context [fold_left ?f tests ?a] =>
      destruct (fold_left f tests a) as [[row' tot'] cnt'] eqn:F
  end.
  rewrite (lookup_set_other _ string_eqb_eq) by congruence.
  rewrite (fun Np => score_fold_cells _ _ _ _ _ _ _ _ k Np F) by reflexivity.
  destruct (String.eqb k "__proto__"); [reflexivity|].
  destruct (lookup String.eqb k (scores me)) as [v|] eqn:L.
  - assert (In k tests).
    { apply (Permutation_in _ (Permutation_sym P)). apply I.
      apply (In_lookup _ string_eqb_eq) in L.
      now apply (in_map fst) in L. }
    rewrite (existsb_eqb_true _ _ H). unfold has. rewrite L. reflexivity.
  - unfold has. rewrite L, andb_false_r. reflexivity.
Qed.

(** A cell of a row under a key that is not one of the fixed fields. *)
Lemma rankRow_cell (b : string) (names tests : list string) (me : ModelEntry)
  (t : string) :
  goodModel names me -> Permutation tests names -> ~ In t fixedFields ->
  lookup String.eqb t (rankRow b tests me)
  = if String.eqb t "__proto__" then None
    else option_map (fun q => RNum (toNumber q))
                    (lookup String.eqb t (scores me)).
Proof.
  intros G P Ht.
  rewrite (rankRow_field b names tests me t G P)
    by (intro X; apply Ht; rewrite X; cbn; tauto).
  destruct (String.eqb t "__proto__"); [reflexivity|].
  destruct (lookup String.eqb t (scores me)); [reflexivity|].
  assert (N : forall f, In f fixedFields -> String.eqb t f = false).
  { intros f Hf. apply (eqb_neq _ string_eqb_eq). intro X. now subst f. }
  cbn [rowFields lookup option_map].
  repeat rewrite N by (cbn; tauto).
  reflexivity.
Qed.

(** The [key] of a row names the benchmark and the id of the source of its
    model entry, unless a test named [key] has put its score there. *)
Lemma rankRow_key (b : string) (names tests : list string) (me : ModelEntry) :
  goodModel names me -> Permutation tests names ->
  lookup String.eqb "key" (rankRow b tests me)
  = Some match lookup String.eqb "key" (scores me) with
         | Some q => RNum (toNumber q)
         | None => RStr (b ++ "-" ++ id (source me))
         end.
Proof.
  intros G P.
  rewrite (rankRow_field b names tests me "key" G P) by discriminate.
  cbn [String.eqb Ascii.eqb Bool.eqb].
  now destruct (lookup String.eqb "key" (scores me)).
Qed.

Lemma rankStep_owned (src : DataSource) (m : list (string * BenchmarkEntry))
  (r : CategoryResult) :
  ownedMap m -> ownedMap (rankStep src m r).
Proof.
  intro O. rewrite rankStep_writes. unfold rankStepWrites.
  set (b := extractBenchmarkName (category r)).
  set (be := match lookup String.eqb b m with
             | Some be => be
             | None => {| testNames := []; modelData := [] |}
             end).
  assert (Obe : forall i me, In (i, me) (modelData be) -> id (source me) = i).
  { unfold be. destruct (lookup String.eqb b m) as [x|] eqn:L.
    - intros i me. apply (O b). now apply (In_lookup _ string_eqb_eq).
    - intros i me []. }
  intros b0 be0 i me0 H Hm.
  apply In_set in H as [[-> ->]|H]; [|now apply (O b0 be0)].
  cbn [modelData] in Hm.
  apply In_set in Hm as [[-> ->]|Hm]; [|now apply Obe].
  cbn [source].
  destruct (lookup String.eqb (id src) (modelData be)) as [x|] eqn:L;
    [|reflexivity].
  apply Obe. now apply (In_lookup _ string_eqb_eq).
Qed.

Lemma rank_fold_owned (evs : list (DataSource * CategoryResult)) :
  forall m, ownedMap m -> ownedMap (fold_left rankEvent evs m).
Proof.
  induction evs as [|e evs IH]; intros m O; [exact O|].
  cbn. apply IH. now apply rankStep_owned.
Qed.

Lemma Forall2_map_keys {K V B : Type} (R : K -> B -> Prop) (f : K * V -> B)
  (l : list (K * V)) :
  (forall kv, In kv l -> R (fst kv) (f kv)) -> Forall2 R (map fst l) (map f l).
Proof.
  induction l as [|kv l IH]; intro H; cbn; constructor.
  - apply H. now left.
  - apply IH. intros kv' Hk. apply H. now right.
Qed.

Lemma presentScores_scoresAt (evs : list (DataSource * CategoryResult))
  (b i : string) :
  presentScores evs b i = scoresAt (fold_left rankEvent evs []) b i.
Proof. now rewrite rank_fold_scoresAt. Qed.




(** ** Category dashboard *)

Lemma group_keys_NoDup (rs : list CategoryResult) :
  NoDup (map fst (groupByCategory rs)).
Proof. apply group_fold_NoDup. constructor. Qed.

Lemma group_bucket_filter (rs : list CategoryResult) (k : CategoryKey)
  (b : list CategoryResult) :
  In (k, b) (groupByCategory rs) -> b = filter (inBucket k) rs.
Proof.
  intro H. apply (lookup_In _ CategoryKey_eqb_eq) in H; [|apply group_keys_NoDup].
  unfold groupByCategory in H. rewrite group_fold_lookup in H.
  unfold pushed in H. cbn [lookup] in H.
  destruct (filter (inBucket k) rs); [discriminate | now inversion H].
Qed.

Lemma group_bucket_exists (rs : list CategoryResult) (r : CategoryResult) :
  In r rs ->
  In (categorizeTest (category r),
      filter (inBucket (categorizeTest (category r))) rs)
     (groupByCategory rs).
Proof.
  intro Hr. apply (In_lookup _ CategoryKey_eqb_eq).
  unfold groupByCategory. rewrite group_fold_lookup. unfold pushed. cbn [lookup].
  destruct (filter (inBucket (categorizeTest (category r))) rs) eqn:F;
    [|reflexivity].
  exfalso. assert (X : In r (filter (inBucket (categorizeTest (category r))) rs)).
  { apply filter_In. split; [exact Hr|]. unfold inBucket.
    now apply CategoryKey_eqb_eq. }
  rewrite F in X. contradiction.
Qed.

Lemma forOf_app {A S : Type} (body : S -> A -> result S) (l1 l2 : list A) (s : S) :
  forOf body (l1 ++ l2) s = bind (forOf body l1 s) (forOf body l2).
Proof.
  revert s. induction l1 as [|x l1 IH]; intro s; [reflexivity|].
  cbn. destruct (body s x); cbn; [apply IH | reflexivity].
Qed.

(** A loop whose steps keep an observation keeps it. *)
Lemma forOf_keeps {A S O : Type} (body : S -> A -> result S) (obs : S -> O)
  (quiet : A -> Prop) :
  (forall s x s', quiet x -> body s x = OK s' -> obs s' = obs s) ->
  forall l s s', Forall quiet l -> forOf body l s = OK s' -> obs s' = obs s.
Proof.
  intro Hb. induction l as [|x l IH]; intros s s' F H; cbn in H.
  - now inversion H.
  - inversion F as [|? ? Qx Ql]; subst.
    apply bind_OK in H as [s1 [B1 B2]].
    rewrite (IH _ _ Ql B2). now apply (Hb _ x).
Qed.

Lemma find_updateFirst_same {A : Type} (p : A -> bool) (f : A -> A) (l : list A) :
  (forall x, p (f x) = p x) ->
  find p (updateFirst p f l) = option_map f (find p l).
Proof.
  intro Hf. induction l as [|x l IH]; [reflexivity|]. cbn.
  destruct (p x) eqn:E; cbn.
  - now rewrite Hf, E.
  - now rewrite E.
Qed.

Lemma find_updateFirst_other {A : Type} (p q : A -> bool) (f : A -> A)
  (l : list A) :
  (forall x, q (f x) = q x) -> (forall x, p x = true -> q x = false) ->
  find q (updateFirst p f l) = find q l.
Proof.
  intros Hf Hd. induction l as [|x l IH]; [reflexivity|]. cbn.
  destruct (p x) eqn:E; cbn.
  - rewrite Hf, (Hd x E). reflexivity.
  - now rewrite IH.
Qed.

Lemma find_app_last {A : Type} (q : A -> bool) (l : list A) (x : A) :
  find q (l ++ [x]) =
  match find q l with
  | Some y => Some y
  | None => if q x then Some x else None
  end.
Proof.
  induction l as [|y l IH]; cbn; [reflexivity|].
  destruct (q y); [reflexivity | exact IH].
Qed.

Section DashboardFacts.
Variables mathMin mathMax : list JsValue -> Q.

(** After its step, the test of a result holds the statistics of that
    result under the key of its source. *)
Lemma testStep_own (sid : string) (ds : list (string * JsValue))
  (tests tests' : list TestEntry) (r : CategoryResult) :
  testStep mathMin mathMax sid ds tests r = OK tests' ->
  exists range,
    runRange mathMin mathMax ds r (accuracy_mean r, accuracy_mean r) = OK range
    /\ valueAt tests' (testNameOf r) sid
       = Some {| avg := accuracy_mean r; min := fst range; max := snd range |}.
Proof.
  unfold testStep. fold (testNameOf r). intro H.
  apply bind_OK in H as [range [Hr H]]. exists range. split; [exact Hr|].
  inversion H; subst tests'. clear H. unfold valueAt.
  rewrite find_updateFirst_same by reflexivity.
  destruct (find (fun t => String.eqb (testName t) (testNameOf r)) tests)
    as [t|] eqn:F.
  - rewrite F. cbn [option_map values].
    apply (lookup_set_same _ string_eqb_eq).
  - rewrite find_app_last, F. cbn [testName]. rewrite String.eqb_refl.
    cbn [option_map values set lookup]. now rewrite String.eqb_refl.
Qed.

(** The step of a result leaves the tests of other names as they are. *)
Lemma testStep_other (sid : string) (ds : list (string * JsValue))
  (tests tests' : list TestEntry) (r : CategoryResult) (name sid' : string) :
  testStep mathMin mathMax sid ds tests r = OK tests' ->
  testNameOf r <> name ->
  valueAt tests' name sid' = valueAt tests name sid'.
Proof.
  unfold testStep. fold (testNameOf r). intros H N.
  apply bind_OK in H as [range [_ H]]. inversion H; subst tests'. clear H.
  unfold valueAt.
  rewrite find_updateFirst_other.
  - destruct (find (fun t => String.eqb (testName t) (testNameOf r)) tests);
      [reflexivity|].
    rewrite find_app_last. cbn [testName].
    rewrite (eqb_neq _ string_eqb_eq _ _ N).
    destruct (find (fun t => String.eqb (testName t) name) tests); reflexivity.
  - reflexivity.
  - intros x Hx. apply String.eqb_eq in Hx. rewrite Hx.
    now apply (eqb_neq _ string_eqb_eq).
Qed.

(** The last result of a given test name in a bucket decides the entry. *)
Lemma testSteps_last (sid : string) (ds : list (string * JsValue))
  (pre post : list CategoryResult) (r : CategoryResult)
  (tests tests' : list TestEntry) :
  forOf (testStep mathMin mathMax sid ds) (pre ++ r :: post) tests = OK tests' ->
  Forall (fun r' => testNameOf r' <> testNameOf r) post ->
  exists range,
    runRange mathMin mathMax ds r (accuracy_mean r, accuracy_mean r) = OK range
    /\ valueAt tests' (testNameOf r) sid
       = Some {| avg := accuracy_mean r; min := fst range; max := snd range |}.
Proof.
  intros H Hpost. rewrite forOf_app in H.
  apply bind_OK in H as [t1 [_ H]]. cbn [forOf] in H.
  apply bind_OK in H as [t2 [H2 H3]].
  destruct (testStep_own _ _ _ _ _ H2) as [range [Hr Hv]].
  exists range. split; [exact Hr|]. rewrite <- Hv.
  apply (forOf_keeps (testStep mathMin mathMax sid ds)
           (fun ts => valueAt ts (testNameOf r) sid)
           (fun r' => testNameOf r' <> testNameOf r)) with (l := post);
    [|exact Hpost | exact H3].
  intros s x s' Q Hx. now apply (testStep_other _ _ _ _ _ _ _ Hx).
Qed.

Lemma categoryStep_own (sid : string) (ds : list (string * JsValue))
  (cats cats' : list (CategoryKey * list TestEntry)) (k : CategoryKey)
  (bucket : list CategoryResult) :
  categoryStep mathMin mathMax sid ds cats (k, bucket) = OK cats' ->
  exists tests0 tests',
    forOf (testStep mathMin mathMax sid ds) bucket tests0 = OK tests'
    /\ lookup CategoryKey_eqb k cats' = Some tests'.
Proof.
  unfold categoryStep, has.
  destruct (lookup CategoryKey_eqb k cats) as [tests0|] eqn:L.
  - rewrite L. intro H. apply bind_OK in H as [tests' [H1 H2]].
    inversion H2. exists tests0, tests'. split; [exact H1|].
    apply (lookup_set_same _ CategoryKey_eqb_eq).
  - rewrite (lookup_set_same _ CategoryKey_eqb_eq). intro H.
    apply bind_OK in H as [tests' [H1 H2]].
    inversion H2. exists [], tests'. split; [exact H1|].
    apply (lookup_set_same _ CategoryKey_eqb_eq).
Qed.

Lemma categoryStep_other (sid : string) (ds : list (string * JsValue))
  (cats cats' : list (CategoryKey * list TestEntry)) (k : CategoryKey)
  (kb : CategoryKey * list CategoryResult) :
  fst kb <> k ->
  categoryStep mathMin mathMax sid ds cats kb = OK cats' ->
  lookup CategoryKey_eqb k cats' = lookup CategoryKey_eqb k cats.
Proof.
  destruct kb as [k' bucket]. cbn [fst]. intros N. unfold categoryStep, has.
  destruct (lookup CategoryKey_eqb k' cats) as [tests0|] eqn:L.
  - rewrite L. intro H. apply bind_OK in H as [tests' [_ H2]].
    inversion H2. now apply (lookup_set_other _ CategoryKey_eqb_eq).
  - rewrite (lookup_set_same _ CategoryKey_eqb_eq). intro H.
    apply bind_OK in H as [tests' [_ H2]]. inversion H2.
    now rewrite !(lookup_set_other _ CategoryKey_eqb_eq) by exact N.
Qed.

(** After a source has been processed, the entry under its key, for each of
    its results, is the one written for the last result of that test name in
    that category. *)
Lemma dashboardSource_last (cats1 cats : list (CategoryKey * list TestEntry))
  (s2 : DataSource) (pre post : list CategoryResult) (r : CategoryResult) :
  dashboardSource mathMin mathMax cats1 s2 = OK cats ->
  flattenDatasetResults (rawData s2) = OK (pre ++ r :: post) ->
  (forall r', In r' post ->
     ~ (categorizeTest (category r') = categorizeTest (category r)
        /\ testNameOf r' = testNameOf r)) ->
  exists ds range,
    runDatasets (rawData s2) = OK ds
    /\ runRange mathMin mathMax ds r (accuracy_mean r, accuracy_mean r) = OK range
    /\ testValue cats (categorizeTest (category r)) (testNameOf r)
         (getSourceIdentifier s2)
       = Some {| avg := accuracy_mean r; min := fst range; max := snd range |}.
Proof.
  intros H Hf Hpost. unfold dashboardSource in H. rewrite Hf in H. cbn [bind] in H.
  apply bind_OK in H as [dr [Hdr H]]. apply bind_OK in H as [ds [Hds H]].
  set (rs := pre ++ r :: post) in *. set (k := categorizeTest (category r)) in *.
  assert (Hin : In r rs) by (unfold rs; apply in_elt).
  pose proof (group_bucket_exists rs r Hin) as Hb. fold k in Hb.
  destruct (in_split _ _ Hb) as [g1 [g2 Hg]].
  assert (Q2 : Forall (fun kb => fst kb <> k) g2).
  { pose proof (group_keys_NoDup rs) as ND. rewrite Hg, map_app in ND.
    cbn [map fst] in ND. apply NoDup_remove_2 in ND.
    apply Forall_forall. intros kb Hkb E. apply ND. apply in_or_app. right.
    rewrite <- E. now apply in_map. }
  rewrite Hg, forOf_app in H. apply bind_OK in H as [ca [_ H]].
  cbn [forOf] in H. apply bind_OK in H as [cb [Hstep Hrest]].
  apply categoryStep_own in Hstep as [tests0 [tests' [Hloop Hlk]]].
  assert (Keep : lookup CategoryKey_eqb k cats = lookup CategoryKey_eqb k cb).
  { apply (forOf_keeps (categoryStep mathMin mathMax (getSourceIdentifier s2) ds)
             (lookup CategoryKey_eqb k) (fun kb => fst kb <> k))
      with (l := g2); [|exact Q2 | exact Hrest].
    intros s x s' Qx Hx. now apply (categoryStep_other _ _ _ _ _ _ Qx Hx). }
  assert (Ek : inBucket k r = true)
    by (unfold inBucket, k; now apply CategoryKey_eqb_eq).
  unfold rs in Hloop. rewrite filter_app in Hloop. cbn [filter] in Hloop.
  rewrite Ek in Hloop.
  destruct (testSteps_last _ _ _ _ _ _ _ Hloop) as [range [Hr Hv]].
  { apply Forall_forall. intros r' Hr' E. apply filter_In in Hr' as [Hr' Kr'].
    apply (Hpost r' Hr'). split; [|exact E].
    unfold inBucket in Kr'. now apply CategoryKey_eqb_eq in Kr'. }
  exists ds, range. split.
  { unfold runDatasets. rewrite Hdr. cbn [bind]. exact Hds. }
  split; [exact Hr|].
  unfold testValue. rewrite Keep, Hlk. exact Hv.
Qed.

End DashboardFacts.

(** C10: getSourceIdentifier is the model name, followed by "-" and the
    variance unless the variance is "default"; it reads no other field, so
    two sources with the same model name and variance get the same
    identifier whatever their id, provider and timestamp; and in the value
    map of a test of the category dashboard the entry under that identifier
    is the one written by the later source: its accuracy_mean with the
    minimum and maximum found for it, in place of what an earlier source
    with the same identifier had written. *)
Theorem sourceIdentifier_collision (mathMin mathMax : list JsValue -> Q) :
  (forall s : DataSource,
     getSourceIdentifier s =
     if String.eqb (variance s) "default" then modelName s
     else (modelName s ++ "-" ++ variance s)%string)
  /\ (forall s1 s2 : DataSource,
        modelName s1 = modelName s2 -> variance s1 = variance s2 ->
        getSourceIdentifier s1 = getSourceIdentifier s2)
  /\ (forall earlier s1 s2 cats pre r post,
        In s1 earlier ->
        modelName s1 = modelName s2 -> variance s1 = variance s2 ->
        categoryTests mathMin mathMax (earlier ++ [s2]) = OK cats ->
        flattenDatasetResults (rawData s2) = OK (pre ++ r :: post) ->
        (forall r', In r' post ->
           ~ (categorizeTest (category r') = categorizeTest (category r)
              /\ testNameOf r' = testNameOf r)) ->
        exists ds range,
          runDatasets (rawData s2) = OK ds
          /\ runRange mathMin mathMax ds r (accuracy_mean r, accuracy_mean r)
             = OK range
          /\ testValue cats (categorizeTest (category r)) (testNameOf r)
               (getSourceIdentifier s1)
             = Some {| avg := accuracy_mean r;
                       min := fst range; max := snd range |})
  /\ (id dashboardFirst <> id dashboardSecond
      /\ timestamp dashboardFirst <> timestamp dashboardSecond
      /\ getSourceIdentifier dashboardFirst = "gpt"
      /\ getSourceIdentifier dashboardSecond = "gpt"
      /\ exists cats1 cats2,
           categoryTests mathMin mathMax [dashboardFirst] = OK cats1
           /\ testValue cats1 mathematics "algebra" "gpt"
              = Some {| avg := 1 # 4; min := 1 # 4; max := 1 # 4 |}
           /\ categoryTests mathMin mathMax [dashboardFirst; dashboardSecond]
              = OK cats2
           /\ testValue cats2 mathematics "algebra" "gpt"
              = Some {| avg := 3 # 4; min := mathMin dashboardRuns;
                        max := mathMax dashboardRuns |}).
Proof.
  assert (Same : forall s1 s2 : DataSource,
            modelName s1 = modelName s2 -> variance s1 = variance s2 ->
            getSourceIdentifier s1 = getSourceIdentifier s2).
  { intros s1 s2 Hm Hv. unfold getSourceIdentifier. now rewrite Hm, Hv. }
  split.
  { intro s. unfold getSourceIdentifier.
    destruct (String.eqb (variance s) "default"); reflexivity. }
  split; [exact Same|]. split.
  - intros earlier s1 s2 cats pre r post _ Hm Hv H Hf Hpost.
    rewrite (Same s1 s2 Hm Hv).
    unfold categoryTests in H. rewrite forOf_app in H.
    apply bind_OK in H as [cats1 [_ H]]. cbn [forOf] in H.
    apply bind_OK in H as [cats2 [H E]]. inversion E; subst cats2.
    exact (dashboardSource_last mathMin mathMax _ _ _ _ _ _ H Hf Hpost).
  - split; [discriminate|]. split; [discriminate|].
    split; [reflexivity|]. split; [reflexivity|].
    do 2 eexists. split; [reflexivity|]. split; [reflexivity|].
    split; reflexivity.
Qed.

Lemma sourceIdentifier_collision_witness :
  exists ds range,
    runDatasets (rawData dashboardSecond) = OK ds
    /\ runRange (fun _ => 7 # 10) (fun _ => 8 # 10) ds
         {| category := "mmlu/algebra"; file := "algebra_test.json";
            accuracy_mean := 3 # 4; accuracy_std := JUndefined |}
         (3 # 4, 3 # 4) = OK range
    /\ testValue
         [(mathematics,
           [{| testName := "algebra"; fullPath := "mmlu/algebra";
               dataset := "mmlu";
               values := [("gpt", {| avg := 3 # 4; min := 7 # 10;
                                     max := 8 # 10 |})] |}])]
         mathematics "algebra" (getSourceIdentifier dashboardFirst)
       = Some {| avg := 3 # 4; min := fst range; max := snd range |}.
Proof.
  apply (proj1 (proj2 (proj2 (sourceIdentifier_collision
                                (fun _ => 7 # 10) (fun _ => 8 # 10))))
           [dashboardFirst] dashboardFirst dashboardSecond
           _ []
           {| category := "mmlu/algebra"; file := "algebra_test.json";
              accuracy_mean := 3 # 4; accuracy_std := JUndefined |}
           []).
  - left. reflexivity.
  - reflexivity.
  - reflexivity.
  - reflexivity.
  - reflexivity.
  - intros r' [].
Defined.

(* ================================================================== *)
(** * Further properties of the pipeline *)

(** ** Key Normalizer: shape of the result *)

Lemma all_slashes_strip (k : string) :
  all_slashes k = true -> strip_trailing_slashes k = EmptyString.
Proof.
  destruct k as [|c r]; [reflexivity|]. intro H.
  cbn [strip_trailing_slashes]. now rewrite H.
Qed.

Lemma or_else_pop_empty (sep s : string) :
  or_else (pop (split sep s)) s = EmptyString <-> s = EmptyString.
Proof.
  split.
  - destruct (pop (split sep s)) eqn:E; cbn [or_else]; [auto | discriminate].
  - intros ->. reflexivity.
Qed.

(** X1: the normalized key never holds a slash, and it is empty exactly for
    the keys made of slashes only (the empty key among them). *)
Theorem normalizeDatasetKey_shape (k : string) :
  includes (normalizeDatasetKey k) "/" = false
  /\ (normalizeDatasetKey k = EmptyString <-> all_slashes k = true).
Proof.
  split; [apply normalizeDatasetKey_noslash|].
  unfold normalizeDatasetKey. rewrite !or_else_pop_empty. split.
  - apply strip_trailing_empty.
  - apply all_slashes_strip.
Qed.

(** ** Category Extractor: the naming convention *)

Lemma str_app_assoc (a b c : string) : ((a ++ b) ++ c = a ++ (b ++ c))%string.
Proof. induction a as [|x a IH]; cbn; [reflexivity | now rewrite IH]. Qed.

Lemma str_app_length (a b : string) :
  String.length (a ++ b) = (String.length a + String.length b)%nat.
Proof. induction a as [|x a IH]; cbn; [reflexivity | now rewrite IH]. Qed.

Lemma str_app_inv_tail (s s' t : string) : (s ++ t = s' ++ t)%string -> s = s'.
Proof.
  revert s'. induction s as [|c s IH]; intros [|c' s'] H; cbn in H.
  - reflexivity.
  - apply (f_equal String.length) in H. cbn in H. rewrite str_app_length in H. lia.
  - apply (f_equal String.length) in H. cbn in H. rewrite str_app_length in H. lia.
  - inversion H; subst. f_equal. now apply IH.
Qed.

Lemma endsWith_iff (s a : string) :
  endsWith s a = true <-> exists p, s = (p ++ a)%string.
Proof.
  induction s as [|c r IH]; cbn [endsWith].
  - rewrite orb_false_r, String.eqb_eq. split.
    + intros <-. now exists EmptyString.
    + intros [[|x p] H]; cbn in H; [now subst | discriminate].
  - rewrite orb_true_iff, String.eqb_eq, IH. split.
    + intros [<-|[p ->]]; [now exists EmptyString | now exists (String c p)].
    + intros [[|x p] H]; cbn in H; [now left|].
      right. inversion H. now exists p.
Qed.

Lemma lastUnit_app (p a : string) :
  a <> EmptyString -> lastUnit (p ++ a) = lastUnit a.
Proof.
  intro N. induction p as [|c p IH]; [reflexivity|]. cbn [append lastUnit].
  destruct (p ++ a)%string eqn:E; [|exact IH].
  destruct p; cbn in E; [contradiction | discriminate].
Qed.

Lemma includes_slash_app (a b : string) :
  includes (a ++ b) "/" = includes a "/" || includes b "/".
Proof.
  induction a as [|c a IH].
  - cbn [append]. reflexivity.
  - cbn [append]. rewrite !includes_slash_cons, IH. now rewrite orb_assoc.
Qed.

(** The replacement cuts a tail that is one of its alternatives. *)
Lemma strip_end_append (alts : list string) (p a : string) :
  tail_free alts = true -> In a alts -> strip_end alts (p ++ a) = p.
Proof.
  intros TF Ha. induction p as [|c p IH].
  - cbn [append]. destruct a; cbn [strip_end];
      rewrite (proj2 (existsb_eqb_In _ _) Ha); reflexivity.
  - cbn [append strip_end].
    destruct (existsb (String.eqb (String c (p ++ a))) alts) eqn:X.
    + exfalso. apply existsb_eqb_In in X.
      unfold tail_free in TF. rewrite forallb_forall in TF.
      specialize (TF _ X). rewrite forallb_forall in TF. specialize (TF _ Ha).
      assert (E : endsWith (String c (p ++ a)) a = true)
        by (apply endsWith_iff; now exists (String c p)).
      rewrite E in TF. cbn [implb] in TF. apply String.eqb_eq in TF.
      apply (f_equal String.length) in TF. cbn in TF.
      rewrite str_app_length in TF. lia.
    + now rewrite IH.
Qed.

(** The replacement leaves a string alone that ends with none of its
    alternatives. *)
Lemma strip_end_nomatch (alts : list string) (s : string) :
  tail_free alts = true ->
  (forall a, In a alts -> endsWith s a = false) -> strip_end alts s = s.
Proof.
  intros TF H. rewrite (strip_end_chop _ _ TF). unfold chop.
  destruct (find (endsWith s) alts) as [a|] eqn:F; [|reflexivity].
  apply find_some in F as [Ha E]. rewrite (H a Ha) in E. discriminate.
Qed.

(** The last path segment of [dir/name] is [name]. *)
Lemma pop_split_dir (dir name : string) :
  includes name "/" = false ->
  pop (split "/" (dir ++ "/" ++ name)) = name.
Proof.
  intro Hn. unfold pop, split. change ("/" ++ name)%string with (String "/" name).
  assert (G : forall d h t,
             split_go "/" (d ++ String "/" name) 0 = (h, t) ->
             last (h :: t) EmptyString = name).
  { induction d as [|c d IH]; intros h t H.
    - cbn in H. rewrite (split_go_absent "/" name Hn) in H.
      inversion H. reflexivity.
    - cbn [append split_go] in H. unfold startsWith in H. cbn [drop_prefix] in H.
      cbn [String.length Nat.sub] in H.
      destruct (split_go "/" (d ++ String "/" name) 0) as [h' t'] eqn:E.
      specialize (IH _ _ eq_refl).
      destruct (Ascii.eqb "/" c); inversion H as [[Hh Ht]]; [exact IH|].
      rewrite Ht in *. destruct t as [|x t].
      + exfalso. destruct (split_go_single "/" ltac:(discriminate) _ _ E) as [_ A].
        rewrite includes_slash_app, includes_slash_cons in A. cbn in A.
        rewrite orb_true_r in A. discriminate.
      + exact IH. }
  destruct (split_go "/" (dir ++ String "/" name) 0) as [h t] eqn:E.
  now apply (G dir).
Qed.

Lemma extension_nonempty (e : string) : In e extensions -> e <> EmptyString.
Proof. cbn. intros [<-|[<-|[<-|[<-|[]]]]]; discriminate. Qed.

Lemma extension_noslash (e : string) : In e extensions -> includes e "/" = false.
Proof. cbn. intros [<-|[<-|[<-|[<-|[]]]]]; reflexivity. Qed.

Lemma extension_lastUnit (e e' : string) :
  In e extensions -> In e' extensions -> lastUnit e = lastUnit e' -> e = e'.
Proof.
  cbn. intros [<-|[<-|[<-|[<-|[]]]]] [<-|[<-|[<-|[<-|[]]]]] H;
    cbn in H; try reflexivity; discriminate.
Qed.

Lemma or_else_self (s : string) : or_else s s = s.
Proof. destruct s; reflexivity. Qed.

Lemma extract_of_name (dir name : string) :
  includes name "/" = false -> name <> EmptyString ->
  extractCategory name = strip_end bare_suffixes (strip_end test_suffixes name)
  /\ extractCategory (dir ++ "/" ++ name)
     = strip_end bare_suffixes (strip_end test_suffixes name).
Proof.
  intros Hn Ne. unfold extractCategory. split.
  - rewrite (split_absent "/" _ Hn). cbn [pop last].
    now rewrite or_else_self.
  - rewrite (pop_split_dir _ _ Hn). destruct name; [congruence | reflexivity].
Qed.

Lemma str_app_nonempty_r (a b : string) :
  b <> EmptyString -> (a ++ b)%string <> EmptyString.
Proof. destruct a; cbn; [auto | discriminate]. Qed.

(** The name [stem.e] ends with no [_test] suffix when [stem] does not end
    with [_test]. *)
Lemma bare_name_no_test_suffix (stem e a : string) :
  In e extensions -> endsWith stem "_test" = false -> In a test_suffixes ->
  endsWith (stem ++ "." ++ e) a = false.
Proof.
  intros He Hs Ha. apply not_true_is_false. intro X.
  apply endsWith_iff in X as [p X].
  unfold test_suffixes in Ha. apply in_map_iff in Ha as [e' [<- He']].
  assert (L : lastUnit e = lastUnit e').
  { apply (f_equal lastUnit) in X.
    rewrite <- !str_app_assoc in X.
    rewrite !lastUnit_app in X by now apply extension_nonempty. exact X. }
  rewrite <- (extension_lastUnit _ _ He He' L) in X.
  rewrite <- !str_app_assoc in X. apply str_app_inv_tail in X.
  change ("_test.")%string with ("_test" ++ ".")%string in X.
  rewrite <- str_app_assoc in X. apply str_app_inv_tail in X.
  assert (E : endsWith stem "_test" = true) by (apply endsWith_iff; now exists p).
  congruence.
Qed.

(** X2: for a stem without slash that does not itself end with one of the
    extensions, the files [stem_test.e] and [dir/stem_test.e] are extracted
    to [stem] for each extension [e] of jsonl, json, csv, parquet; so are
    [stem.e] and [dir/stem.e] when the stem does not end with [_test]. *)
Theorem extractCategory_convention (dir stem e : string) :
  In e extensions ->
  includes stem "/" = false ->
  (forall b, In b bare_suffixes -> endsWith stem b = false) ->
  extractCategory (stem ++ "_test." ++ e) = stem
  /\ extractCategory (dir ++ "/" ++ stem ++ "_test." ++ e) = stem
  /\ (endsWith stem "_test" = false ->
      extractCategory (stem ++ "." ++ e) = stem
      /\ extractCategory (dir ++ "/" ++ stem ++ "." ++ e) = stem).
Proof.
  intros He Hs Hb.
  assert (Cut : strip_end bare_suffixes
                  (strip_end test_suffixes (stem ++ "_test." ++ e)) = stem).
  { rewrite (strip_end_append test_suffixes stem ("_test." ++ e)).
    - now apply strip_end_nomatch.
    - reflexivity.
    - unfold test_suffixes. now apply in_map. }
  assert (S1 : includes (stem ++ "_test." ++ e) "/" = false).
  { rewrite !includes_slash_app, Hs, (extension_noslash _ He). reflexivity. }
  assert (N1 : (stem ++ "_test." ++ e)%string <> EmptyString)
    by (apply str_app_nonempty_r; discriminate).
  destruct (extract_of_name dir _ S1 N1) as [A B].
  split; [now rewrite A|]. split; [now rewrite B|].
  intro Ht.
  assert (Cut2 : strip_end bare_suffixes
                   (strip_end test_suffixes (stem ++ "." ++ e)) = stem).
  { rewrite (strip_end_nomatch test_suffixes).
    - apply strip_end_append; [reflexivity|].
      unfold bare_suffixes. now apply in_map.
    - reflexivity.
    - intros a Ha. now apply bare_name_no_test_suffix. }
  assert (S2 : includes (stem ++ "." ++ e) "/" = false).
  { rewrite !includes_slash_app, Hs, (extension_noslash _ He). reflexivity. }
  assert (N2 : (stem ++ "." ++ e)%string <> EmptyString)
    by (apply str_app_nonempty_r; discriminate).
  destruct (extract_of_name dir _ S2 N2) as [C D].
  split; [now rewrite C | now rewrite D].
Qed.

Lemma extractCategory_convention_witness :
  extractCategory "college_physics_test.parquet" = "college_physics"
  /\ extractCategory "data/mmlu/college_physics_test.parquet" = "college_physics"
  /\ (endsWith "college_physics" "_test" = false ->
      extractCategory "college_physics.parquet" = "college_physics"
      /\ extractCategory "data/mmlu/college_physics.parquet" = "college_physics").
Proof.
  apply (extractCategory_convention "data/mmlu" "college_physics" "parquet").
  - cbn. tauto.
  - reflexivity.
  - intros b Hb. cbn in Hb.
    repeat (destruct Hb as [<-|Hb]; [reflexivity|]). contradiction.
Defined.

(** ** Subject Classifier: keywords that never decide *)

Lemma drop_prefix_app (p q s : string) :
  startsWith s (p ++ q) = true -> startsWith s p = true.
Proof.
  unfold startsWith. revert s. induction p as [|a p IH]; intros s H.
  - reflexivity.
  - destruct s as [|b s]; cbn in *; [discriminate|].
    destruct (Ascii.eqb a b); [now apply IH | discriminate].
Qed.

(** Where a keyword occurs, each of its prefixes occurs. *)
Lemma includes_keyword_prefix (s p q : string) :
  includes s (p ++ q) = true -> includes s p = true.
Proof.
  induction s as [|c s IH]; cbn [includes]; intro H.
  - rewrite orb_false_r in *. now apply (drop_prefix_app p q).
  - apply orb_true_iff in H as [H|H].
    + now rewrite (drop_prefix_app p q _ H).
    + rewrite (IH H). apply orb_true_r.
Qed.

Lemma classify_lean (n : string) :
  classify ruleTable n = classify ruleTableLean n.
Proof.
  assert (P1 : includes n "politic" = false -> includes n "politics" = false).
  { intro H. apply not_true_is_false. intro X.
    apply (includes_keyword_prefix n "politic" "s") in X. congruence. }
  assert (P2 : includes n "logic" = false -> includes n "logical" = false).
  { intro H. apply not_true_is_false. intro X.
    apply (includes_keyword_prefix n "logic" "al") in X. congruence. }
  unfold classify, ruleTable, ruleTableLean, groupMatches.
  cbn [find existsb fst snd].
  destruct (includes n "medical") eqn:M;
    destruct (includes n "politic") eqn:P;
    destruct (includes n "logic") eqn:L;
    rewrite ?(P1 eq_refl), ?(P2 eq_refl);
    repeat rewrite ?orb_true_l, ?orb_true_r, ?orb_false_l, ?orb_false_r;
    repeat match goal with
           | |- context [if ?b then _ else _] => destruct b; try reflexivity
           end.
Qed.

(** X3: three keywords of the cascade never decide a result: the classifier
    is the first-match dispatch over the table without "medical" in the
    science group, without "politics" and without "logical". *)
Theorem categorizeTest_dead_keywords (s : string) :
  categorizeTest s = classify ruleTableLean (toLowerCase s).
Proof. rewrite categorizeTest_classify. apply classify_lean. Qed.

(** ** Result Flattener: order, and the category path taken apart again *)

Lemma entryEmits_short (nd : string) (entry : JsValue) :
  (List.length (entryEmits nd entry) <= 1)%nat.
Proof.
  unfold entryEmits. destruct entry as [| |b|q|s|items|props]; cbn; try lia.
  destruct (lookup String.eqb "file" props) as [[| |b|q|f|items|ps]|]; cbn; try lia.
  destruct (lookup String.eqb "accuracy_mean" props) as [[| |b|a|s|items|ps]|];
    cbn; lia.
Qed.

(** X4: when the flattener returns, its output is, dataset after dataset in
    the order of [dataset_results] and entry after entry in the order of
    each [results] array, the record of every entry with a string [file] and
    a number [accuracy_mean]: at most one record per entry, none added, none
    reordered. *)
Theorem flatten_document_order (raw : JsValue) (rs : list CategoryResult) :
  flattenDatasetResults raw = OK rs ->
  rs = flat_map
         (fun kv =>
            match resultsArray (snd kv) with
            | Some items =>
                flat_map (entryEmits (normalizeDatasetKey (fst kv))) items
            | None => []
            end)
         (datasetEntries raw)
  /\ forall nd entry, (List.length (entryEmits nd entry) <= 1)%nat.
Proof.
  intro H. split; [|exact entryEmits_short].
  rewrite (flatten_emits _ _ H). apply flat_map_ext. intros [k v].
  unfold datasetEmits, resultsArray. cbn [fst snd].
  destruct v as [| |b|q|s|items|props]; try reflexivity.
  destruct (lookup String.eqb "results" props) as [[| |b|q|s|items|ps]|];
    reflexivity.
Qed.

Lemma flatten_document_order_witness :
  [ {| category := "mmlu/a"; file := "a_test.json"; accuracy_mean := 1 # 2;
       accuracy_std := JUndefined |};
    {| category := "arc/b"; file := "b.csv"; accuracy_mean := 1 # 3;
       accuracy_std := JUndefined |} ]
  = flat_map
      (fun kv =>
         match resultsArray (snd kv) with
         | Some items =>
             flat_map (entryEmits (normalizeDatasetKey (fst kv))) items
         | None => []
         end)
      (datasetEntries
         (documentOf [("cais__mmlu", [entryOf "a_test.json" (1 # 2); JNum 3]);
                      ("arc", [JStr "skipped"; entryOf "b.csv" (1 # 3)])]))
  /\ forall nd entry, (List.length (entryEmits nd entry) <= 1)%nat.
Proof.
  apply (flatten_document_order
           (documentOf [("cais__mmlu", [entryOf "a_test.json" (1 # 2); JNum 3]);
                        ("arc", [JStr "skipped"; entryOf "b.csv" (1 # 3)])])).
  reflexivity.
Defined.

(** The path segments of [b/c] for a first segment without slash. *)
Lemma split_go_first (b c : string) :
  includes b "/" = false ->
  split_go "/" (b ++ String "/" c) 0
  = (b, let (h, t) := split_go "/" c 0 in h :: t).
Proof.
  induction b as [|x b IH]; intro H.
  - reflexivity.
  - rewrite includes_slash_cons in H. apply orb_false_iff in H as [Hx Hb].
    cbn [append split_go]. unfold startsWith. cbn [drop_prefix].
    rewrite Hx, (IH Hb). reflexivity.
Qed.

(** Joining the path segments of a string gives the string back. *)
Lemma join_split_slash (s : string) : join "/" (split "/" s) = s.
Proof.
  unfold split.
  assert (G : forall h t, split_go "/" s 0 = (h, t) -> join "/" (h :: t) = s).
  { induction s as [|c s IH]; intros h t H.
    - cbn in H. now inversion H.
    - cbn [split_go] in H. unfold startsWith in H. cbn [drop_prefix] in H.
      cbn [String.length Nat.sub] in H.
      destruct (split_go "/" s 0) as [h' t'] eqn:E.
      specialize (IH _ _ eq_refl).
      destruct (Ascii.eqb "/" c) eqn:Hc; inversion H as [[Hh Ht]]; clear H;
        subst h t.
      + apply Ascii.eqb_eq in Hc. subst c.
        change (join "/" (EmptyString :: h' :: t'))
          with (String "/" (join "/" (h' :: t'))).
        now rewrite IH.
      + destruct t' as [|x t'']; rewrite <- IH; reflexivity. }
  destruct (split_go "/" s 0) as [h t] eqn:E. now apply G.
Qed.

Lemma category_path_parts (b c : string) :
  includes b "/" = false ->
  hd EmptyString (split "/" (b ++ "/" ++ c)) = b
  /\ extractBenchmarkName (b ++ "/" ++ c)
     = or_else b (b ++ "/" ++ c)%string
  /\ extractTestName (b ++ "/" ++ c) = strip_leading_slashes c.
Proof.
  intro Hb. unfold extractBenchmarkName, extractTestName, split.
  change ("/" ++ c)%string with (String "/" c).
  rewrite (split_go_first _ _ Hb).
  pose proof (join_split_slash c) as J. unfold split in J.
  destruct (split_go "/" c 0) as [h t].
  cbn [hd tl List.length]. split; [reflexivity|]. split; [reflexivity|].
  cbn [Nat.ltb Nat.leb]. now rewrite J.
Qed.

(** X5: the category path of every flattened record is [b/c] with [b] the
    normalized dataset key and [c] the extracted category after the legacy
    override; taken apart again, the first segment read by the dashboards is
    [b], the benchmark name of the ranking table is [b] unless [b] is empty
    (then it is the whole path), and the test name of the ranking table is
    [c] without its leading slashes. *)
Theorem flattened_path_parts (raw : JsValue) (rs : list CategoryResult)
  (r : CategoryResult) :
  flattenDatasetResults raw = OK rs -> In r rs ->
  exists datasetKey,
    In datasetKey (map fst (datasetEntries raw))
    /\ let b := normalizeDatasetKey datasetKey in
       let c := legacyOverride b (extractCategory (file r)) in
       category r = (b ++ "/" ++ c)%string
       /\ hd EmptyString (split "/" (category r)) = b
       /\ extractBenchmarkName (category r) = or_else b (category r)
       /\ extractTestName (category r) = strip_leading_slashes c.
Proof.
  intros H Hr. apply flatten_emits in H. subst rs.
  apply in_flat_map in Hr as [[k v] [Hkv Hr]].
  apply datasetEmits_In in Hr as [items [entry [_ [_ Hr]]]].
  apply entryEmits_In in Hr as [f [_ [_ [_ [Hc Hf]]]]]. cbn [fst] in Hc.
  exists k. split; [now apply (in_map fst) in Hkv|].
  cbn zeta. subst f. rewrite Hc.
  destruct (category_path_parts (normalizeDatasetKey k)
              (legacyOverride (normalizeDatasetKey k) (extractCategory (file r)))
              (normalizeDatasetKey_noslash k)) as [A [B C]].
  auto.
Qed.

Lemma flattened_path_parts_witness :
  exists datasetKey,
    In datasetKey
       (map fst (datasetEntries
                   (documentOf [("datasets/cais__mmlu/",
                                 [entryOf "x/anatomy_test.csv" (1 # 2)])])))
    /\ let b := normalizeDatasetKey datasetKey in
       let c := legacyOverride b (extractCategory "x/anatomy_test.csv") in
       "mmlu/anatomy" = (b ++ "/" ++ c)%string
       /\ hd EmptyString (split "/" "mmlu/anatomy") = b
       /\ extractBenchmarkName "mmlu/anatomy" = or_else b "mmlu/anatomy"
       /\ extractTestName "mmlu/anatomy" = strip_leading_slashes c.
Proof.
  apply (flattened_path_parts
           (documentOf [("datasets/cais__mmlu/",
                         [entryOf "x/anatomy_test.csv" (1 # 2)])])
           [ {| category := "mmlu/anatomy"; file := "x/anatomy_test.csv";
                accuracy_mean := 1 # 2; accuracy_std := JUndefined |} ]
           {| category := "mmlu/anatomy"; file := "x/anatomy_test.csv";
              accuracy_mean := 1 # 2; accuracy_std := JUndefined |}).
  - reflexivity.
  - left. reflexivity.
Defined.

(** ** Insertion order of the keys *)

Section KeyOrder.
Context {K : Type} (eqb : K -> K -> bool).
Hypothesis eqb_eq : forall a b, eqb a b = true <-> a = b.
Variable dec : forall x y : K, {x = y} + {x <> y}.

Lemma add_known (k : K) (s : list K) : In k s -> add eqb k s = s.
Proof.
  induction s as [|y s IH]; cbn; [contradiction|].
  destruct (eqb k y) eqn:E; [reflexivity|].
  intros [H|H]; [subst; rewrite (eqb_refl' eqb eqb_eq) in E; discriminate|].
  now rewrite IH.
Qed.

Lemma add_new (k : K) (s : list K) : ~ In k s -> add eqb k s = s ++ [k].
Proof.
  induction s as [|y s IH]; cbn; [reflexivity|]. intro H.
  destruct (eqb k y) eqn:E.
  - apply eqb_eq in E. subst. exfalso. apply H. now left.
  - rewrite IH; [reflexivity|]. intro X. apply H. now right.
Qed.

Lemma firstSeen_In (l : list K) (x : K) : In x (firstSeen dec l) <-> In x l.
Proof. unfold firstSeen. now rewrite <- in_rev, nodup_In, <- in_rev. Qed.

Lemma firstSeen_snoc (l : list K) (x : K) :
  firstSeen dec (l ++ [x]) = add eqb x (firstSeen dec l).
Proof.
  unfold firstSeen at 1. rewrite rev_app_distr. cbn [rev app nodup].
  destruct (in_dec dec x (rev l)) as [I|I].
  - symmetry. apply add_known. apply (proj2 (firstSeen_In l x)).
    apply (proj2 (in_rev l x) I).
  - cbn [rev]. symmetry. apply add_new.
    intro X. apply (proj1 (firstSeen_In l x)) in X.
    apply I. apply (proj1 (in_rev l x) X).
Qed.

(** Adding the elements one after the other to an empty [Set] lists the
    distinct elements in the order of their first occurrence. *)
Lemma fold_add_firstSeen (l : list K) :
  fold_left (fun acc x => add eqb x acc) l [] = firstSeen dec l.
Proof.
  induction l as [|x l IH] using rev_ind; [reflexivity|].
  now rewrite fold_left_app, firstSeen_snoc, IH.
Qed.

Lemma keys_set_add {V : Type} (k : K) (v : V) (m : list (K * V)) :
  map fst (set eqb k v m) = add eqb k (map fst m).
Proof.
  induction m as [|[k' v'] m IH]; cbn; [reflexivity|].
  destruct (eqb k k'); cbn; [reflexivity | now rewrite IH].
Qed.

Lemma add_twice (k : K) (s : list K) : add eqb k (add eqb k s) = add eqb k s.
Proof.
  induction s as [|y s IH]; cbn.
  - now rewrite (eqb_refl' eqb eqb_eq).
  - destruct (eqb k y) eqn:E; cbn; rewrite E; [reflexivity | now rewrite IH].
Qed.

Lemma fold_keys {S A : Type} (keys : S -> list K) (step : S -> A -> S)
  (kf : A -> K) :
  (forall s x, keys (step s x) = add eqb (kf x) (keys s)) ->
  forall l s,
    keys (fold_left step l s)
    = fold_left (fun acc x => add eqb x acc) (map kf l) (keys s).
Proof.
  intros H. induction l as [|x l IH]; intro s; [reflexivity|].
  cbn. now rewrite IH, H.
Qed.

End KeyOrder.

Lemma pivotStep_keys (lbl : string) (m : list (string * PivotRow))
  (r : CategoryResult) :
  map fst (pivotStep lbl m r) = add String.eqb (category r) (map fst m).
Proof.
  unfold pivotStep. destruct (lookup String.eqb (category r) m).
  - apply keys_set_add.
  - rewrite !keys_set_add. apply (add_twice _ string_eqb_eq).
Qed.

Lemma rows_categories (m : list (string * PivotRow)) :
  rowsKeyed m ->
  map (lookup String.eqb "category") (map snd m)
  = map (fun c => Some (PStr c)) (map fst m).
Proof.
  induction m as [|[k row] m IH]; intro H; [reflexivity|].
  cbn [map fst snd]. rewrite (H k row (or_introl eq_refl)). f_equal.
  apply IH. intros k' row' X. apply H. now right.
Qed.

Lemma pivotEvents_categories (ss : list DataSource)
  (rss : list (list CategoryResult)) :
  flattensTo ss rss ->
  map (fun e => category (snd e)) (pivotEvents ss rss)
  = map category (concat rss).
Proof.
  unfold pivotEvents. induction 1 as [|s rs ss rss _ _ IH]; [reflexivity|].
  cbn [combine map concat fst snd]. rewrite !map_app, IH. f_equal.
  rewrite map_map. reflexivity.
Qed.

(** X6: the pivot table has one row per distinct category path of the
    flattened sources, in the order in which the paths are first seen
    (source after source, result after result), and each row carries its
    path in its [category] field. *)
Theorem pivot_rows_first_seen (ss : list DataSource)
  (rss : list (list CategoryResult)) :
  flattensTo ss rss ->
  exists rows,
    buildPivotTable ss = OK rows
    /\ map (lookup String.eqb "category") rows
       = map (fun c => Some (PStr c))
             (firstSeen string_dec (map category (concat rss))).
Proof.
  intro F. unfold buildPivotTable. rewrite (pivot_loop_events _ _ F). cbn [bind].
  eexists. split; [reflexivity|].
  assert (K : rowsKeyed (fold_left pivotEvent (pivotEvents ss rss) []))
    by (apply pivot_fold_keyed; [apply pivotEvents_labels | intros ? ? []]).
  rewrite (rows_categories _ K). f_equal.
  rewrite (fold_keys String.eqb (map fst) pivotEvent
             (fun e => category (snd e)))
    by (intros s [lbl r]; apply pivotStep_keys).
  cbn [map]. rewrite (fold_add_firstSeen _ string_eqb_eq string_dec).
  now rewrite (pivotEvents_categories _ _ F).
Qed.

Lemma pivot_rows_first_seen_witness :
  exists rows,
    buildPivotTable [rankingA; rankingB] = OK rows
    /\ map (lookup String.eqb "category") rows
       = map (fun c => Some (PStr c))
             (firstSeen string_dec
                (map category
                   (concat
                      [ [ {| category := "bench/t1"; file := "t1.json";
                             accuracy_mean := 8 # 10; accuracy_std := JUndefined |};
                          {| category := "bench/t2"; file := "t2.json";
                             accuracy_mean := 6 # 10; accuracy_std := JUndefined |} ];
                        [ {| category := "bench/t1"; file := "t1.json";
                             accuracy_mean := 4 # 10;
                             accuracy_std := JUndefined |} ] ]))).
Proof.
  apply (pivot_rows_first_seen [rankingA; rankingB]).
  constructor; [reflexivity|]. constructor; [reflexivity|]. constructor.
Defined.

Lemma groupStep_keys (g : list (CategoryKey * list CategoryResult))
  (r : CategoryResult) :
  map fst (groupStep g r)
  = add CategoryKey_eqb (categorizeTest (category r)) (map fst g).
Proof.
  unfold groupStep, has. set (c := categorizeTest (category r)).
  destruct (lookup CategoryKey_eqb c g) as [b|] eqn:L.
  - rewrite L. apply keys_set_add.
  - rewrite (lookup_set_same _ CategoryKey_eqb_eq), !keys_set_add.
    apply (add_twice _ CategoryKey_eqb_eq).
Qed.

(** X7: the buckets of groupByCategory come in the order in which their
    subject tags are first met in the input. *)
Theorem groupByCategory_key_order (rs : list CategoryResult) :
  map fst (groupByCategory rs)
  = firstSeen CategoryKey_dec (map (fun r => categorizeTest (category r)) rs).
Proof.
  unfold groupByCategory.
  rewrite (fold_keys CategoryKey_eqb (map fst) groupStep
             (fun r => categorizeTest (category r)))
    by (intros; apply groupStep_keys).
  apply (fold_add_firstSeen _ CategoryKey_eqb_eq).
Qed.

(** ** Ranking Aggregator: test columns, cells and benchmarks *)

Lemma insertSorted_sorted {A : Type} (le : A -> A -> bool) (x : A) (l : list A) :
  (forall a b, le a b = true \/ le b a = true) ->
  Sorted (fun a b => le a b = true) l ->
  Sorted (fun a b => le a b = true) (insertSorted le x l).
Proof.
  intros T S. induction S as [|y l S IH H]; cbn.
  - repeat constructor.
  - destruct (le x y) eqn:E.
    + constructor; [now constructor | now constructor].
    + constructor; [exact IH|].
      destruct l as [|z l]; cbn.
      * constructor. destruct (T x y); congruence.
      * inversion H; subst. destruct (le x z); constructor;
          [destruct (T x y); congruence | assumption].
Qed.

(** The insertion sort sorts for a total comparison. *)
Lemma sortBy_sorted {A : Type} (le : A -> A -> bool) (l : list A) :
  (forall a b, le a b = true \/ le b a = true) ->
  Sorted (fun a b => le a b = true) (sortBy le l).
Proof.
  intro T. induction l as [|x l IH]; cbn; [constructor|].
  now apply insertSorted_sorted.
Qed.

Lemma rankStep_keys (src : DataSource) (m : list (string * BenchmarkEntry))
  (r : CategoryResult) :
  map fst (rankStep src m r)
  = add String.eqb (extractBenchmarkName (category r)) (map fst m).
Proof. rewrite rankStep_writes. unfold rankStepWrites. apply keys_set_add. Qed.

Lemma rankStep_namesAt (src : DataSource) (m : list (string * BenchmarkEntry))
  (r : CategoryResult) (b : string) :
  namesAt (rankStep src m r) b =
  if String.eqb (extractBenchmarkName (category r)) b
  then add String.eqb (extractTestName (category r)) (namesAt m b)
  else namesAt m b.
Proof.
  rewrite rankStep_writes. unfold rankStepWrites, namesAt.
  rewrite (lookup_set _ string_eqb_eq).
  destruct (String.eqb (extractBenchmarkName (category r)) b) eqn:E;
    [|reflexivity].
  apply String.eqb_eq in E. subst b. cbn [testNames].
  destruct (lookup String.eqb (extractBenchmarkName (category r)) m); reflexivity.
Qed.

Lemma rank_fold_namesAt (evs : list (DataSource * CategoryResult)) (b : string) :
  forall m,
    namesAt (fold_left rankEvent evs m) b
    = fold_left (fun acc t => add String.eqb t acc) (benchmarkTests evs b)
                (namesAt m b).
Proof.
  unfold benchmarkTests.
  induction evs as [|[src r] evs IH]; intro m; [reflexivity|].
  cbn [fold_left filter snd]. rewrite IH. unfold rankEvent at 1. cbn [fst snd].
  rewrite rankStep_namesAt.
  destruct (String.eqb (extractBenchmarkName (category r)) b); reflexivity.
Qed.

(** What [benchmarkData] returns, in terms of the map of its first pass. *)
Lemma ranking_structure (localeCompare : string -> string -> Z)
  (ss : list DataSource) (rss : list (list CategoryResult)) :
  flattensTo ss rss ->
  exists bs,
    benchmarkData localeCompare ss = OK bs
    /\ Permutation bs (map rankBenchmark (rankMap (rankEvents ss rss)))
    /\ goodMap (rankMap (rankEvents ss rss)).
Proof.
  intro F. unfold benchmarkData. rewrite (rank_loop_events _ _ F). cbn [bind].
  eexists. split; [reflexivity|]. split; [apply sortBy_perm|].
  apply rank_fold_good. split; [constructor | intros ? ? []].
Qed.

(** X8: the test columns of a benchmark are the distinct test names of the
    results filed under it by any source, without repetition and in
    ascending order of their code units. *)
Theorem ranking_allTests_sorted (localeCompare : string -> string -> Z)
  (ss : list DataSource) (rss : list (list CategoryResult)) :
  flattensTo ss rss ->
  exists bs,
    benchmarkData localeCompare ss = OK bs
    /\ forall bd, In bd bs ->
         Sorted (fun a b => String.leb a b = true) (allTests bd)
         /\ NoDup (allTests bd)
         /\ forall t, In t (allTests bd) <->
              In t (benchmarkTests (rankEvents ss rss) (benchmarkName bd)).
Proof.
  intro F. destruct (ranking_structure localeCompare _ _ F) as [bs [E [P G]]].
  exists bs. split; [exact E|]. intros bd Hbd.
  apply (Permutation_in _ P) in Hbd.
  apply in_map_iff in Hbd as [[b be] [<- Hin]].
  destruct G as [ND G]. destruct (G _ _ Hin) as [Nn _].
  cbn [rankBenchmark allTests benchmarkName].
  split; [apply sortBy_sorted, String.leb_total|].
  split; [apply (Permutation_NoDup (Permutation_sym (sortBy_perm _ _)) Nn)|].
  intro t.
  assert (N : testNames be = firstSeen string_dec
                               (benchmarkTests (rankEvents ss rss) b)).
  { pose proof (rank_fold_namesAt (rankEvents ss rss) b []) as X.
    unfold namesAt in X at 1. fold (rankMap (rankEvents ss rss)) in X.
    rewrite (lookup_In _ string_eqb_eq _ _ _ ND Hin) in X.
    rewrite X. apply (fold_add_firstSeen _ string_eqb_eq). }
  rewrite <- (firstSeen_In string_dec (benchmarkTests (rankEvents ss rss) b) t),
    <- N.
  split.
  - apply Permutation_in, sortBy_perm.
  - apply Permutation_in, Permutation_sym, sortBy_perm.
Qed.

Lemma ranking_allTests_sorted_witness :
  exists bs,
    benchmarkData (fun _ _ => 0%Z) [rankingA; rankingB] = OK bs
    /\ forall bd, In bd bs ->
         Sorted (fun a b => String.leb a b = true) (allTests bd)
         /\ NoDup (allTests bd)
         /\ forall t, In t (allTests bd) <->
              In t (benchmarkTests
                      (rankEvents [rankingA; rankingB]
                         [ [ {| category := "bench/t1"; file := "t1.json";
                                accuracy_mean := 8 # 10;
                                accuracy_std := JUndefined |};
                             {| category := "bench/t2"; file := "t2.json";
                                accuracy_mean := 6 # 10;
                                accuracy_std := JUndefined |} ];
                           [ {| category := "bench/t1"; file := "t1.json";
                                accuracy_mean := 4 # 10;
                                accuracy_std := JUndefined |} ] ])
                      (benchmarkName bd)).
Proof.
  apply (ranking_allTests_sorted (fun _ _ => 0%Z) [rankingA; rankingB]).
  constructor; [reflexivity|]. constructor; [reflexivity|]. constructor.
Defined.

(** X9: in every benchmark the rows stand, in order, for the distinct
    source ids with a result there, and the [key] of a row is the benchmark
    name, a hyphen and the id of its source (unless a test named [key] has
    put its score there).  In that row, a key that is not one of the nine
    fixed fields is an own property holding the score of that test for the
    source of that id when the source has one, and is no own property
    otherwise: a missing test is not filled with zero.  [__proto__] is never
    an own property, also when a test has that name. *)
Theorem ranking_cells_sparse (localeCompare : string -> string -> Z)
  (ss : list DataSource) (rss : list (list CategoryResult)) :
  flattensTo ss rss ->
  exists bs,
    benchmarkData localeCompare ss = OK bs
    /\ forall bd, In bd bs ->
         exists ids,
           NoDup ids
           /\ (forall i, In i ids <->
                 presentScores (rankEvents ss rss) (benchmarkName bd) i <> None)
           /\ Forall2
                (fun i row =>
                   exists sc,
                     presentScores (rankEvents ss rss) (benchmarkName bd) i
                     = Some sc
                     /\ lookup String.eqb "key" row
                        = Some match lookup String.eqb "key" sc with
                               | Some q => RNum (toNumber q)
                               | None => RStr (benchmarkName bd ++ "-" ++ i)
                               end
                     /\ forall t, ~ In t fixedFields ->
                          lookup String.eqb t row
                          = if String.eqb t "__proto__" then None
                            else option_map (fun q => RNum (toNumber q))
                                            (lookup String.eqb t sc))
                ids (models bd).
Proof.
  intro F. destruct (ranking_structure localeCompare _ _ F) as [bs [E [P G]]].
  exists bs. split; [exact E|]. intros bd Hbd.
  apply (Permutation_in _ P) in Hbd.
  apply in_map_iff in Hbd as [[b be] [<- Hin]].
  assert (O : ownedMap (rankMap (rankEvents ss rss))).
  { apply rank_fold_owned. intros ? ? ? ? []. }
  destruct G as [ND G]. destruct (G _ _ Hin) as [Nn [Nk Gm]].
  pose proof (lookup_In _ string_eqb_eq _ _ _ ND Hin) as Lb.
  assert (S : forall i, presentScores (rankEvents ss rss) b i =
              match lookup String.eqb i (modelData be) with
              | Some me => Some (scores me)
              | None => None
              end).
  { intro i. rewrite presentScores_scoresAt. unfold scoresAt.
    fold (rankMap (rankEvents ss rss)). now rewrite Lb. }
  cbn [rankBenchmark benchmarkName models].
  exists (map fst (modelData be)). split; [exact Nk|]. split.
  - intro i. rewrite S, <- (has_In _ string_eqb_eq). unfold has.
    destruct (lookup String.eqb i (modelData be)); split; congruence.
  - apply Forall2_map_keys. intros [i me] Hme. cbn [fst snd].
    exists (scores me). split; [|split].
    + now rewrite S, (lookup_In _ string_eqb_eq _ _ _ Nk Hme).
    + rewrite (rankRow_key b (testNames be) _ me (Gm _ _ Hme) (sortBy_perm _ _)).
      now rewrite (O _ _ _ _ Hin Hme).
    + intros t Ht.
      apply (rankRow_cell b (testNames be));
        [now apply (Gm i) | apply sortBy_perm | exact Ht].
Qed.

Lemma ranking_cells_sparse_witness :
  exists bs,
    benchmarkData (fun _ _ => 0%Z) [rankingA; rankingB] = OK bs
    /\ forall bd, In bd bs ->
         exists ids,
           NoDup ids
           /\ (forall i, In i ids <->
                 presentScores
                   (rankEvents [rankingA; rankingB]
                      [ [ {| category := "bench/t1"; file := "t1.json";
                             accuracy_mean := 8 # 10;
                             accuracy_std := JUndefined |};
                          {| category := "bench/t2"; file := "t2.json";
                             accuracy_mean := 6 # 10;
                             accuracy_std := JUndefined |} ];
                        [ {| category := "bench/t1"; file := "t1.json";
                             accuracy_mean := 4 # 10;
                             accuracy_std := JUndefined |} ] ])
                   (benchmarkName bd) i <> None)
           /\ Forall2
                (fun i row =>
                   exists sc,
                     presentScores
                       (rankEvents [rankingA; rankingB]
                          [ [ {| category := "bench/t1"; file := "t1.json";
                                 accuracy_mean := 8 # 10;
                                 accuracy_std := JUndefined |};
                              {| category := "bench/t2"; file := "t2.json";
                                 accuracy_mean := 6 # 10;
                                 accuracy_std := JUndefined |} ];
                            [ {| category := "bench/t1"; file := "t1.json";
                                 accuracy_mean := 4 # 10;
                                 accuracy_std := JUndefined |} ] ])
                       (benchmarkName bd) i = Some sc
                     /\ lookup String.eqb "key" row
                        = Some match lookup String.eqb "key" sc with
                               | Some q => RNum (toNumber q)
                               | None => RStr (benchmarkName bd ++ "-" ++ i)
                               end
                     /\ forall t, ~ In t fixedFields ->
                          lookup String.eqb t row
                          = if String.eqb t "__proto__" then None
                            else option_map (fun q => RNum (toNumber q))
                                            (lookup String.eqb t sc))
                ids (models bd).
Proof.
  apply (ranking_cells_sparse (fun _ _ => 0%Z) [rankingA; rankingB]).
  constructor; [reflexivity|]. constructor; [reflexivity|]. constructor.
Defined.

(** X10: the ranking has exactly one entry per benchmark name met in the
    flattened results of the sources, whatever order the locale puts them
    in. *)
Theorem ranking_benchmarks_distinct (localeCompare : string -> string -> Z)
  (ss : list DataSource) (rss : list (list CategoryResult)) :
  flattensTo ss rss ->
  exists bs,
    benchmarkData localeCompare ss = OK bs
    /\ NoDup (map benchmarkName bs)
    /\ forall b, In b (map benchmarkName bs) <->
         In b (map (fun e => extractBenchmarkName (category (snd e)))
                   (rankEvents ss rss)).
Proof.
  intro F. destruct (ranking_structure localeCompare _ _ F) as [bs [E [P G]]].
  exists bs. split; [exact E|].
  assert (Names : map benchmarkName (map rankBenchmark (rankMap (rankEvents ss rss)))
                  = map fst (rankMap (rankEvents ss rss))).
  { rewrite map_map. apply map_ext. now intros [b be]. }
  assert (P' : Permutation (map benchmarkName bs)
                 (map fst (rankMap (rankEvents ss rss))))
    by (rewrite <- Names; now apply Permutation_map).
  split.
  - apply (Permutation_NoDup (Permutation_sym P')). apply G.
  - intro b.
    assert (K : map fst (rankMap (rankEvents ss rss))
                = firstSeen string_dec
                    (map (fun e => extractBenchmarkName (category (snd e)))
                         (rankEvents ss rss))).
    { unfold rankMap.
      rewrite (fold_keys String.eqb (map fst) rankEvent
                 (fun e => extractBenchmarkName (category (snd e))))
        by (intros s [src r]; apply rankStep_keys).
      apply (fold_add_firstSeen _ string_eqb_eq). }
    rewrite <- (firstSeen_In string_dec
                  (map (fun e => extractBenchmarkName (category (snd e)))
                       (rankEvents ss rss)) b), <- K.
    split.
    + apply Permutation_in, P'.
    + apply Permutation_in, Permutation_sym, P'.
Qed.

Lemma ranking_benchmarks_distinct_witness :
  exists bs,
    benchmarkData (fun _ _ => 0%Z) [rankingA; rankingB] = OK bs
    /\ NoDup (map benchmarkName bs)
    /\ forall b, In b (map benchmarkName bs) <->
         In b (map (fun e => extractBenchmarkName (category (snd e)))
                   (rankEvents [rankingA; rankingB]
                      [ [ {| category := "bench/t1"; file := "t1.json";
                             accuracy_mean := 8 # 10;
                             accuracy_std := JUndefined |};
                          {| category := "bench/t2"; file := "t2.json";
                             accuracy_mean := 6 # 10;
                             accuracy_std := JUndefined |} ];
                        [ {| category := "bench/t1"; file := "t1.json";
                             accuracy_mean := 4 # 10;
                             accuracy_std := JUndefined |} ] ])).
Proof.
  apply (ranking_benchmarks_distinct (fun _ _ => 0%Z) [rankingA; rankingB]).
  constructor; [reflexivity|]. constructor; [reflexivity|]. constructor.
Defined.

(** ** Category dashboard: the test entries *)

Lemma forOf_invariant {A S : Type} (body : S -> A -> result S) (P : S -> Prop) :
  (forall s x s', P s -> body s x = OK s' -> P s') ->
  forall l s s', P s -> forOf body l s = OK s' -> P s'.
Proof.
  intro Hb. induction l as [|x l IH]; intros s s' Hs H; cbn in H.
  - now inversion H; subst.
  - apply bind_OK in H as [s1 [H1 H2]]. apply (IH s1); [|exact H2].
    now apply (Hb s x).
Qed.

Lemma forOf_related {A S : Type} (body : S -> A -> result S)
  (R : S -> S -> Prop) :
  (forall s, R s s) -> (forall a b c, R a b -> R b c -> R a c) ->
  (forall s x s', body s x = OK s' -> R s s') ->
  forall l s s', forOf body l s = OK s' -> R s s'.
Proof.
  intros Rr Rt Hb. induction l as [|x l IH]; intros s s' H; cbn in H.
  - inversion H; subst. apply Rr.
  - apply bind_OK in H as [s1 [H1 H2]].
    apply (Rt _ s1); [now apply (Hb s x) | now apply IH].
Qed.

Lemma updateFirst_names (p : TestEntry -> bool) (f : TestEntry -> TestEntry)
  (l : list TestEntry) :
  (forall t, testName (f t) = testName t) ->
  map testName (updateFirst p f l) = map testName l.
Proof.
  intro Hf. induction l as [|x l IH]; [reflexivity|]. cbn.
  destruct (p x); cbn; [now rewrite Hf | now rewrite IH].
Qed.

Lemma testsKept_refl (tests : list TestEntry) : testsKept tests tests.
Proof. intros name t H. exists t. auto. Qed.

Lemma testsKept_trans (a b c : list TestEntry) :
  testsKept a b -> testsKept b c -> testsKept a c.
Proof.
  intros H1 H2 name t H. destruct (H1 _ _ H) as [t1 [F1 [P1 D1]]].
  destruct (H2 _ _ F1) as [t2 [F2 [P2 D2]]]. exists t2.
  split; [exact F2|]. split; congruence.
Qed.

Lemma categoriesKept_refl (cats : list (CategoryKey * list TestEntry)) :
  categoriesKept cats cats.
Proof. intros c tests H. exists tests. split; [exact H | apply testsKept_refl]. Qed.

Lemma categoriesKept_trans (a b c : list (CategoryKey * list TestEntry)) :
  categoriesKept a b -> categoriesKept b c -> categoriesKept a c.
Proof.
  intros H1 H2 k tests H. destruct (H1 _ _ H) as [t1 [L1 K1]].
  destruct (H2 _ _ L1) as [t2 [L2 K2]]. exists t2.
  split; [exact L2 | now apply (testsKept_trans _ t1)].
Qed.

Section DashboardEntries.
Variables mathMin mathMax : list JsValue -> Q.

Lemma testStep_distinct (sid : string) (ds : list (string * JsValue))
  (tests tests' : list TestEntry) (r : CategoryResult) :
  NoDup (map testName tests) ->
  testStep mathMin mathMax sid ds tests r = OK tests' ->
  NoDup (map testName tests').
Proof.
  unfold testStep. fold (testNameOf r). intros ND H.
  apply bind_OK in H as [range [_ H]]. inversion H; subst tests'. clear H.
  rewrite updateFirst_names by reflexivity.
  destruct (find (fun t => String.eqb (testName t) (testNameOf r)) tests) eqn:F;
    [exact ND|].
  rewrite map_app. cbn [map testName].
  apply Permutation_NoDup with (l := testNameOf r :: map testName tests);
    [apply Permutation_cons_append|].
  constructor; [|exact ND]. intro X. apply in_map_iff in X as [t [E Ht]].
  apply (find_none _ _ F) in Ht. cbn in Ht. rewrite E, String.eqb_refl in Ht.
  discriminate.
Qed.

Lemma testStep_kept (sid : string) (ds : list (string * JsValue))
  (tests tests' : list TestEntry) (r : CategoryResult) :
  testStep mathMin mathMax sid ds tests r = OK tests' -> testsKept tests tests'.
Proof.
  unfold testStep. fold (testNameOf r). intro H.
  apply bind_OK in H as [range [_ H]]. inversion H; subst tests'. clear H.
  intros name t Ft. unfold testNamed in *.
  set (f := fun t0 : TestEntry =>
              {| testName := testName t0; fullPath := fullPath t0;
                 dataset := dataset t0;
                 values := set String.eqb sid
                             {| avg := accuracy_mean r; min := fst range;
                                max := snd range |} (values t0) |}).
  set (tests1 := match find (fun t0 => String.eqb (testName t0) (testNameOf r)) tests with
                 | Some _ => tests
                 | None => tests ++ _
                 end).
  assert (F1 : find (fun t0 => String.eqb (testName t0) name) tests1 = Some t).
  { unfold tests1.
    destruct (find (fun t0 => String.eqb (testName t0) (testNameOf r)) tests);
      [exact Ft|].
    now rewrite find_app_last, Ft. }
  destruct (String.eqb (testNameOf r) name) eqn:E.
  - apply String.eqb_eq in E. subst name.
    exists (f t). rewrite find_updateFirst_same by reflexivity.
    rewrite F1. auto.
  - exists t. rewrite find_updateFirst_other; auto.
    intros x Hx. apply String.eqb_eq in Hx. now rewrite Hx.
Qed.

Lemma categoryStep_distinct (sid : string) (ds : list (string * JsValue))
  (cats cats' : list (CategoryKey * list TestEntry))
  (kb : CategoryKey * list CategoryResult) :
  testsDistinct cats ->
  categoryStep mathMin mathMax sid ds cats kb = OK cats' -> testsDistinct cats'.
Proof.
  destruct kb as [k bucket]. intros D H. unfold categoryStep, has in H.
  assert (X : forall cats0 tests0 tests',
            testsDistinct cats0 -> NoDup (map testName tests0) ->
            forOf (testStep mathMin mathMax sid ds) bucket tests0 = OK tests' ->
            testsDistinct (set CategoryKey_eqb k tests' cats0)).
  { intros cats0 tests0 tests' D0 N0 L c tests Hc.
    rewrite (lookup_set _ CategoryKey_eqb_eq) in Hc.
    destruct (CategoryKey_eqb k c); [|now apply (D0 c)].
    inversion Hc; subst tests.
    apply (forOf_invariant (testStep mathMin mathMax sid ds)
             (fun ts => NoDup (map testName ts))) with (l := bucket) (s := tests0);
      [|exact N0 | exact L].
    intros s x s' Hs Hx. now apply (testStep_distinct _ _ _ _ _ Hs Hx). }
  destruct (lookup CategoryKey_eqb k cats) as [tests0|] eqn:L.
  - rewrite L in H. apply bind_OK in H as [tests' [H1 H2]]. inversion H2.
    apply (X cats tests0 tests' D); [now apply (D k) | exact H1].
  - rewrite (lookup_set_same _ CategoryKey_eqb_eq) in H.
    apply bind_OK in H as [tests' [H1 H2]]. inversion H2.
    apply (X _ [] tests'); [|constructor | exact H1].
    intros c tests Hc. rewrite (lookup_set _ CategoryKey_eqb_eq) in Hc.
    destruct (CategoryKey_eqb k c); [inversion Hc; constructor | now apply (D c)].
Qed.

Lemma categoryStep_kept (sid : string) (ds : list (string * JsValue))
  (cats cats' : list (CategoryKey * list TestEntry))
  (kb : CategoryKey * list CategoryResult) :
  categoryStep mathMin mathMax sid ds cats kb = OK cats' ->
  categoriesKept cats cats'.
Proof.
  destruct kb as [k bucket]. intro H. unfold categoryStep, has in H.
  intros c tests Hc.
  destruct (lookup CategoryKey_eqb k cats) as [tests0|] eqn:L.
  - rewrite L in H. apply bind_OK in H as [tests' [H1 H2]]. inversion H2.
    rewrite (lookup_set _ CategoryKey_eqb_eq).
    destruct (CategoryKey_eqb k c) eqn:E.
    + apply CategoryKey_eqb_eq in E. subst c. rewrite L in Hc. inversion Hc; subst.
      exists tests'. split; [reflexivity|].
      apply (forOf_related (testStep mathMin mathMax sid ds) testsKept
               testsKept_refl testsKept_trans) with (l := bucket); [|exact H1].
      intros s x s' Hx. now apply (testStep_kept _ _ _ _ _ Hx).
    + exists tests. split; [exact Hc | apply testsKept_refl].
  - rewrite (lookup_set_same _ CategoryKey_eqb_eq) in H.
    apply bind_OK in H as [tests' [H1 H2]]. inversion H2.
    rewrite !(lookup_set _ CategoryKey_eqb_eq).
    destruct (CategoryKey_eqb k c) eqn:E.
    + apply CategoryKey_eqb_eq in E. subst c. congruence.
    + exists tests. split; [exact Hc | apply testsKept_refl].
Qed.

Lemma dashboardSource_distinct (cats cats' : list (CategoryKey * list TestEntry))
  (src : DataSource) :
  testsDistinct cats ->
  dashboardSource mathMin mathMax cats src = OK cats' -> testsDistinct cats'.
Proof.
  intros D H. unfold dashboardSource in H.
  apply bind_OK in H as [rs [_ H]]. apply bind_OK in H as [dr [_ H]].
  apply bind_OK in H as [ds [_ H]].
  apply (forOf_invariant _ testsDistinct) with (s := cats) in H; [exact H | | exact D].
  intros s x s' Hs Hx. now apply (categoryStep_distinct _ _ _ _ _ Hs Hx).
Qed.

Lemma dashboardSource_kept (cats cats' : list (CategoryKey * list TestEntry))
  (src : DataSource) :
  dashboardSource mathMin mathMax cats src = OK cats' -> categoriesKept cats cats'.
Proof.
  intro H. unfold dashboardSource in H.
  apply bind_OK in H as [rs [_ H]]. apply bind_OK in H as [dr [_ H]].
  apply bind_OK in H as [ds [_ H]].
  apply (forOf_related _ categoriesKept categoriesKept_refl categoriesKept_trans)
    in H; [exact H|].
  intros s x s' Hx. now apply (categoryStep_kept _ _ _ _ _ Hx).
Qed.

(** X11: in the test list of every category of the dashboard the test names
    are pairwise distinct, so looking a test up by name is unambiguous. *)
Theorem dashboard_tests_distinct (ss : list DataSource)
  (cats : list (CategoryKey * list TestEntry)) :
  categoryTests mathMin mathMax ss = OK cats ->
  forall c tests,
    lookup CategoryKey_eqb c cats = Some tests -> NoDup (map testName tests).
Proof.
  intro H.
  apply (forOf_invariant (dashboardSource mathMin mathMax) testsDistinct)
    with (l := ss) (s := []); [| |exact H].
  - intros s x s' Hs Hx. now apply (dashboardSource_distinct _ _ _ Hs Hx).
  - intros c tests Hc. discriminate.
Qed.

(** X12: the entry of a test keeps the full path and the dataset of the
    result that created it: processing more sources, also ones that file
    another path with the same last segment under the same category, adds
    values to the entry and leaves the two fields as they were. *)
Theorem dashboard_first_path_kept (earlier later : list DataSource)
  (cats cats' : list (CategoryKey * list TestEntry)) :
  categoryTests mathMin mathMax earlier = OK cats ->
  categoryTests mathMin mathMax (earlier ++ later) = OK cats' ->
  forall c tests name t,
    lookup CategoryKey_eqb c cats = Some tests ->
    find (testNamed name) tests = Some t ->
    exists tests' t',
      lookup CategoryKey_eqb c cats' = Some tests'
      /\ find (testNamed name) tests' = Some t'
      /\ fullPath t' = fullPath t /\ dataset t' = dataset t.
Proof.
  unfold categoryTests. intros H1 H2. rewrite forOf_app, H1 in H2. cbn [bind] in H2.
  apply (forOf_related _ categoriesKept categoriesKept_refl categoriesKept_trans)
    in H2; [|intros s x s' Hx; now apply (dashboardSource_kept _ _ _ Hx)].
  intros c tests name t Hc Ht. destruct (H2 _ _ Hc) as [tests' [L K]].
  destruct (K _ _ Ht) as [t' [F [P D]]]. exists tests', t'. auto.
Qed.

End DashboardEntries.

Lemma dashboard_tests_distinct_witness :
  exists tests,
    lookup CategoryKey_eqb mathematics dashboardAfterOther = Some tests
    /\ NoDup (map testName tests).
Proof.
  eexists. split; [reflexivity|].
  apply (dashboard_tests_distinct (fun _ => 0%Q) (fun _ => 1%Q)
           [dashboardFirst; dashboardOther] dashboardAfterOther eq_refl
           mathematics _ eq_refl).
Defined.

Lemma dashboard_first_path_kept_witness :
  exists tests' t',
    lookup CategoryKey_eqb mathematics dashboardAfterOther = Some tests'
    /\ find (testNamed "algebra") tests' = Some t'
    /\ fullPath t' = "mmlu/algebra" /\ dataset t' = "mmlu".
Proof.
  apply (dashboard_first_path_kept (fun _ => 0%Q) (fun _ => 1%Q)
           [dashboardFirst] [dashboardOther]
           dashboardAfterFirst dashboardAfterOther eq_refl eq_refl
           mathematics
           [{| testName := "algebra"; fullPath := "mmlu/algebra";
               dataset := "mmlu";
               values := [("gpt", {| avg := 1 # 4; min := 1 # 4;
                                     max := 1 # 4 |})] |}]
           "algebra"
           {| testName := "algebra"; fullPath := "mmlu/algebra";
              dataset := "mmlu";
              values := [("gpt", {| avg := 1 # 4; min := 1 # 4;
                                    max := 1 # 4 |})] |});
    reflexivity.
Defined.

(** ** CompactDashboard: the benchmark filter *)

Lemma setHas_In (k : string) (s : list string) : setHas k s = true <-> In k s.
Proof. apply existsb_eqb_In. Qed.

Lemma firstSeen_NoDup {A : Type} (dec : forall x y : A, {x = y} + {x <> y})
  (l : list A) : NoDup (firstSeen dec l).
Proof. unfold firstSeen. apply NoDup_rev, NoDup_nodup. Qed.

Lemma fold_add_app (xs ys : list string) :
  fold_left (fun s x => add String.eqb x s) ys (setOf xs) = setOf (xs ++ ys).
Proof. unfold setOf. now rewrite fold_left_app. Qed.

Lemma fold_add_map {A : Type} (f : A -> string) (l : list A) (s : list string) :
  fold_left (fun bs r => add String.eqb (f r) bs) l s
  = fold_left (fun bs x => add String.eqb x bs) (map f l) s.
Proof. revert s. induction l as [|x l IH]; intro s; [reflexivity | apply IH]. Qed.

(** The loop over the sources collects the first segments of all results. *)
Lemma available_loop (ss : list DataSource) (rss : list (list CategoryResult)) :
  flattensTo ss rss ->
  forall seen,
    forOf availableSource ss (setOf seen)
    = OK (setOf (seen ++ map firstSegment (concat rss))).
Proof.
  induction 1 as [|s rs ss rss Hs _ IH]; intro seen.
  - cbn. now rewrite app_nil_r.
  - cbn [forOf]. unfold availableSource at 1. rewrite Hs. cbn [bind].
    rewrite fold_add_map, fold_add_app, IH. cbn [concat].
    now rewrite map_app, app_assoc.
Qed.

Lemma flattensTo_In (ss : list DataSource) (rss : list (list CategoryResult))
  (r : CategoryResult) :
  flattensTo ss rss -> In r (concat rss) ->
  exists s rs, In s ss /\ flattenDatasetResults (rawData s) = OK rs /\ In r rs.
Proof.
  induction 1 as [|s rs ss rss Hs _ IH]; cbn; [contradiction|].
  intro H. apply in_app_or in H as [H|H].
  - exists s, rs. auto.
  - destruct (IH H) as [s' [rs' [A [B C]]]]. exists s', rs'. auto.
Qed.

(** X13: the benchmarks offered by the filter of the compact dashboard are
    the first path segments of the flattened results of all sources, each
    once, in ascending order of their code units; every one of them is the
    normalized key of a dataset of some source. *)
Theorem availableBenchmarks_sorted (ss : list DataSource)
  (rss : list (list CategoryResult)) :
  flattensTo ss rss ->
  exists bs,
    availableBenchmarks ss = OK bs
    /\ Sorted (fun a b => String.leb a b = true) bs
    /\ NoDup bs
    /\ (forall b, In b bs <-> In b (map firstSegment (concat rss)))
    /\ (forall b, In b bs ->
          exists s datasetKey,
            In s ss
            /\ In datasetKey (map fst (datasetEntries (rawData s)))
            /\ b = normalizeDatasetKey datasetKey).
Proof.
  intro F. unfold availableBenchmarks.
  pose proof (available_loop _ _ F []) as L. cbn [app] in L.
  change (setOf []) with (@nil string) in L. rewrite L. cbn [bind].
  set (segs := map firstSegment (concat rss)) in *.
  assert (E : setOf segs = firstSeen string_dec segs)
    by apply (fold_add_firstSeen _ string_eqb_eq).
  assert (M : forall b, In b (sortBy String.leb (setOf segs)) <-> In b segs).
  { intro b. rewrite <- (firstSeen_In string_dec segs b), <- E. split.
    - apply Permutation_in, sortBy_perm.
    - apply Permutation_in, Permutation_sym, sortBy_perm. }
  eexists. split; [reflexivity|].
  split; [apply sortBy_sorted, String.leb_total|].
  split.
  { apply (Permutation_NoDup (Permutation_sym (sortBy_perm _ _))).
    rewrite E. apply firstSeen_NoDup. }
  split; [exact M|].
  intros b Hb. apply M in Hb. unfold segs in Hb.
  apply in_map_iff in Hb as [r [Hr Hin]].
  destruct (flattensTo_In _ _ _ F Hin) as [s [rs [Hs [Hf Hrs]]]].
  apply flatten_emits in Hf. subst rs.
  apply in_flat_map in Hrs as [[k v] [Hkv Hr']].
  apply datasetEmits_In in Hr' as [items [entry [_ [_ Hr']]]].
  apply entryEmits_In in Hr' as [f [_ [_ [_ [Hc _]]]]]. cbn [fst] in Hc.
  exists s, k. split; [exact Hs|].
  split; [now apply (in_map fst) in Hkv|].
  rewrite <- Hr. unfold firstSegment. rewrite Hc.
  apply (category_path_parts _ _ (normalizeDatasetKey_noslash k)).
Qed.

Lemma availableBenchmarks_sorted_witness :
  exists bs,
    availableBenchmarks [dashboardOther; dashboardFirst] = OK bs
    /\ Sorted (fun a b => String.leb a b = true) bs
    /\ NoDup bs
    /\ (forall b, In b bs <->
          In b (map firstSegment
                  (concat
                     [ [ {| category := "tmmluplus/algebra";
                            file := "algebra_test.json";
                            accuracy_mean := 1 # 5;
                            accuracy_std := JUndefined |} ];
                       [ {| category := "mmlu/algebra";
                            file := "algebra_test.json";
                            accuracy_mean := 1 # 4;
                            accuracy_std := JUndefined |} ] ])))
    /\ (forall b, In b bs ->
          exists s datasetKey,
            In s [dashboardOther; dashboardFirst]
            /\ In datasetKey (map fst (datasetEntries (rawData s)))
            /\ b = normalizeDatasetKey datasetKey).
Proof.
  apply (availableBenchmarks_sorted [dashboardOther; dashboardFirst]).
  constructor; [reflexivity|]. constructor; [reflexivity|]. constructor.
Defined.

Lemma setHas_delete (k x : string) (s : list string) :
  setHas x (setDelete k s) = negb (String.eqb k x) && setHas x s.
Proof.
  unfold setHas, setDelete. induction s as [|y s IH]; cbn.
  - now rewrite andb_false_r.
  - destruct (String.eqb k y) eqn:E; cbn; rewrite IH.
    + apply String.eqb_eq in E. subst y. rewrite (String.eqb_sym x k).
      destruct (String.eqb k x); reflexivity.
    + destruct (String.eqb x y) eqn:E2; [|reflexivity].
      apply String.eqb_eq in E2. subst y. now rewrite E.
Qed.

Lemma setHas_add (k x : string) (s : list string) :
  setHas x (add String.eqb k s) = String.eqb k x || setHas x s.
Proof.
  unfold setHas. induction s as [|y s IH]; cbn.
  - now rewrite (String.eqb_sym x k), orb_false_r.
  - destruct (String.eqb k y) eqn:E; cbn.
    + apply String.eqb_eq in E. subst y. rewrite (String.eqb_sym x k).
      destruct (String.eqb k x); reflexivity.
    + rewrite IH. destruct (String.eqb x y), (String.eqb k x); reflexivity.
Qed.

Lemma toggle_has (b x : string) (u : list string) :
  setHas x (toggleBenchmark b u) = xorb (String.eqb b x) (setHas x u).
Proof.
  unfold toggleBenchmark. destruct (setHas b u) eqn:H.
  - rewrite setHas_delete. destruct (String.eqb b x) eqn:E; [|reflexivity].
    apply String.eqb_eq in E. subst x. now rewrite H.
  - rewrite setHas_add. destruct (String.eqb b x) eqn:E; [|reflexivity].
    apply String.eqb_eq in E. subst x. now rewrite H.
Qed.

(** X14: toggling a benchmark flips its membership in the set of unselected
    benchmarks and no other; toggling it twice gives back the same list of
    active benchmarks; and the set stays free of repetitions. *)
Theorem toggleBenchmark_flips (b : string) (u : list string) :
  (forall x, setHas x (toggleBenchmark b u) = xorb (String.eqb b x) (setHas x u))
  /\ (forall available,
        activeBenchmarks available (toggleBenchmark b (toggleBenchmark b u))
        = activeBenchmarks available u)
  /\ (NoDup u -> NoDup (toggleBenchmark b u)).
Proof.
  split; [intro x; apply toggle_has|]. split.
  - intro available. unfold activeBenchmarks. apply filter_ext. intro x.
    rewrite !toggle_has. now destruct (String.eqb b x), (setHas x u).
  - intro N. unfold toggleBenchmark. destruct (setHas b u).
    + now apply NoDup_filter.
    + now apply add_NoDup.
Qed.

Lemma toggleBenchmark_flips_witness :
  NoDup (toggleBenchmark "arc" ["mmlu"; "arc"]).
Proof.
  apply (proj2 (proj2 (toggleBenchmark_flips "arc" ["mmlu"; "arc"]))).
  constructor; [|constructor; [|constructor]]; cbn; intuition discriminate.
Defined.

(** ** Home: loaded sources and selection *)

Lemma setHas_setOf (k : string) (xs : list string) :
  setHas k (setOf xs) = existsb (String.eqb k) xs.
Proof.
  unfold setOf. rewrite (fold_add_firstSeen _ string_eqb_eq string_dec).
  destruct (existsb (String.eqb k) xs) eqn:E.
  - apply setHas_In, firstSeen_In. now apply existsb_eqb_In.
  - apply not_true_is_false. intro X. apply setHas_In, firstSeen_In in X.
    apply existsb_eqb_In in X. congruence.
Qed.

Lemma addNewSources_filter (vs prev : list DataSource) :
  addNewSources vs prev
  = prev ++ filter (fun s => negb (existsb (String.eqb (id s)) (map id prev))) vs.
Proof.
  unfold addNewSources. f_equal. apply filter_ext. intro s.
  now rewrite setHas_setOf.
Qed.

(** X15: adding the freshly loaded sources keeps the sources already held,
    in place, and appends only sources whose id is not held yet; doing it
    again with the same sources changes nothing; and ids stay pairwise
    distinct when they are so in the held and in the loaded sources. *)
Theorem addNewSources_by_id (vs prev : list DataSource) :
  (exists added,
     addNewSources vs prev = prev ++ added
     /\ forall s, In s added -> In s vs /\ ~ In (id s) (map id prev))
  /\ addNewSources vs (addNewSources vs prev) = addNewSources vs prev
  /\ (NoDup (map id prev) -> NoDup (map id vs) ->
      NoDup (map id (addNewSources vs prev))).
Proof.
  rewrite !addNewSources_filter.
  set (fresh := fun p => fun s : DataSource =>
                  negb (existsb (String.eqb (id s)) (map id p))).
  assert (FI : forall p s, In s (filter (fresh p) vs) ->
                 In s vs /\ ~ In (id s) (map id p)).
  { intros p s H. apply filter_In in H as [H1 H2]. split; [exact H1|].
    unfold fresh in H2. apply negb_true_iff in H2. intro X.
    apply existsb_eqb_In in X. congruence. }
  split; [exists (filter (fresh prev) vs); split; [reflexivity | apply FI]|].
  change (filter (fun s => negb (existsb (String.eqb (id s)) (map id prev))) vs)
    with (filter (fresh prev) vs).
  split.
  - change ((prev ++ filter (fresh prev) vs)
            ++ filter (fresh (prev ++ filter (fresh prev) vs)) vs
            = prev ++ filter (fresh prev) vs).
    replace (filter (fresh (prev ++ filter (fresh prev) vs)) vs)
      with (@nil DataSource); [apply app_nil_r|].
    symmetry.
    destruct (filter (fresh (prev ++ filter (fresh prev) vs)) vs)
      as [|s l] eqn:E; [reflexivity|].
    exfalso. assert (Hs : In s (filter (fresh (prev ++ filter (fresh prev) vs)) vs))
      by (rewrite E; now left).
    apply FI in Hs as [Hv Hn]. apply Hn. rewrite map_app. apply in_or_app.
    destruct (existsb (String.eqb (id s)) (map id prev)) eqn:X.
    + left. now apply existsb_eqb_In.
    + right. apply in_map. apply filter_In. split; [exact Hv|].
      unfold fresh. now rewrite X.
  - intros Np Nv. rewrite map_app. apply NoDup_app.
    + exact Np.
    + clear - Nv. induction vs as [|s vs IH]; cbn; [constructor|].
      inversion Nv; subst. destruct (fresh prev s); cbn; [|now apply IH].
      constructor; [|now apply IH]. intro X. apply H1.
      apply in_map_iff in X as [s' [E Hs']]. apply filter_In in Hs' as [Hs' _].
      rewrite <- E. now apply in_map.
    + intros x Hp Hx. apply in_map_iff in Hx as [s [E Hs]].
      apply FI in Hs as [_ Hn]. subst x. contradiction.
Qed.

Lemma addNewSources_by_id_witness :
  NoDup (map id (addNewSources [dashboardFirst; dashboardOther] [dashboardFirst])).
Proof.
  apply (proj2 (proj2 (addNewSources_by_id [dashboardFirst; dashboardOther]
                         [dashboardFirst]))).
  - constructor; [intros [] | constructor].
  - constructor; [|constructor; [intros [] | constructor]].
    cbn. intuition discriminate.
Defined.

Lemma existsb_without (k i : string) (sel : list string) :
  existsb (String.eqb k) (filter (fun sid => negb (String.eqb sid i)) sel)
  = existsb (String.eqb k) sel && negb (String.eqb k i).
Proof.
  induction sel as [|x sel IH]; [reflexivity|]. cbn [filter existsb].
  destruct (String.eqb x i) eqn:E; cbn [negb existsb]; rewrite IH.
  - apply String.eqb_eq in E. subst x.
    destruct (String.eqb k i), (existsb (String.eqb k) sel); reflexivity.
  - destruct (String.eqb k x) eqn:E2; [|reflexivity].
    apply String.eqb_eq in E2. subst x. now rewrite E.
Qed.

Lemma filter_filter {A : Type} (p q : A -> bool) (l : list A) :
  filter q (filter p l) = filter (fun x => p x && q x) l.
Proof.
  induction l as [|x l IH]; [reflexivity|]. cbn.
  destruct (p x); cbn; [destruct (q x); now rewrite IH | exact IH].
Qed.

Lemma filter_all {A : Type} (p : A -> bool) (l : list A) :
  (forall x, In x l -> p x = true) -> filter p l = l.
Proof.
  induction l as [|x l IH]; intro H; [reflexivity|]. cbn.
  rewrite (H x (or_introl eq_refl)). f_equal. apply IH. intros y Hy.
  apply H. now right.
Qed.

(** X16: unchecking a source removes every occurrence of its id from the
    selection, so the selected sources lose exactly the sources of that id;
    checking and then unchecking an id leaves the selection as unchecking
    alone does; "select all" selects every loaded source; and with the
    selection cleared the pivot table is empty. *)
Theorem selection_handlers (sources : list DataSource) (sel : list string)
  (i : string) :
  selectedSources sources (handleToggleSource sel i false)
  = filter (fun s => negb (String.eqb (id s) i)) (selectedSources sources sel)
  /\ handleToggleSource (handleToggleSource sel i true) i false
     = handleToggleSource sel i false
  /\ selectedSources sources (handleSelectAll sources) = sources
  /\ pivotData sources handleClearAll = OK [].
Proof.
  split; [|split; [|split]].
  - unfold selectedSources, handleToggleSource. rewrite filter_filter.
    apply filter_ext. intro s. apply existsb_without.
  - unfold handleToggleSource. rewrite filter_app. cbn [filter].
    rewrite String.eqb_refl. cbn [negb]. apply app_nil_r.
  - unfold selectedSources, handleSelectAll. apply filter_all. intros s Hs.
    apply existsb_eqb_In. now apply in_map.
  - reflexivity.
Qed.

(** ** Category dashboard: the search for individual runs *)

Lemma findByFile_found (f : string) (items : list JsValue) (v : JsValue) :
  findByFile f items = OK v ->
  v = JUndefined \/ (In v items /\ getProp v "file" = OK (JStr f)).
Proof.
  induction items as [|x items IH]; cbn; intro H.
  - inversion H. now left.
  - apply bind_OK in H as [rf [Hrf H]].
    assert (Next : findByFile f items = OK v ->
                   v = JUndefined \/ (In v (x :: items) /\ getProp v "file" = OK (JStr f))).
    { intro X. destruct (IH X) as [A|[A B]]; [now left | right; split; [now right | exact B]]. }
    destruct rf as [| |b|q|s|its|ps]; try (now apply Next).
    destruct (String.eqb s f) eqn:E; [|now apply Next].
    apply String.eqb_eq in E. subst s. inversion H; subst v.
    right. split; [now left | exact Hrf].
Qed.


Section RunRange.
Variables mathMin mathMax : list JsValue -> Q.

(** X17: the minimum and maximum shown for a result are either the pair
    handed in (its accuracy_mean twice) or the minimum and maximum of the
    non-empty [individual_runs.accuracies] array of an entry, in one of the
    datasets of the document, whose [file] is exactly the file of the
    result; runs of an entry with another file are never used. *)
Theorem runRange_exact_file (datasets : list (string * JsValue))
  (r : CategoryResult) (range out : Q * Q) :
  runRange mathMin mathMax datasets r range = OK out ->
  out = range
  \/ exists k ds items entry accs,
       In (k, ds) datasets
       /\ getPropOpt ds "results" = OK (JArr items)
       /\ In entry items
       /\ hasRuns (file r) accs entry
       /\ out = (mathMin accs, mathMax accs).
Proof.
  induction datasets as [|[k ds] datasets IH]; cbn [runRange]; intro H.
  - inversion H. now left.
  - assert (Next : runRange mathMin mathMax datasets r range = OK out ->
                   out = range
                   \/ exists k0 ds0 items entry accs,
                        In (k0, ds0) ((k, ds) :: datasets)
                        /\ getPropOpt ds0 "results" = OK (JArr items)
                        /\ In entry items
                        /\ hasRuns (file r) accs entry
                        /\ out = (mathMin accs, mathMax accs)).
    { intro X. destruct (IH X) as [A|[k0 [ds0 [items [entry [accs [A B]]]]]]];
        [now left|].
      right. exists k0, ds0, items, entry, accs. split; [now right | exact B]. }
    apply bind_OK in H as [rs [Hrs H]].
    destruct rs as [| |b|q|s|items|ps]; try (now apply Next).
    apply bind_OK in H as [testResult [Hfind H]].
    apply bind_OK in H as [runs [Hruns H]].
    destruct (truthy runs) eqn:T; [|now apply Next].
    apply bind_OK in H as [accuracies [Hacc H]].
    destruct accuracies as [| |b|q|s|accs|ps]; try (now apply Next).
    destruct accs as [|a accs]; [now apply Next|].
    inversion H; subst out. right.
    apply findByFile_found in Hfind as [->|[Hin Hfile]].
    { cbn in Hruns. inversion Hruns; subst runs. discriminate T. }
    exists k, ds, items, testResult, (a :: accs).
    split; [now left|]. split; [exact Hrs|]. split; [exact Hin|].
    split; [|reflexivity].
    split; [exact Hfile|]. exists runs. repeat split; try assumption. discriminate.
Qed.


End RunRange.

Lemma runRange_exact_file_witness :
  (0%Q, 1%Q) = (3 # 4, 3 # 4)
  \/ exists k ds items entry accs,
       In (k, ds) (datasetEntries (rawData dashboardSecond))
       /\ getPropOpt ds "results" = OK (JArr items)
       /\ In entry items
       /\ hasRuns "algebra_test.json" accs entry
       /\ (0%Q, 1%Q) = (0%Q, 1%Q).
Proof.
  apply (runRange_exact_file (fun _ => 0%Q) (fun _ => 1%Q)
           (datasetEntries (rawData dashboardSecond))
           {| category := "mmlu/algebra"; file := "algebra_test.json";
              accuracy_mean := 3 # 4; accuracy_std := JUndefined |}
           (3 # 4, 3 # 4) (0%Q, 1%Q)).
  reflexivity.
Defined.



(** ** Column visibility *)

Lemma fold_assign_lookup (f : string -> bool) (l : list string) :
  ~ In "__proto__" l ->
  forall u t,
    lookup String.eqb t (fold_left (fun u x => assign x (f x) u) l u)
    = if existsb (String.eqb t) l then Some (f t) else lookup String.eqb t u.
Proof.
  induction l as [|x l IH]; intros N u t; [reflexivity|].
  cbn [fold_left existsb]. rewrite IH by (intro X; apply N; now right).
  destruct (existsb (String.eqb t) l) eqn:E; [now rewrite orb_true_r|].
  rewrite orb_false_r. unfold assign.
  replace (String.eqb x "__proto__") with false
    by (symmetry; apply String.eqb_neq; intro X; apply N; now left).
  cbn [andb]. rewrite (lookup_set _ string_eqb_eq), (String.eqb_sym t x).
  destruct (String.eqb x t) eqn:X; [|reflexivity].
  apply String.eqb_eq in X. now subst.
Qed.

Lemma fold_assign_NoDup (f : string -> bool) (l : list string) :
  forall u, NoDup (map fst u) ->
            NoDup (map fst (fold_left (fun u x => assign x (f x) u) l u)).
Proof.
  induction l as [|x l IH]; intros u H; [exact H|].
  cbn [fold_left]. apply IH. unfold assign.
  destruct (String.eqb x "__proto__" && negb (has String.eqb x u));
    [exact H | now apply (keys_set_NoDup _ string_eqb_eq)].
Qed.

Lemma spread_lookup (updates : list (string * bool)) :
  NoDup (map fst updates) ->
  forall prev t,
    lookup String.eqb t (spread prev updates)
    = match lookup String.eqb t updates with
      | Some v => Some v
      | None => lookup String.eqb t prev
      end.
Proof.
  unfold spread. induction updates as [|[k v] updates IH]; intros N prev t;
    [reflexivity|].
  cbn [fold_left fst snd map] in *. inversion N as [|? ? Nk Nr]; subst.
  rewrite (IH Nr). cbn [lookup]. rewrite (lookup_set _ string_eqb_eq).
  rewrite (String.eqb_sym t k).
  destruct (String.eqb k t) eqn:E; [|reflexivity].
  apply String.eqb_eq in E. subst t.
  destruct (lookup String.eqb k updates) as [w|] eqn:L; [|reflexivity].
  exfalso. apply Nk. apply (has_In _ string_eqb_eq). unfold has. now rewrite L.
Qed.

(** After a batch of updates built by assignment from the tests of a
    benchmark, the visibility of a column is the value given to it if it is
    one of the tests, and what it was otherwise. *)
Lemma batch_isVisible (f : string -> bool) (allTests : list string)
  (prev : list (string * bool)) (t : string) :
  ~ In "__proto__" allTests ->
  isVisible (spread prev (fold_left (fun u x => assign x (f x) u) allTests [])) t
  = if existsb (String.eqb t) allTests then f t else isVisible prev t.
Proof.
  intro N. unfold isVisible.
  rewrite spread_lookup by (apply fold_assign_NoDup; constructor).
  rewrite (fold_assign_lookup f allTests N [] t).
  destruct (existsb (String.eqb t) allTests); [now destruct (f t) | reflexivity].
Qed.

Lemma filter_ext_In' {A : Type} (f g : A -> bool) (l : list A) :
  (forall x, In x l -> f x = g x) -> filter f l = filter g l.
Proof.
  induction l as [|x l IH]; intro H; [reflexivity|].
  cbn. rewrite (H x) by now left. rewrite IH; [reflexivity|].
  intros y Hy. apply H. now right.
Qed.

(** X19: checking a set of keys in the column tree of a benchmark and
    reading the checked keys back gives exactly the tests of the benchmark
    among the keys, in the order of the tests, whatever the visibility was
    before; the columns shown are the same tests; and the visibility of a
    column that is not a test of this benchmark is unchanged.  No test is
    named [__proto__] (such a column cannot be hidden). *)
Theorem column_check_round_trip (allTests keys : list string)
  (prev : list (string * bool)) :
  ~ In "__proto__" allTests ->
  let visibleColumns :=
    handleBatchVisibilityChange (handleCheck allTests keys) prev in
  checkedKeys allTests visibleColumns
  = filter (fun test => existsb (String.eqb test) keys) allTests
  /\ testColumns allTests visibleColumns = checkedKeys allTests visibleColumns
  /\ forall t, ~ In t allTests -> isVisible visibleColumns t = isVisible prev t.
Proof.
  intros N visibleColumns. subst visibleColumns.
  unfold handleBatchVisibilityChange, handleCheck.
  split; [|split; [reflexivity|]].
  - unfold checkedKeys. apply filter_ext_In'. intros t Ht.
    rewrite (batch_isVisible (fun test => setHas test (setOf keys)) allTests prev
               t N).
    rewrite (existsb_eqb_true _ _ Ht). apply setHas_setOf.
  - intros t Ht.
    rewrite (batch_isVisible (fun test => setHas test (setOf keys)) allTests prev
               t N).
    destruct (existsb (String.eqb t) allTests) eqn:E; [|reflexivity].
    apply existsb_eqb_In in E. contradiction.
Qed.

Lemma column_check_round_trip_witness :
  checkedKeys ["algebra"; "law"; "virology"]
    (handleBatchVisibilityChange
       (handleCheck ["algebra"; "law"; "virology"]
                    ["virology"; "__CAT__mathematics"; "algebra"])
       [("algebra", false); ("law", true)])
  = ["algebra"; "virology"].
Proof.
  apply (column_check_round_trip ["algebra"; "law"; "virology"]
           ["virology"; "__CAT__mathematics"; "algebra"]
           [("algebra", false); ("law", true)]).
  cbn. intros [X|[X|[X|[]]]]; discriminate X.
Defined.

Lemma initialColumns_true (benchmarkData : list BenchmarkData) (k : string)
  (v : bool) :
  lookup String.eqb k (initialColumns benchmarkData) = Some v -> v = true.
Proof.
  unfold initialColumns.
  assert (G : forall (bs : list BenchmarkData) (u : list (string * bool)),
             (forall k v, lookup String.eqb k u = Some v -> v = true) ->
             forall k v,
               lookup String.eqb k
                 (fold_left
                    (fun allColumns benchmark =>
                       fold_left (fun allColumns test => assign test true allColumns)
                                 (allTests benchmark) allColumns)
                    bs u) = Some v -> v = true).
  { induction bs as [|b bs IH]; intros u Hu; [exact Hu|].
    cbn [fold_left]. apply IH.
    generalize (allTests b). intro l. revert u Hu.
    induction l as [|x l IHl]; intros u Hu; [exact Hu|].
    cbn [fold_left]. apply IHl. intros k' v'. unfold assign.
    destruct (String.eqb x "__proto__" && negb (has String.eqb x u));
      [apply Hu|].
    rewrite (lookup_set _ string_eqb_eq).
    destruct (String.eqb x k'); [congruence | apply Hu]. }
  apply G. intros k' v'. cbn.
  repeat match goal with
         | |- context [if ?c then _ else _] => destruct c
         end; congruence.
Qed.

(** X20: showing all columns of a benchmark makes every test of it a
    checked key, hiding all leaves none, and neither touches a column that
    is not a test of this benchmark; before any change every column is
    visible.  No test is named [__proto__]. *)
Theorem column_show_hide_all (benchmarkData : list BenchmarkData)
  (allTests : list string) (prev : list (string * bool)) :
  ~ In "__proto__" allTests ->
  checkedKeys allTests (handleShowAll allTests prev) = allTests
  /\ checkedKeys allTests (handleHideAll allTests prev) = []
  /\ (forall t, ~ In t allTests ->
                isVisible (handleShowAll allTests prev) t = isVisible prev t
                /\ isVisible (handleHideAll allTests prev) t = isVisible prev t)
  /\ checkedKeys allTests (initVisibleColumns benchmarkData []) = allTests.
Proof.
  intro N. unfold handleShowAll, handleHideAll, checkedKeys.
  split; [|split; [|split]].
  - rewrite <- (filter_all (fun _ => true) allTests) at 2 by reflexivity.
    apply filter_ext_In'. intros t Ht.
    rewrite (batch_isVisible (fun _ => true) allTests prev t N).
    now rewrite (existsb_eqb_true _ _ Ht).
  - rewrite (filter_ext_In' _ (fun _ => false)).
    + induction allTests; [reflexivity | cbn; auto].
      apply IHallTests. intro X. apply N. now right.
    + intros t Ht.
      rewrite (batch_isVisible (fun _ => false) allTests prev t N).
      now rewrite (existsb_eqb_true _ _ Ht).
  - intros t Ht.
    rewrite (batch_isVisible (fun _ => true) allTests prev t N).
    rewrite (batch_isVisible (fun _ => false) allTests prev t N).
    destruct (existsb (String.eqb t) allTests) eqn:E; [|split; reflexivity].
    apply existsb_eqb_In in E. contradiction.
  - rewrite <- (filter_all (fun _ => true) allTests) at 2 by reflexivity.
    apply filter_ext_In'. intros t _. cbn [initVisibleColumns].
    unfold isVisible.
    destruct (lookup String.eqb t (initialColumns benchmarkData))
      as [[|]|] eqn:E; try reflexivity.
    apply initialColumns_true in E. discriminate.
Qed.

Lemma column_show_hide_all_witness :
  checkedKeys ["algebra"; "law"]
    (handleShowAll ["algebra"; "law"] [("algebra", false); ("virology", false)])
  = ["algebra"; "law"]
  /\ isVisible (handleShowAll ["algebra"; "law"]
                  [("algebra", false); ("virology", false)]) "virology" = false.
Proof.
  destruct (column_show_hide_all [] ["algebra"; "law"]
              [("algebra", false); ("virology", false)]) as [A [_ [B _]]].
  - cbn. intros [X|[X|[]]]; discriminate X.
  - split; [exact A|].
    destruct (B "virology") as [B1 _].
    + cbn. intros [X|[X|[]]]; discriminate X.
    + rewrite B1. reflexivity.
Defined.

(** ** The column tree *)

Section MapValues.
Context {K V W : Type} (eqb : K -> K -> bool) (f : V -> W).




End MapValues.
















(** ** CompactDashboard: the results behind the radar chart *)

Lemma fold_push {A B : Type} (f : A -> B) (l : list A) :
  forall acc, fold_left (fun acc x => acc ++ [f x]) l acc = acc ++ map f l.
Proof.
  induction l as [|x l IH]; intro acc; cbn; [now rewrite app_nil_r|].
  now rewrite IH, <- app_assoc.
Qed.

Lemma fold_push_nested {K A B : Type} (f : K * list A -> A -> B)
  (g : list (K * list A)) :
  forall acc,
    fold_left (fun acc entry =>
                 fold_left (fun acc x => acc ++ [f entry x]) (snd entry) acc)
              g acc
    = acc ++ flat_map (fun entry => map (f entry) (snd entry)) g.
Proof.
  induction g as [|e g IH]; intro acc; cbn [fold_left flat_map];
    [now rewrite app_nil_r|].
  now rewrite fold_push, IH, <- app_assoc.
Qed.

(** The points of the buckets of a grouping are the points of its results. *)
Lemma bucket_points (src : DataSource) (rs : list CategoryResult) :
  flat_map (fun entry =>
              map (fun result =>
                     {| pointCategory := fst entry;
                        accuracy := accuracy_mean result;
                        sourceName := modelName src;
                        testId := category result |})
                  (snd entry))
           (groupByCategory rs)
  = map (pointOf src) (concat (map snd (groupByCategory rs))).
Proof.
  assert (G : forall g : list (CategoryKey * list CategoryResult),
             (forall k b r, In (k, b) g -> In r b -> categorizeTest (category r) = k) ->
             flat_map (fun entry =>
                         map (fun result =>
                                {| pointCategory := fst entry;
                                   accuracy := accuracy_mean result;
                                   sourceName := modelName src;
                                   testId := category result |})
                             (snd entry)) g
             = map (pointOf src) (concat (map snd g))).
  { induction g as [|[k b] g IH]; intro H; [reflexivity|].
    cbn [flat_map map concat fst snd]. rewrite map_app, IH.
    - f_equal. apply map_ext_in. intros r Hr. unfold pointOf.
      now rewrite (H k b r (or_introl eq_refl) Hr).
    - intros k' b' r Hin Hr. apply (H k' b' r); [now right | exact Hr]. }
  apply G. intros k b r Hin Hr.
  rewrite (group_bucket_filter _ _ _ Hin) in Hr.
  apply filter_In in Hr as [_ Hr]. unfold inBucket in Hr.
  now apply CategoryKey_eqb_eq.
Qed.

Lemma points_loop (activeSet : list string) (keep : CategoryResult -> bool)
  (ss : list DataSource) (rss : list (list CategoryResult)) :
  flattensTo ss rss ->
  (forall r, In r (concat rss) -> setHas (firstSegment r) activeSet = keep r) ->
  forall acc,
  exists pts,
    forOf (pointsOfSource activeSet) ss acc = OK (acc ++ pts)
    /\ Permutation pts (pointsKept keep ss rss).
Proof.
  induction 1 as [|s rs ss rss Hs _ IH]; intros Hk acc.
  - exists []. split; [cbn; now rewrite app_nil_r | constructor].
  - cbn [concat] in Hk.
    destruct (IH (fun r Hr => Hk r (in_or_app _ _ _ (or_intror Hr)))
                 (acc ++ map (pointOf s)
                           (concat (map snd (groupByCategory (filter keep rs))))))
      as [pts [Hp Pp]].
    exists (map (pointOf s) (concat (map snd (groupByCategory (filter keep rs))))
            ++ pts).
    split.
    + cbn [forOf]. unfold pointsOfSource at 1, activeResults. rewrite Hs.
      cbn [bind].
      rewrite (filter_ext_In' _ keep rs)
        by (intros r Hr; apply Hk, in_or_app; now left).
      rewrite fold_push_nested, bucket_points, Hp. now rewrite app_assoc.
    + unfold pointsKept. cbn [combine flat_map fst snd].
      apply Permutation_app; [|exact Pp].
      apply Permutation_map. unfold groupByCategory.
      now rewrite group_fold_perm.
Qed.

(** X22: the results behind the radar chart are, up to their order, the
    flattened results whose benchmark (the first segment of the path) is not
    unselected, each with the subject tag of its path, the accuracy and the
    model name of its source; with nothing unselected every result of
    every source is among them. *)
Theorem radar_results_active (ss : list DataSource)
  (rss : list (list CategoryResult)) (available unselected : list string) :
  flattensTo ss rss ->
  availableBenchmarks ss = OK available ->
  exists pts,
    allResults ss (activeBenchmarks available unselected) = OK pts
    /\ Permutation pts
         (pointsKept (fun r => negb (setHas (firstSegment r) unselected)) ss rss)
    /\ (unselected = [] ->
        Permutation pts (pointsKept (fun _ => true) ss rss)).
Proof.
  intros F Ha. unfold availableBenchmarks in Ha.
  pose proof (available_loop ss rss F []) as L. cbn [app] in L.
  change (setOf []) with (@nil string) in L. rewrite L in Ha. cbn [bind] in Ha.
  inversion Ha as [Hav]. clear Ha.
  set (segs := map firstSegment (concat rss)) in *.
  set (available' := sortBy String.leb (setOf segs)).
  assert (M : forall r, In r (concat rss) ->
                setHas (firstSegment r)
                       (setOf (activeBenchmarks available' unselected))
                = negb (setHas (firstSegment r) unselected)).
  { intros r Hr. rewrite setHas_setOf. unfold activeBenchmarks.
    assert (Hin : In (firstSegment r) available').
    { apply (Permutation_in _ (Permutation_sym (sortBy_perm _ _))).
      apply setHas_In. rewrite setHas_setOf. apply existsb_eqb_true.
      subst segs. now apply in_map. }
    destruct (negb (setHas (firstSegment r) unselected)) eqn:E.
    - apply existsb_eqb_true, filter_In. now split.
    - apply not_true_is_false. intro X. apply existsb_eqb_In, filter_In in X.
      destruct X as [_ X]. congruence. }
  destruct (points_loop (setOf (activeBenchmarks available' unselected))
              (fun r => negb (setHas (firstSegment r) unselected))
              ss rss F M []) as [pts [Hp Pp]].
  exists pts. split; [exact Hp|]. split; [exact Pp|].
  intros ->. exact Pp.
Qed.

Lemma radar_results_active_witness :
  exists pts,
    allResults [dashboardFirst; dashboardSecond] (activeBenchmarks ["mmlu"] [])
    = OK pts
    /\ Permutation pts
         (pointsKept (fun r => negb (setHas (firstSegment r) []))
            [dashboardFirst; dashboardSecond]
            [[{| category := "mmlu/algebra"; file := "algebra_test.json";
                 accuracy_mean := 1 # 4; accuracy_std := JUndefined |}];
             [{| category := "mmlu/algebra"; file := "algebra_test.json";
                 accuracy_mean := 3 # 4; accuracy_std := JUndefined |}]])
    /\ Permutation pts
         (pointsKept (fun _ => true)
            [dashboardFirst; dashboardSecond]
            [[{| category := "mmlu/algebra"; file := "algebra_test.json";
                 accuracy_mean := 1 # 4; accuracy_std := JUndefined |}];
             [{| category := "mmlu/algebra"; file := "algebra_test.json";
                 accuracy_mean := 3 # 4; accuracy_std := JUndefined |}]]).
Proof.
  destruct (radar_results_active [dashboardFirst; dashboardSecond]
           [[{| category := "mmlu/algebra"; file := "algebra_test.json";
                accuracy_mean := 1 # 4; accuracy_std := JUndefined |}];
            [{| category := "mmlu/algebra"; file := "algebra_test.json";
                accuracy_mean := 3 # 4; accuracy_std := JUndefined |}]]
           ["mmlu"] []) as [pts [A [B C]]].
  - repeat constructor.
  - reflexivity.
  - exists pts. split; [exact A|]. split; [exact B | exact (C eq_refl)].
Defined.

(** ** Subject Classifier: the benchmark name in the path *)

Lemma startsWith_before_slash (kw : string) :
  includes kw "/" = false ->
  forall a b, startsWith (a ++ String "/" b) kw = startsWith a kw.
Proof.
  unfold startsWith. induction kw as [|k kw IH]; intros N a b.
  - now destruct a.
  - rewrite includes_slash_cons in N. apply orb_false_iff in N as [Nk Nr].
    destruct a as [|c a]; cbn [append drop_prefix].
    + rewrite Ascii.eqb_sym, Nk. reflexivity.
    + destruct (Ascii.eqb k c); [apply (IH Nr) | reflexivity].
Qed.

Lemma includes_path (kw a b : string) :
  includes kw "/" = false ->
  includes (a ++ String "/" b) kw = includes a kw || includes b kw.
Proof.
  intro N. induction a as [|c a IH].
  - pose proof (startsWith_before_slash kw N EmptyString b) as S.
    cbn [append] in S. cbn [append includes]. rewrite S.
    now rewrite orb_false_r.
  - pose proof (startsWith_before_slash kw N (String c a) b) as S.
    cbn [append] in S. cbn [append includes]. rewrite IH, S.
    now rewrite !orb_assoc.
Qed.

Lemma toLowerCase_path (b t : string) :
  toLowerCase (b ++ "/" ++ t) = (toLowerCase b ++ String "/" (toLowerCase t))%string.
Proof. induction b as [|c b IH]; cbn; [reflexivity | now rewrite <- IH]. Qed.

Lemma groupMatches_path (g : list string * CategoryKey) (a b : string) :
  forallb (fun kw => negb (includes kw "/")) (fst g) = true ->
  groupMatches (a ++ String "/" b) g = groupMatches a g || groupMatches b g.
Proof.
  unfold groupMatches. induction (fst g) as [|kw kws IH]; cbn [forallb existsb];
    intro H; [reflexivity|].
  apply andb_true_iff in H as [Hk Hr]. apply negb_true_iff in Hk.
  rewrite (includes_path kw a b Hk), (IH Hr).
  destruct (includes a kw), (includes b kw), (existsb (includes a) kws);
    reflexivity.
Qed.

Lemma find_ext_in {A : Type} (f g : A -> bool) (l : list A) :
  (forall x, In x l -> f x = g x) -> find f l = find g l.
Proof.
  induction l as [|x l IH]; intro H; [reflexivity|]. cbn.
  rewrite <- (H x) by now left. destruct (f x); [reflexivity|].
  apply IH. intros y Hy. apply H. now right.
Qed.

Lemma ruleTable_noslash (g : list string * CategoryKey) :
  In g ruleTable ->
  forallb (fun kw => negb (includes kw "/")) (fst g) = true.
Proof.
  assert (A : forallb (fun g => forallb (fun kw => negb (includes kw "/")) (fst g))
                      ruleTable = true) by reflexivity.
  intro H. exact (proj1 (forallb_forall _ _) A g H).
Qed.

(** X23: the classifier is applied to the whole category path, and a keyword
    never straddles the slash: a keyword group matches the path exactly when
    it matches the benchmark name or the test name.  So for a benchmark
    whose name holds no keyword, the tag of the path (the category views) is
    the tag of the test name alone (the column tree of the ranking table). *)
Theorem categorizeTest_of_path (benchmark test : string) :
  (forall g, In g ruleTable ->
             groupMatches (toLowerCase (benchmark ++ "/" ++ test)) g
             = groupMatches (toLowerCase benchmark) g
               || groupMatches (toLowerCase test) g)
  /\ (forallb (fun g => negb (groupMatches (toLowerCase benchmark) g)) ruleTable
      = true ->
      categorizeTest (benchmark ++ "/" ++ test) = categorizeTest test).
Proof.
  assert (M : forall g, In g ruleTable ->
                groupMatches (toLowerCase (benchmark ++ "/" ++ test)) g
                = groupMatches (toLowerCase benchmark) g
                  || groupMatches (toLowerCase test) g).
  { intros g Hg. rewrite toLowerCase_path.
    apply groupMatches_path, ruleTable_noslash, Hg. }
  split; [exact M|].
  intro H. rewrite !categorizeTest_classify. unfold classify.
  rewrite (find_ext_in (groupMatches (toLowerCase (benchmark ++ "/" ++ test)))
             (groupMatches (toLowerCase test)) ruleTable); [reflexivity|].
  intros g Hg. rewrite (M g Hg).
  pose proof (proj1 (forallb_forall _ _) H g Hg) as Hb.
  apply negb_true_iff in Hb. now rewrite Hb.
Qed.

Lemma categorizeTest_of_path_witness :
  categorizeTest ("mmlu" ++ "/" ++ "college_law") = categorizeTest "college_law".
Proof.
  apply (categorizeTest_of_path "mmlu" "college_law"). reflexivity.
Defined.
